(** * pdssp-labtools: PSUP harvesting and the OMEGA cube STAC transformer

    A shallow embedding of [labtools/ias/psup.py] and
    [labtools/ias/transformers/omega_cube.py], and the properties of the
    design document established (or refuted) on it.

    Conventions of the embedding:
    - Python exceptions are values of [exn]; a computation that can raise
      returns a [result]; a computation that also touches the file system,
      the network or standard output is a state transformer [M] over
      [world].  Effects performed before an exception is raised persist.
    - [pathlib.Path] objects are pairs of a root and a list of parts, as
      pathlib's own parser produces them (POSIX flavour).
    - The disk is a finite map from paths to nodes.  The paths the
      program makes itself (the artifact, the directories it creates)
      are read and written at their spelling.  The existence checks on
      paths that end in a name taken from a record are answered as the
      operating system answers them: it walks the path, resolves "..",
      and refuses a name longer than 255 bytes with an error that
      [Path.exists] raises again.
    - JSON values are an inductive type; objects are association lists in
      key order, as Python dicts are.
    - Python floats are IEEE-754 binary64 numbers: [spec_float] with
      precision 53 and maximal exponent 1024, with the rounding of the
      standard library's specification of floating-point arithmetic. *)

From Stdlib Require Import ZArith String List Bool Lia Ascii.
From Stdlib Require Import Floats.SpecFloat.
From stdpp Require Import base strings gmap list pretty.

Set Warnings "-register-all".
Local Open Scope Z_scope.

(** ** Strings *)

Module Str.

(** [s.split(sep)] for a one-character separator: never empty. *)
Fixpoint split (sep : ascii) (s : string) : list string :=
  match s with
  | EmptyString => [EmptyString]
  | String c s' =>
      if Ascii.eqb c sep then EmptyString :: split sep s'
      else match split sep s' with
           | [] => [String c EmptyString]
           | w :: ws => String c w :: ws
           end
  end.

(** [l[-1]] on a list of strings known to be non-empty. *)
Definition last (l : list string) : string := List.last l EmptyString.

(** [sep.join(l)]. *)
Fixpoint join (sep : string) (l : list string) : string :=
  match l with
  | [] => EmptyString
  | [w] => w
  | w :: ws => w +:+ sep +:+ join sep ws
  end.

(** [s.rfind(c)]: index of the last occurrence of [c], [-1] if none.
    [i] is the index of the head of [s]. *)
Fixpoint rfind_from (c : ascii) (s : string) (i : Z) : Z :=
  match s with
  | EmptyString => -1
  | String d s' =>
      let r := rfind_from c s' (i + 1) in
      if r =? -1 then (if Ascii.eqb d c then i else -1) else r
  end.

Definition rfind (c : ascii) (s : string) : Z := rfind_from c s 0.

Definition len (s : string) : Z := Z.of_nat (String.length s).

(** [s[:i]] for [0 <= i]. *)
Definition take (i : Z) (s : string) : string :=
  String.substring 0 (Z.to_nat i) s.

(** [s[i:]] for [0 <= i]. *)
Definition drop (i : Z) (s : string) : string :=
  String.substring (Z.to_nat i) (String.length s - Z.to_nat i) s.

Definition starts_with (p s : string) : bool := String.prefix p s.

(** [repr(s)] for a string with no quote, backslash or control
    character in it. *)
Definition repr (s : string) : string := "'" +:+ s +:+ "'".

End Str.

(** ** pathlib (POSIX flavour) *)

Module PathLib.

Record Path := mkPath { root : string; parts : list string }.

#[global] Instance Path_eq_dec : EqDecision Path.
Proof. solve_decision. Defined.

#[global] Instance Path_countable : Countable Path.
Proof.
  apply (inj_countable' (λ p, (root p, parts p)) (λ x, mkPath x.1 x.2)).
  by intros [].
Defined.

Definition slash : ascii := "/"%char.
Definition dot : ascii := "."%char.

(** [posixpath.splitroot]: the root is "/" , "//" (exactly two leading
    slashes) or empty. *)
Definition splitroot (p : string) : string * string :=
  if negb (Str.starts_with "/" p) then (EmptyString, p)
  else if negb (Str.starts_with "//" p) || Str.starts_with "///" p
       then ("/", Str.drop 1 p)
       else ("//", Str.drop 2 p).

(** [Path(s)]: pathlib's [_parse_path]; empty and "." components are
    dropped. *)
Definition of_str (s : string) : Path :=
  let '(r, rel) := splitroot s in
  mkPath r (List.filter
              (λ x, negb (String.eqb x EmptyString) && negb (String.eqb x "."))
              (Str.split slash rel)).

(** [str(p)]. *)
Definition to_str (p : Path) : string :=
  let s := root p +:+ Str.join "/" (parts p) in
  if String.eqb s EmptyString then "." else s.

(** [repr(p)], what [{p!r}] prints. *)
Definition repr (p : Path) : string :=
  "PosixPath(" +:+ Str.repr (to_str p) +:+ ")".

(** [p.name]: the final part, or the empty string. *)
Definition name (p : Path) : string := List.last (parts p) EmptyString.

(** [p.stem]: the name without its last suffix. *)
Definition stem (p : Path) : string :=
  let n := name p in
  let i := Str.rfind dot n in
  if (0 <? i) && (i <? Str.len n - 1) then Str.take i n else n.

(** [p.parent]. *)
Definition parent (p : Path) : Path :=
  mkPath (root p) (List.removelast (parts p)).

(** [p / seg] for a string segment: an absolute segment replaces [p]. *)
Definition join (p : Path) (seg : string) : Path :=
  if Str.starts_with "/" seg then of_str seg
  else mkPath (root p) (parts p ++ parts (of_str seg)).

End PathLib.

Export PathLib.
Infix "//" := PathLib.join (at level 40, left associativity).

(** ** JSON values *)

(** Numbers are integers here: the one number the harvest reads is a
    record count. *)
Inductive json :=
  | JNull
  | JBool (b : bool)
  | JNum (z : Z)
  | JStr (s : string)
  | JArr (l : list json)
  | JObj (kvs : list (string * json)).

Module Json.

(** [d[k]] / [k in d.keys()] on the pairs of a dict. *)
Fixpoint assoc (k : string) (kvs : list (string * json)) : option json :=
  match kvs with
  | [] => None
  | (k', v) :: rest => if String.eqb k k' then Some v else assoc k rest
  end.

Definition chars (s : string) : list json :=
  List.map (λ c, JStr (String c EmptyString)) (list_ascii_of_string s).

End Json.

(** ** Exceptions and results *)

(** The exceptions the two modules can meet.  All of them derive from
    Python's [Exception], so an [except Exception] clause catches each. *)
Inductive exn :=
  | Exception (msg : string)
  | UnboundLocalError (var : string)
  | AttributeError (attr : string)
  | TypeError
  | ValueError
  | JSONDecodeError
  | ConnectionError
  | FileNotFoundError (p : Path)
  | FileExistsError (p : Path)
  | IsADirectoryError (p : Path)
  | ZeroDivisionError
  | InvalidModelObjectTypeError (object_type : string)
  | OSError (errno : Z) (filename : Path)
  | OtherError (what : string).

Inductive result (A : Type) :=
  | Ret (a : A)
  | Raise (e : exn).
Arguments Ret {A} a.
Arguments Raise {A} e.

Definition rbind {A B} (r : result A) (k : A → result B) : result B :=
  match r with
  | Ret a => k a
  | Raise e => Raise e
  end.

Notation "'let+' x ':=' r 'in' k" := (rbind r (λ x, k))
  (at level 10, x binder, r at level 200, k at level 200, only parsing).

(** ** The world: file system, remote service, standard output *)

Inductive file_content :=
  | JsonText (j : json)      (* the text [json.dumps(j)] *)
  | OtherText (s : string).  (* text that [json.load] rejects *)

Inductive node :=
  | Dir
  | File (content : file_content).

(** What the remote service answers to [requests.get]. *)
Inductive reply :=
  | NoConnection                               (* requests.get raises *)
  | Response (ok : bool) (body : option json). (* [r.ok], [r.json()] *)

Inductive net_event :=
  | HttpGet (url : string) (limit : json)      (* requests.get(url, params=dict(limit=..)) *)
  | UrlRetrieve (url : string) (dest : Path).  (* urllib.request.urlretrieve(url, dest) *)

(** One item per call of [print]. *)
Inductive printed :=
  | PStr (s : string)   (* print(s) *)
  | PExn (e : exn)      (* print(e) for a caught exception *)
  | PJson (j : json).   (* print(d) for a dict read from the document *)

Record world := mkWorld {
  fs : gmap Path node;
  remote : string → json → reply;
  net : list net_event;
  out : list printed
}.

Definition M (A : Type) : Type := world → result A * world.

Definition ret {A} (a : A) : M A := λ w, (Ret a, w).
Definition raise {A} (e : exn) : M A := λ w, (Raise e, w).
Definition bind {A B} (m : M A) (k : A → M B) : M B :=
  λ w, match m w with
       | (Ret a, w') => k a w'
       | (Raise e, w') => (Raise e, w')
       end.
Definition lift {A} (r : result A) : M A := λ w, (r, w).

(** [try: m  except Exception as e: h e]. *)
Definition try_except {A} (m : M A) (h : exn → M A) : M A :=
  λ w, match m w with
       | (Ret a, w') => (Ret a, w')
       | (Raise e, w') => h e w'
       end.

Notation "'let*' x ':=' m 'in' k" := (bind m (λ x, k))
  (at level 10, x binder, m at level 200, k at level 200, only parsing).

Definition print (x : printed) : M unit :=
  λ w, (Ret tt, mkWorld (fs w) (remote w) (net w) (out w ++ [x])).

(** What the disk has at the spelling of [p]: the path with no parts
    (the root, or the current directory) is always a directory. *)
Definition lookup_node (w : world) (p : Path) : option node :=
  match parts p with
  | [] => Some Dir
  | _ => fs w !! p
  end.

Definition store (w : world) (p : Path) (n : node) : world :=
  mkWorld (<[p := n]> (fs w)) (remote w) (net w) (out w).

Definition is_dir (w : world) (p : Path) : bool :=
  match lookup_node w p with
  | Some Dir => true
  | _ => false
  end.

(** [p.exists()] on the artifact path of the harvest.  The caller
    chooses the output directory; for one the file system accepts, the
    answer is what the disk has at the spelling of the path. *)
Definition path_exists (p : Path) : M bool :=
  λ w, (Ret (bool_decide (is_Some (lookup_node w p))), w).

(** The limits of the file system on the bytes of a name and of a whole
    path, and the error number of a name beyond them. *)
Definition NAME_MAX : nat := 255.
Definition PATH_MAX : nat := 4096.
Definition ENAMETOOLONG : Z := 36.

(** The directory above a directory: the root is above itself, and a
    path above the current directory is spelled with leading "..". *)
Definition up (here : Path) : Path :=
  match parts here with
  | [] => if String.eqb (root here) EmptyString then mkPath EmptyString [".."]
          else here
  | _ => if String.eqb (List.last (parts here) EmptyString) ".."
         then mkPath (root here) (parts here ++ [".."])
         else mkPath (root here) (List.removelast (parts here))
  end.

(** The walk of the operating system through the names of the path [p]
    that are left, from the directory [here]: ".." steps up, a name
    longer than [NAME_MAX] is refused with ENAMETOOLONG, a name the
    directory does not have ends the walk with nothing found, and so
    does a file where a directory is due. *)
Fixpoint walk (w : world) (p here : Path) (names : list string)
    : result (option node) :=
  match names with
  | [] => Ret (Some Dir)
  | c :: rest =>
      if String.eqb c ".." then walk w p (up here) rest
      else if (NAME_MAX <? String.length c)%nat
      then Raise (OSError ENAMETOOLONG p)
      else
        let child := mkPath (root here) (parts here ++ [c]) in
        match fs w !! child with
        | None => Ret None
        | Some Dir => walk w p child rest
        | Some (File content) =>
            match rest with
            | [] => Ret (Some (File content))
            | _ => Ret None
            end
        end
  end.

(** What [os.stat] finds at a path: the entry the disk has at its
    spelling; otherwise what the walk finds, where the path is spelled
    another way (with "..") or cannot be walked at all.  [None] stands
    for the errors [Path.exists] turns into [False] (no such file, not
    a directory). *)
Definition probe (w : world) (p : Path) : result (option node) :=
  match lookup_node w p with
  | Some n => Ret (Some n)
  | None =>
      if (PATH_MAX <=? String.length (to_str p))%nat
      then Raise (OSError ENAMETOOLONG p)
      else walk w p (mkPath (root p) []) (parts p)
  end.

(** [p.exists()] as pathlib answers it (Python 3.11): the errors of
    [os.stat] for a missing entry are [False], every other [OSError] is
    raised again. *)
Definition exists_ (p : Path) : M bool :=
  λ w, match probe w p with
       | Ret n => (Ret (bool_decide (is_Some n)), w)
       | Raise e => (Raise e, w)
       end.

(** [p.mkdir()]: the parent must be a directory and [p] must not exist. *)
Definition mkdir (p : Path) : M unit :=
  λ w, match lookup_node w p with
       | Some _ => (Raise (FileExistsError p), w)
       | None => if is_dir w (parent p)
                 then (Ret tt, store w p Dir)
                 else (Raise (FileNotFoundError p), w)
       end.

(** The ancestors of [p] and [p] itself, outermost first:
    what [mkdir(parents=True)] walks through. *)
Definition lineage (p : Path) : list Path :=
  List.map (λ n, mkPath (root p) (firstn n (parts p)))
           (List.seq 1 (List.length (parts p))).

(** [Path.mkdir(p, parents=True, exist_ok=True)]: creates the missing
    directories of the lineage; fails where a file is in the way. *)
Fixpoint mkdir_lineage (ps : list Path) : M unit :=
  match ps with
  | [] => ret tt
  | p :: rest =>
      λ w, match lookup_node w p with
           | Some Dir => mkdir_lineage rest w
           | Some (File _) => (Raise (FileExistsError p), w)
           | None => mkdir_lineage rest (store w p Dir)
           end
  end.

Definition mkdir_parents (p : Path) : M unit := mkdir_lineage (lineage p).

(** [with open(p, 'w') as f: json.dump(j, f)]. *)
Definition write_json (p : Path) (j : json) : M unit :=
  λ w, match lookup_node w p with
       | Some Dir => (Raise (IsADirectoryError p), w)
       | _ => if is_dir w (parent p)
              then (Ret tt, store w p (File (JsonText j)))
              else (Raise (FileNotFoundError p), w)
       end.

(** [with open(p, 'r') as f: json.load(f)]. *)
Definition read_json (p : Path) : M json :=
  λ w, match lookup_node w p with
       | Some (File (JsonText j)) => (Ret j, w)
       | Some (File (OtherText _)) => (Raise JSONDecodeError, w)
       | Some Dir => (Raise (IsADirectoryError p), w)
       | None => (Raise (FileNotFoundError p), w)
       end.

(** [requests.get(url, params=dict(limit=limit))]: the query is issued
    (and logged) whatever the service answers. *)
Definition requests_get (url : string) (limit : json) : M reply :=
  λ w, let w' := mkWorld (fs w) (remote w) (net w ++ [HttpGet url limit]) (out w) in
       match remote w url limit with
       | NoConnection => (Raise ConnectionError, w')
       | r => (Ret r, w')
       end.

(** [r.json()]. *)
Definition reply_json (r : reply) : result json :=
  match r with
  | Response _ (Some j) => Ret j
  | _ => Raise JSONDecodeError
  end.

Definition reply_ok (r : reply) : bool :=
  match r with
  | Response ok _ => ok
  | NoConnection => false
  end.

(** [d.keys()]: only a dict has keys. *)
Definition dict_items (j : json) : result (list (string * json)) :=
  match j with
  | JObj kvs => Ret kvs
  | _ => Raise (AttributeError "keys")
  end.

(** [n > bound] for a JSON value [n] and an int [bound]. *)
Definition py_gt (n : json) (bound : Z) : result bool :=
  match n with
  | JNum z => Ret (bound <? z)
  | JBool b => Ret (bound <? (if b then 1 else 0))
  | _ => Raise TypeError
  end.

(** [str(n)] as an f-string renders a JSON number. *)
Definition py_str (n : json) : string :=
  match n with
  | JNum z => pretty z
  | JBool true => "True"
  | JBool false => "False"
  | JStr s => s
  | _ => "None"
  end.

(** [for x in j]: what iterating a JSON value yields. *)
Definition py_iter (j : json) : result (list json) :=
  match j with
  | JArr l => Ret l
  | JObj kvs => Ret (List.map (λ kv, JStr kv.1) kvs)
  | JStr s => Ret (Json.chars s)
  | _ => Raise TypeError
  end.

(** Reading a local variable that an earlier branch may have left
    unassigned. *)
Definition local {A} (var : string) (slot : option A) : M A :=
  match slot with
  | Some a => ret a
  | None => raise (UnboundLocalError var)
  end.

(** ** labtools/ias/psup.py *)

Module Psup.

(** [class PSUP_Collection(BaseModel)]. *)
Record PSUP_Collection := mkCollection {
  id : string;
  schema_name : string;
  n_products : Z
}.

(** What psup.py calls and does not define: pydantic's validation of
    the dict unpacked into [PSUP_Collection], the schema factory of
    [labtools.schemas] and the typed records it builds, with their
    [get_download_url] method. *)
Class Schemas := {
  metadata : Type;
  PSUP_Collection_init : json → result PSUP_Collection;
  create_metadata_object : json → string → string → result metadata;
  get_download_url : metadata → string
}.

Definition max_n_products : Z := 13000.
Definition MAX_N_PRODUCTS : nat := 10.

(** The first [with closing(requests.get(..., limit=0))] block: the
    value it leaves in the local [n_products], if any.  In the branch
    without a 'total' key the exception object is built and dropped:
    nothing is raised and nothing is assigned. *)
Definition probe_total (psup_url : string) : M (option json) :=
  let* r := requests_get psup_url (JNum 0) in
  if reply_ok r then
    let* response := lift (reply_json r) in
    let* items := lift (dict_items response) in
    match Json.assoc "total" items with
    | Some n_products =>
        let* too_many := lift (py_gt n_products max_n_products) in
        let* _ := (if too_many
                   then print (PStr ("WARNING: Number of products higher than "
                                     +:+ pretty max_n_products +:+ ": "
                                     +:+ py_str n_products))
                   else ret tt) in
        ret (Some n_products)
    | None => ret None
    end
  else raise (Exception "Invalid PSUP response.").

(** The second block: the value it leaves in the local [records]. *)
Definition fetch_records (psup_url : string) (n_products : json) : M (option json) :=
  let* r := requests_get psup_url n_products in
  if reply_ok r then
    let* response := lift (reply_json r) in
    let* items := lift (dict_items response) in
    match Json.assoc "data" items with
    | Some records => ret (Some records)
    | None => ret None
    end
  else raise (Exception "Invalid PSUP response.").

(** The document [json.dump] writes. *)
Definition products_dict (collection_id metadata_schema : string)
    (n_products records : json) : json :=
  JObj [("collection", JObj [("id", JStr collection_id);
                             ("schema_name", JStr metadata_schema);
                             ("n_products", n_products)]);
        ("products", records)].

(** The artifact path computed from [output_dir]. *)
Definition source_collection_file (output_dir : string) : Path :=
  let output_dir := of_str output_dir in
  let basename := stem output_dir in
  output_dir // (basename +:+ ".json").

Definition already_exists_message (f : Path) : printed :=
  PStr ("Output source collection file already exists: " +:+ repr f +:+ ".").

(** [download_collection]: [Ret None] is the bare [return]. *)
Definition download_collection (collection_id psup_url metadata_schema : string)
    (output_dir : string) (overwrite : bool) : M (option Path) :=
  let out_dir := of_str output_dir in
  let file := source_collection_file output_dir in
  let* present := path_exists file in
  if present && negb overwrite then
    let* _ := print (already_exists_message file) in
    ret None
  else
    let* n_slot := probe_total psup_url in
    let* limit := local "n_products" n_slot in
    let* records_slot := fetch_records psup_url limit in
    let* _ := mkdir_parents out_dir in
    let* n_products := local "n_products" n_slot in
    let* records := local "records" records_slot in
    let* _ := write_json file
                (products_dict collection_id metadata_schema n_products records) in
    ret (Some file).

Definition not_a_source_file : exn :=
  Exception "Not a valid input PSUP source collection JSON file.".

Section WithSchemas.
Context `{Schemas}.

Definition read_collection_metadata (file : Path) : M (option PSUP_Collection) :=
  let* json_dict := read_json file in
  let* items := lift (dict_items json_dict) in
  let* collection_dict :=
    match Json.assoc "collection" items with
    | Some d => ret d
    | None => raise not_a_source_file
    end in
  try_except
    (let* c := lift (PSUP_Collection_init collection_dict) in ret (Some c))
    (λ e, let* _ := print (PExn e) in
          let* _ := print (PJson collection_dict) in
          ret None).

(** The [for product_dict in products_dicts] loop, with the list
    [products] built so far: a record that fails to parse ends the
    function with a bare [return]. *)
Fixpoint parse_products (schema : string) (products_dicts : list json)
    (products : list metadata) : M (option (list metadata)) :=
  match products_dicts with
  | [] => ret (Some products)
  | product_dict :: rest =>
      match create_metadata_object product_dict schema "item" with
      | Ret product_metadata =>
          parse_products schema rest (products ++ [product_metadata])
      | Raise e =>
          let* _ := print (PExn e) in
          let* _ := print (PJson product_dict) in
          ret None
      end
  end.

Definition read_products_metadata (file : Path) : M (option (list metadata)) :=
  let* collection_metadata := read_collection_metadata file in
  let* schema :=
    match collection_metadata with
    | Some c => ret (schema_name c)
    | None => raise (AttributeError "schema_name")
    end in
  let* _ := print (PStr (">> " +:+ schema)) in
  let* json_dict := read_json file in
  let* items := lift (dict_items json_dict) in
  let* products_dicts :=
    match Json.assoc "products" items with
    | Some d => ret d
    | None => raise not_a_source_file
    end in
  let* dicts := lift (py_iter products_dicts) in
  parse_products schema dicts [].

(** [url.split('/')[-1]]. *)
Definition product_fname (url : string) : string :=
  Str.last (Str.split slash url).

Definition data_dir (file : Path) : Path := parent file // "data".

(** The body of the [for product_metadata in products] loop.  The
    call of [urlretrieve] is commented out in the source: the [try]
    block only prints. *)
Definition download_one (file : Path) (overwrite : bool)
    (product_metadata : metadata) : M unit :=
  let url := get_download_url product_metadata in
  let fname := product_fname url in
  let dir := data_dir file in
  let* present := exists_ dir in
  let* _ := (if negb present then mkdir dir else ret tt) in
  let* _ := print (PStr ("Downloading " +:+ fname +:+ " ...")) in
  let product_path := dir // fname in
  let* there := exists_ product_path in
  if negb there || overwrite
  then print (PStr "DONE")
  else print (PStr "EXISTS").

Fixpoint download_each (file : Path) (overwrite : bool)
    (products : list metadata) : M unit :=
  match products with
  | [] => ret tt
  | p :: rest =>
      let* _ := download_one file overwrite p in
      download_each file overwrite rest
  end.

Definition download_data_files (file : Path) (overwrite : bool) : M unit :=
  let* products := read_products_metadata file in
  match products with
  | Some (p :: ps) =>
      download_each file overwrite (firstn MAX_N_PRODUCTS (p :: ps))
  | _ =>
      print (PStr ("No products found in " +:+ repr file +:+ "."))
  end.

End WithSchemas.

End Psup.

(** ** Python floats: IEEE-754 binary64 *)

Module Float.

Definition prec : Z := 53.
Definition emax : Z := 1024.

Definition float : Type := spec_float.

Definition add : float → float → float := SFadd prec emax.
Definition sub : float → float → float := SFsub prec emax.
Definition ltb : float → float → bool := SFltb.
Definition leb : float → float → bool := SFleb.
Definition eqb : float → float → bool := SFeqb.

(** The float nearest to an integer. *)
Definition of_Z (z : Z) : float := binary_normalize prec emax z 0 false.

Definition zero : float := S754_zero false.

(** [x != 0.0] in C: true of a NaN. *)
Definition nonzero (x : float) : bool :=
  match x with
  | S754_zero _ => false
  | _ => true
  end.

Definition sign (x : float) : bool :=
  match x with
  | S754_zero s | S754_infinity s | S754_finite s _ _ => s
  | S754_nan => false
  end.

(** C's [fmod(x, y)]: the exact remainder of the truncated division,
    with the sign of [x].  Both mantissas are brought to the smaller
    exponent; the remainder is representable, so no rounding occurs. *)
Definition fmod (x y : float) : float :=
  match x, y with
  | S754_nan, _ | _, S754_nan => S754_nan
  | S754_infinity _, _ => S754_nan
  | _, S754_zero _ => S754_nan
  | S754_zero _, _ => x
  | S754_finite _ _ _, S754_infinity _ => x
  | S754_finite sx mx ex, S754_finite _ my ey =>
      let e := Z.min ex ey in
      let r := (Zpos mx * 2 ^ (ex - e)) mod (Zpos my * 2 ^ (ey - e)) in
      binary_normalize prec emax (cond_Zopp sx r) e sx
  end.

(** CPython's [float_rem], the [%] of two floats with a divisor that is
    not zero: the result takes the sign of the divisor. *)
Definition rem (v w : float) : float :=
  let m := fmod v w in
  if nonzero m then
    if xorb (ltb w zero) (ltb m zero) then add m w else m
  else S754_zero (sign w).

(** [v % w]. *)
Definition py_mod (v w : float) : result float :=
  if nonzero w then Ret (rem v w) else Raise ZeroDivisionError.

(** A float in the proper sense: not a NaN, not an infinity. *)
Definition is_finite (x : float) : bool :=
  match x with
  | S754_zero _ | S754_finite _ _ _ => true
  | _ => false
  end.

(** The binary64 numbers among the values of [spec_float]. *)
Definition valid (x : float) : bool := valid_binary prec emax x.

End Float.

(** ** labtools/ias/transformers/omega_cube.py *)

Module OmegaCube.
Import Float.

(** Modelled from the spec: the definition objects of
    [labtools.definitions], which the transformer receives from its
    caller: a canonical id and a processing level among other
    configured values ([JNull] is Python's [None]). *)
Record Definition_ := mkDefinition {
  definition_id : string;
  processing_level : json
}.

(** What the transformer calls and does not define: the schema of the
    OMEGA cube records (the type [num] of its coordinate fields and
    what [float()] makes of them), the object type the schema factory
    gives a record, and the footprint extractor of
    [labtools.ias.netcdf]. *)
Class Labtools := {
  num : Type;
  py_float : num → result float;
  record_extra : Type;
  get_object_type_of : record_extra → string;
  get_netcdf_footprint : Path → M (option json)
}.

Section WithLabtools.
Context `{Labtools}.

(** The fields of [OMEGA_Cube_Record] the transformer reads here. *)
Record OMEGA_Cube_Record := mkRecord {
  download_nc : string;
  westernmost_longitude : num;
  minimum_latitude : num;
  easternmost_longitude : num;
  maximum_latitude : num;
  extra : record_extra
}.

(** [metadata_factory.get_object_type(metadata)]. *)
Definition get_object_type (metadata : OMEGA_Cube_Record) : string :=
  get_object_type_of (extra metadata).

(** [data_path] is a string or [None]; both [None] and the empty
    string are false. *)
Definition truthy (data_path : option string) : option string :=
  match data_path with
  | Some EmptyString => None
  | d => d
  end.

(** [Path(data_path) / 'data' / Path(metadata.download_nc).name]. *)
Definition netcdf_file_of (metadata : OMEGA_Cube_Record) (data_path : string) : Path :=
  of_str data_path // "data" // name (of_str (download_nc metadata)).

Definition footprint_failed (netcdf_file : Path) : printed :=
  PStr ("Unable to extract footprint geometry from source NetCDF file: "
        +:+ to_str netcdf_file).

Definition file_not_found (netcdf_file : Path) : printed :=
  PStr ("Source data file not found: " +:+ repr netcdf_file).

Definition get_geometry (metadata : OMEGA_Cube_Record)
    (definition : option Definition_) (data_path : option string)
    : M (option json) :=
  match truthy data_path with
  | Some data_path =>
      let netcdf_file := netcdf_file_of metadata data_path in
      let* present := exists_ netcdf_file in
      if present then
        try_except (get_netcdf_footprint netcdf_file)
          (λ e, let* _ := print (PExn e) in
                let* _ := print (footprint_failed netcdf_file) in
                ret None)
      else
        let* _ := print (file_not_found netcdf_file) in
        ret None
  | None => ret None
  end.

Definition c180 : float := of_Z 180.
Definition c360 : float := of_Z 360.

(** [(lon + 180.0) % 360.0 - 180.0]; the divisor is not zero, so
    [%] is [rem]. *)
Definition normalize_longitude (lon : float) : float :=
  sub (rem (add lon c180) c360) c180.

(** The four elements are evaluated in order; the first [float()] that
    raises ends the call. *)
Definition get_bbox (metadata : OMEGA_Cube_Record)
    (definition : option Definition_) : result (list float) :=
  let+ west := py_float (westernmost_longitude metadata) in
  let+ south := py_float (minimum_latitude metadata) in
  let+ east := py_float (easternmost_longitude metadata) in
  let+ north := py_float (maximum_latitude metadata) in
  Ret [normalize_longitude west; south; normalize_longitude east; north].

(** [definition] is [None] by default: reading its processing level
    then raises [AttributeError]. *)
Definition get_processing_fields (metadata : OMEGA_Cube_Record)
    (definition : option Definition_) : result (gmap string json) :=
  let object_type := get_object_type metadata in
  if String.eqb object_type "collection" then
    match definition with
    | Some d => Ret {[ "processing:level" := processing_level d ]}
    | None => Raise (AttributeError "processing_level")
    end
  else if String.eqb object_type "item" then Ret ∅
  else Raise (InvalidModelObjectTypeError object_type).

End WithLabtools.

End OmegaCube.

(** ** The rest of omega_cube.py *)

Module OmegaCubeStac.
Import Float OmegaCube.

(** What the other methods of the transformer use and the file does not
    define: the schema name and the remaining attributes of the OMEGA
    cube records (read by name), the publication objects of the
    definitions with their [dict(exclude_none=True)], pydantic's
    validation of the two property blocks of [labtools.schemas.pdssp_stac]
    that are built here, and the property extractor of
    [labtools.ias.netcdf]. *)
Class Stac (L : Labtools) := {
  SCHEMA_NAME : string;
  attribute : string → record_extra → json;
  publication : Type;
  publication_dict : publication → json;
  ssys_properties : Type;
  SsysProperties_init : gmap string json → result ssys_properties;
  properties : Type;
  Properties_init : gmap string json → result properties;
  get_netcdf_properties : Path → string → M (gmap string json)
}.

Section WithStac.
Context `{L : Labtools} `{S : !Stac L}.

(** Modelled from the spec: the collection definition of
    [labtools.definitions], which carries, beside the id and the
    processing level, the configured target bodies and the publication
    list. *)
Record CollectionDefinition := mkCollectionDefinition {
  definition_base : Definition_;
  ssys_targets : json;
  sci_publications : list publication
}.

(** [metadata.<name>] for the attributes the record type above does not
    list. *)
Definition attr (name : string) (metadata : OMEGA_Cube_Record) : json :=
  attribute name (extra metadata).

Definition get_item_id (metadata : OMEGA_Cube_Record)
    (definition : option CollectionDefinition) : string :=
  "OMEGA_L2_" +:+ stem (of_str (download_nc metadata)).

(** The dict literal of [get_properties]; [now] is what
    [datetime.now()] returns at the call. *)
Definition base_properties (now : json) (metadata : OMEGA_Cube_Record)
    : gmap string json :=
  list_to_map
    [("datetime", now);
     ("created", JNull);
     ("start_datetime", JNull);
     ("end_datetime", JNull);
     ("mission", JStr "Mars Express");
     ("platform", JStr "MEX");
     ("instruments", JArr [JStr "OMEGA"]);
     ("gsd", JNull);
     ("orbit_number", attr "orbit_number" metadata);
     ("cube_number", attr "cube_number" metadata);
     ("data_quality_id", attr "data_quality_id" metadata);
     ("martian_year", attr "martian_year" metadata);
     ("pointing_mode", attr "pointing_mode" metadata);
     ("l_channel_ok", attr "l_channel_ok" metadata);
     ("c_channel_ok", attr "vis_channel_ok" metadata);
     ("trimmed_orbit_number", attr "trimmed_orbit_number" metadata);
     ("solar_longitude", attr "solar_longitude" metadata)].

Definition properties_failed (netcdf_file : Path) : printed :=
  PStr ("Unable to extract and add properties from NetCDF file: "
        +:+ to_str netcdf_file).

(** The dict [get_properties] has built when it reaches its last line:
    [d.update(e)] keeps the keys of [d] that [e] does not have. *)
Definition collect_properties (now : json) (metadata : OMEGA_Cube_Record)
    (data_path : option string) : M (gmap string json) :=
  let properties_dict := base_properties now metadata in
  match truthy data_path with
  | Some data_path =>
      let netcdf_file := netcdf_file_of metadata data_path in
      let* present := exists_ netcdf_file in
      if present then
        try_except
          (let* netcdf_metadata_dict :=
             get_netcdf_properties netcdf_file SCHEMA_NAME in
           ret (netcdf_metadata_dict ∪ properties_dict))
          (λ e, let* _ := print (PExn e) in
                let* _ := print (properties_failed netcdf_file) in
                ret properties_dict)
      else
        let* _ := print (file_not_found netcdf_file) in
        ret properties_dict
  | None => ret properties_dict
  end.

Definition get_properties (now : json) (metadata : OMEGA_Cube_Record)
    (definition : option CollectionDefinition) (data_path : option string)
    : M properties :=
  let* properties_dict := collect_properties now metadata data_path in
  lift (Properties_init properties_dict).

Definition get_ssys_properties (metadata : OMEGA_Cube_Record)
    (definition : option CollectionDefinition) : result ssys_properties :=
  let object_type := get_object_type metadata in
  if String.eqb object_type "item" then
    SsysProperties_init {[ "ssys:targets" := JArr [JStr "Mars"] ]}
  else Raise (InvalidModelObjectTypeError object_type).

Definition get_ssys_fields (metadata : OMEGA_Cube_Record)
    (definition : option CollectionDefinition) : result (gmap string json) :=
  let object_type := get_object_type metadata in
  if String.eqb object_type "item" then Ret ∅
  else if String.eqb object_type "collection" then
    match definition with
    | Some d => Ret {[ "ssys:targets" := ssys_targets d ]}
    | None => Raise (AttributeError "ssys_targets")
    end
  else Raise (InvalidModelObjectTypeError object_type).

(** For an item the method returns [None]. *)
Definition get_sci_properties (metadata : OMEGA_Cube_Record)
    (definition : option CollectionDefinition)
    : result (option (gmap string json)) :=
  let object_type := get_object_type metadata in
  if String.eqb object_type "item" then Ret None
  else Raise (InvalidModelObjectTypeError object_type).

Definition get_sci_fields (metadata : OMEGA_Cube_Record)
    (definition : option CollectionDefinition) : result (gmap string json) :=
  let object_type := get_object_type metadata in
  if String.eqb object_type "collection" then
    match definition with
    | Some d =>
        Ret {[ "sci:publications" :=
                 JArr (List.map publication_dict (sci_publications d)) ]}
    | None => Raise (AttributeError "sci_publications")
    end
  else if String.eqb object_type "item" then Ret ∅
  else Raise (InvalidModelObjectTypeError object_type).

Definition get_processing_properties (metadata : OMEGA_Cube_Record)
    (definition : option CollectionDefinition)
    : result (option (gmap string json)) :=
  let object_type := get_object_type metadata in
  if String.eqb object_type "item" then Ret None
  else Raise (InvalidModelObjectTypeError object_type).

(** [get_processing_fields] on the collection definition. *)
Definition processing_fields_of (metadata : OMEGA_Cube_Record)
    (definition : option CollectionDefinition) : result (gmap string json) :=
  get_processing_fields metadata (option_map definition_base definition).

End WithStac.

End OmegaCubeStac.


(** * Terms of the statements

    The predicates and measures the properties below are stated with. *)

Import Psup.
Import Float OmegaCube.

Section ReadProductsTerms.

Context `{Schemas}.

(** The file holds a source-collection document: a collection block
    that validates, naming the schema [schema], and a product sequence
    that iterates as [dicts]. *)
Definition stored_products (w : world) (file : Path) (schema : string)
    (dicts : list json) : Prop :=
  ∃ kvs cd c pd,
    lookup_node w file = Some (File (JsonText (JObj kvs))) ∧
    Json.assoc "collection" kvs = Some cd ∧
    PSUP_Collection_init cd = Ret c ∧ schema_name c = schema ∧
    Json.assoc "products" kvs = Some pd ∧ py_iter pd = Ret dicts.

Definition parses (schema : string) (d : json) (m : metadata) : Prop :=
  create_metadata_object d schema "item" = Ret m.

Definition fails_validation (schema : string) (d : json) : Prop :=
  ∃ e, create_metadata_object d schema "item" = Raise e.

(** Two worlds that differ in what was printed only. *)
Definition same_store (w w' : world) : Prop :=
  fs w' = fs w ∧ remote w' = remote w ∧ net w' = net w.

End ReadProductsTerms.

(** [p.exists()] answers, with [True] or [False]: the operating system
    does not refuse the path. *)
Definition probe_ok (w : world) (p : Path) : bool :=
  match probe w p with
  | Ret _ => true
  | Raise _ => false
  end.

(** [p.exists()] answers [True]. *)
Definition there (w : world) (p : Path) : bool :=
  match probe w p with
  | Ret (Some _) => true
  | _ => false
  end.

(** The two calls of [print] made for one product. *)
Definition report_lines (fname verdict : string) : list printed :=
  [PStr ("Downloading " +:+ fname +:+ " ..."); PStr verdict].

Definition is_line (s : string) (x : printed) : bool :=
  match x with
  | PStr t => String.eqb s t
  | _ => false
  end.

(** Standard output reports [verdict] for the file [fname]: the two
    lines, one after the other. *)
Fixpoint reported (fname verdict : string) (o : list printed) : bool :=
  match o with
  | x :: rest =>
      match rest with
      | y :: _ =>
          (is_line ("Downloading " +:+ fname +:+ " ...") x && is_line verdict y)
          || reported fname verdict rest
      | [] => false
      end
  | [] => false
  end.

Section DownloadTerms.

Context `{Schemas}.

Definition local_path (file : Path) (p : metadata) : Path :=
  data_dir file // product_fname (get_download_url p).

Definition verdict (w : world) (file : Path) (overwrite : bool) (p : metadata) : string :=
  if negb (there w (local_path file p)) || overwrite
  then "DONE" else "EXISTS".

Definition report (w : world) (file : Path) (overwrite : bool) (p : metadata)
    : list printed :=
  report_lines (product_fname (get_download_url p)) (verdict w file overwrite p).

(** What one product can change: nothing on the network, and on disk
    at most the creation of the data directory. *)
Definition download_effects (file : Path) (w w' : world) : Prop :=
  net w' = net w ∧ remote w' = remote w ∧
  (fs w' = fs w ∨ fs w' = <[data_dir file := Dir]> (fs w)).

End DownloadTerms.

(** The claim C9 as it is written: every product record whose file is in
    the data directory is reported as existing, and nothing is fetched. *)
Definition every_existing_file_reported : Prop :=
  ∀ (S : Schemas) (w : world) (file : Path) (products : list metadata)
    (p : metadata),
    (read_products_metadata file w).1 = Ret (Some products) →
    p ∈ products →
    is_Some (lookup_node w (data_dir file)) →
    is_Some (lookup_node w (local_path file p)) →
    net (download_data_files file false w).2 = net w
    ∧ reported (product_fname (get_download_url p)) "EXISTS"
        (out (download_data_files file false w).2) = true.

(** The claim C8 as it is written, in its two parts: no call of
    [get_geometry] raises; and with a [data_path] supplied and the
    file it refers to missing, the call prints a warning and returns
    [None]. *)
Definition never_raises_as_claimed : Prop :=
  ∀ (L : Labtools) (metadata : OMEGA_Cube_Record)
    (definition : option Definition_) (data_path : option string) (w : world),
    ∃ geometry, (get_geometry metadata definition data_path w).1 = Ret geometry.

Definition missing_file_logged_as_claimed : Prop :=
  ∀ (L : Labtools) (metadata : OMEGA_Cube_Record)
    (definition : option Definition_) (data_path : string) (w : world),
    exists_ (netcdf_file_of metadata data_path) w = (Ret false, w) →
    ∃ warning,
      get_geometry metadata definition (Some data_path) w
      = (Ret None, mkWorld (fs w) (remote w) (net w) (out w ++ [warning])).

(** The claim C3 as it is written, for the object type item. *)
Definition item_is_rejected : Prop :=
  ∀ (L : Labtools) (metadata : OMEGA_Cube_Record) (definition : option Definition_),
    get_object_type metadata = "item" →
    get_processing_fields metadata definition
    = Raise (InvalidModelObjectTypeError "item").

(** ** Binary64 numbers as integers

    Every finite binary64 number is an integer multiple of [2 ^ -1074].
    The proofs about the longitude normalisation read floats as these
    integers and the rounding of the float operations as a rounding of
    integers to 53 significant bits. *)

Module Binary64.

(** The exponent of the unit: values are counted in units of
    [2 ^ - bias]. *)
Definition bias : Z := 1074.

(** The number of binary digits of a positive integer. *)
Definition digits (z : Z) : Z := Z.log2 z + 1.

(** The number of low bits that rounding to 53 digits drops. *)
Definition shift_of (v : Z) : Z := Z.max (digits v - prec) 0.

(** The quotient [q] of a division by [2 ^ k] with remainder [r], moved
    to the nearest integer, to the even one on a tie. *)
Definition nearest_even (q r k : Z) : Z :=
  match 2 * r ?= 2 ^ k with
  | Lt => q
  | Gt => q + 1
  | Eq => if Z.even q then q else q + 1
  end.

(** A positive integer rounded to 53 significant bits, to nearest, ties
    to even. *)
Definition rne (v : Z) : Z :=
  let k := shift_of v in
  nearest_even (v / 2 ^ k) (v mod 2 ^ k) k * 2 ^ k.

(** The float of sign [s] whose magnitude is the integer [z], already
    rounded: its mantissa is what is left of [z] above the bits that
    [shift_of] counts; an infinity when the exponent is out of range. *)
Definition Z2F (s : bool) (z : Z) : float :=
  match z with
  | Z0 => S754_zero s
  | Zpos _ =>
    let k := shift_of z in
    if k - bias <=? emax - prec
    then S754_finite s (Z.to_pos (z / 2 ^ k)) (k - bias)
    else S754_infinity s
  | Zneg _ => S754_nan
  end.

(** The record of [shr_1] after [k] one-bit shifts of [m]: the
    quotient, the last bit shifted out, and whether a one was shifted
    out before it. *)
Definition shifted (m k : Z) : shr_record :=
  Build_shr_record (m / 2 ^ k) (Z.testbit m (k - 1))
                   (negb (m mod 2 ^ (k - 1) =? 0)).

Definition finite_or_inf (s : bool) (m e : Z) : float :=
  if e <=? emax - prec then S754_finite s (Z.to_pos m) e else S754_infinity s.

(** The float of a signed integer: rounded to nearest, ties to even;
    a zero sum is the positive zero. *)
Definition of_scaled (t : Z) : float :=
  match t with
  | Z0 => S754_zero false
  | Zpos _ => Z2F false (rne t)
  | Zneg _ => Z2F true (rne (- t))
  end.

(** The value of a float in units of [2 ^ -1074]. *)
Definition scaled (x : float) : Z :=
  match x with
  | S754_finite s m e => cond_Zopp s (Zpos m * 2 ^ (e + bias))
  | _ => 0
  end.

(** A binary64 number with a mantissa: not a zero, an infinity or a NaN. *)
Definition proper (x : float) : Prop :=
  match x with
  | S754_finite _ m e => bounded prec emax m e = true
  | _ => False
  end.

(** A zero or a binary64 number with a mantissa. *)
Definition good (x : float) : Prop :=
  match x with
  | S754_zero _ => True
  | S754_finite _ m e => bounded prec emax m e = true
  | _ => False
  end.

(** An integer in canonical form: a mantissa and the shift that
    rounding to 53 digits gives it. *)
Definition canonical (z : Z) : Prop :=
  ∃ m a, z = m * 2 ^ a ∧ 0 < m ∧ 0 ≤ a ∧ Z.max (digits m + a - prec) 0 = a.

(** The largest binary64 number. *)
Definition max_scaled : Z := (2 ^ 53 - 1) * 2 ^ 2045.

(** 180 and 360 degrees. *)
Definition Z180 : Z := 180 * 2 ^ bias.
Definition Z360 : Z := 360 * 2 ^ bias.

(** What [% 360.0] leaves of a float: the positive zero, or a float in
    the interval from 0 (excluded) to 360 (included). *)
Definition in_turn (x : float) : Prop :=
  x = S754_zero false ∨ (proper x ∧ 0 < scaled x ≤ Z360).

End Binary64.

Import Binary64.

(** The float next to -180 on the side away from zero:
    -180.00000000000003. *)
Definition below_minus_180 : float := S754_finite true 6333186975989761 (-45).

(** Longitudes and the values CPython 3 computes for
    [(lon + 180.0) % 360.0 - 180.0] on them: 0.0, -0.0, 123.456, -77.7,
    180.0, -180.0, 359.99999999999994, 540.0, -540.0000000000001,
    -180.00000000000003, 179.99999999999997, 1e16, -1e300,
    1.7976931348623157e308, -5e-324 and 2.0**60 + 2048. *)
Definition cpython_samples : list (float * float) :=
  [
   (S754_zero false,
    S754_zero false);
   (S754_zero true,
    S754_zero false);
   (S754_finite false 8687443681197687 (-46),
    S754_finite false 8687443681197688 (-46));
   (S754_finite true 5467651422604493 (-46),
    S754_finite true 5467651422604493 (-46));
   (S754_finite false 6333186975989760 (-45),
    S754_finite true 6333186975989760 (-45));
   (S754_finite true 6333186975989760 (-45),
    S754_finite true 6333186975989760 (-45));
   (S754_finite false 6333186975989759 (-44),
    S754_zero false);
   (S754_finite false 4749890231992320 (-43),
    S754_finite true 6333186975989760 (-45));
   (S754_finite true 4749890231992321 (-43),
    S754_finite false 6333186975989756 (-45));
   (S754_finite true 6333186975989761 (-45),
    S754_finite false 6333186975989760 (-45));
   (S754_finite false 6333186975989759 (-45),
    S754_finite true 6333186975989760 (-45));
   (S754_finite false 5000000000000000 (1),
    S754_finite true 5629499534213120 (-46));
   (S754_finite true 6724873095247260 (944),
    S754_finite true 6333186975989760 (-45));
   (S754_finite false 9007199254740991 (971),
    S754_finite true 7318349394477056 (-47));
   (S754_finite true 1 (-1074),
    S754_zero false);
   (S754_finite false 4503599627370504 (8),
    S754_finite false 7036874417766400 (-46))
  ].

(** Two floats with the same bits (or two NaN). *)
Definition same_bits (x y : float) : bool :=
  match x, y with
  | S754_zero s, S754_zero t => Bool.eqb s t
  | S754_infinity s, S754_infinity t => Bool.eqb s t
  | S754_nan, S754_nan => true
  | S754_finite s m e, S754_finite t m' e' =>
      Bool.eqb s t && Pos.eqb m m' && Z.eqb e e'
  | _, _ => false
  end.

(** The claim C2 as it is written: the normalised longitude of a float
    lies in the interval from -180 (excluded) to 180 (included). *)
Definition range_as_claimed : Prop :=
  ∀ lon : float, valid lon = true → is_finite lon = true →
    ltb (SFopp c180) (normalize_longitude lon) = true
    ∧ leb (normalize_longitude lon) c180 = true.

(** The claim C7 as it is written: normalising twice gives a float equal
    to the one normalising once gives. *)
Definition idempotent_as_claimed : Prop :=
  ∀ lon : float, valid lon = true → is_finite lon = true →
    eqb (normalize_longitude (normalize_longitude lon)) (normalize_longitude lon)
    = true.

(** ** Terms of the further properties *)

(** [c in s]. *)
Fixpoint has_char (c : ascii) (s : string) : bool :=
  match s with
  | EmptyString => false
  | String d s' => Ascii.eqb d c || has_char c s'
  end.

(** A string that pathlib keeps as one part of a path: no slash in it,
    not empty, not a single dot. *)
Definition one_part (seg : string) : bool :=
  negb (has_char slash seg) && negb (String.eqb seg EmptyString)
  && negb (String.eqb seg ".").

(** Beside [file], the disk of [w'] has what the disk of [w] has, and
    directories among [dirs] where [w] had nothing. *)
Definition creates_only (dirs : list Path) (file : Path) (w w' : world) : Prop :=
  ∀ p, p ≠ file →
       fs w' !! p = fs w !! p
       ∨ (p ∈ dirs ∧ fs w !! p = None ∧ fs w' !! p = Some Dir).

(** The queries a harvest can have sent: none, the count query, or the
    count query and one page query. *)
Definition harvest_queries (psup_url : string) (queries : list net_event) : Prop :=
  queries = []
  ∨ queries = [HttpGet psup_url (JNum 0)]
  ∨ ∃ limit, queries = [HttpGet psup_url (JNum 0); HttpGet psup_url limit].


(** The line [download_collection] prints for a count above the
    ceiling. *)
Definition too_many_warning (n : Z) : list printed :=
  if max_n_products <? n
  then [PStr ("WARNING: Number of products higher than 13000: " +:+ pretty n)]
  else [].

(** What a harvest can have done to the world: the service is the same,
    the queries sent are those of [harvest_queries], and beside the
    artifact only directories of the output lineage are new. *)
Definition harvest_effects (psup_url output_dir : string) (w w' : world) : Prop :=
  remote w' = remote w
  ∧ (∃ queries, net w' = net w ++ queries ∧ harvest_queries psup_url queries)
  ∧ creates_only (lineage (of_str output_dir))
      (source_collection_file output_dir) w w'.

Definition no_products_message (file : Path) : printed :=
  PStr ("No products found in " +:+ repr file +:+ ".").

(** * Fixtures: concrete schemas, services and worlds *)

Module Fixtures.
Import Psup.

(** A schema whose typed record is the download URL of the product. *)
Definition url_schemas : Schemas := {|
  metadata := string;
  PSUP_Collection_init := λ d,
    match d with
    | JObj kvs =>
        match Json.assoc "id" kvs, Json.assoc "schema_name" kvs,
              Json.assoc "n_products" kvs with
        | Some (JStr i), Some (JStr s), Some (JNum n) => Ret (mkCollection i s n)
        | _, _, _ => Raise ValueError
        end
    | _ => Raise TypeError
    end;
  create_metadata_object := λ d _ _,
    match d with
    | JObj kvs =>
        match Json.assoc "download_nc" kvs with
        | Some (JStr u) => Ret u
        | _ => Raise ValueError
        end
    | _ => Raise TypeError
    end;
  get_download_url := λ u, u
|}.

Definition psup_url : string := "http://psup.example/api".

(** A service whose replies lack the 'total' field. *)
Definition no_total : string → json → reply :=
  λ _ _, Response true (Some (JObj [("count", JNum 2)])).

(** A service that counts two products and then replies without the
    'data' field. *)
Definition no_data : string → json → reply :=
  λ _ limit, match limit with
             | JNum 0 => Response true (Some (JObj [("total", JNum 2)]))
             | _ => Response true (Some (JObj [("records", JArr [])]))
             end.

Definition offline : string → json → reply := λ _ _, NoConnection.

Definition empty_world (service : string → json → reply) : world :=
  mkWorld ∅ service [] [].

Definition record_of (url : string) : json := JObj [("download_nc", JStr url)].

Definition document (products : list json) : json :=
  Psup.products_dict "omega" "OMEGA_CUBE"
    (JNum (Z.of_nat (List.length products))) (JArr products).

Definition source_dir : Path := of_str "source".
Definition source_file : Path := of_str "source/source.json".

(** A harvested collection on disk, with the given nodes beside it. *)
Definition harvested (products : list json) (others : list (Path * node)) : world :=
  mkWorld (list_to_map ((source_dir, Dir)
                        :: (source_file, File (JsonText (document products)))
                        :: others))
          offline [] [].

Definition data_url (stem : string) : string :=
  "http://psup.example/data/" +:+ stem +:+ ".nc".

Definition data_file (stem : string) : Path :=
  of_str ("source/data/" +:+ stem +:+ ".nc").

(** One product harvested, nothing downloaded yet. *)
Definition one_product : world :=
  harvested [record_of (data_url "ORB0018_6")] [].

Definition eleven : list string :=
  ["a"; "b"; "c"; "d"; "e"; "f"; "g"; "h"; "i"; "j"; "k"].

(** Eleven products harvested, the file of each already in data/. *)
Definition eleven_products : world :=
  harvested (List.map (λ s, record_of (data_url s)) eleven)
    ((of_str "source/data", Dir)
     :: List.map (λ s, (data_file s, File (OtherText "netcdf"))) eleven).

(** Cube records whose coordinates are floats already, all of one
    object type, with the given footprint extractor. *)
Definition cube_tools (object_type : string)
    (extract : Path → M (option json)) : OmegaCube.Labtools := {|
  OmegaCube.num := Float.float;
  OmegaCube.py_float := λ x, Ret x;
  OmegaCube.record_extra := unit;
  OmegaCube.get_object_type_of := λ _, object_type;
  OmegaCube.get_netcdf_footprint := extract
|}.

(** An extractor that fails on every file. *)
Definition broken_extractor : Path → M (option json) :=
  λ _, raise (OtherError "not a NetCDF file").

(** The cube ORB0018_6, from 170 to 190 degrees east and from 85 to
    95 degrees north. *)
Definition cube (L : OmegaCube.Labtools) (to_num : Z → OmegaCube.num)
    (x : OmegaCube.record_extra) : OmegaCube.OMEGA_Cube_Record :=
  @OmegaCube.mkRecord L (data_url "ORB0018_6")
    (to_num 170) (to_num 85) (to_num 190) (to_num 95) x.

Definition level_2 : OmegaCube.Definition_ :=
  OmegaCube.mkDefinition "omega_cubes" (JStr "L2").

End Fixtures.

(** * Further fixtures *)

Module Cases.
Import Psup.

(** A file name of 256 bytes, one more than the file system takes. *)
Definition long_name : string :=
  string_of_list_ascii (List.repeat "a"%char 253) +:+ ".nc".

(** Two products harvested: the first with the long file name, the file
    of the second already in data/. *)
Definition long_name_first : world :=
  Fixtures.harvested
    [Fixtures.record_of ("http://psup.example/data/" +:+ long_name);
     Fixtures.record_of (Fixtures.data_url "ORB0020_1")]
    [(of_str "source/data", Dir);
     (Fixtures.data_file "ORB0020_1", File (OtherText "netcdf"))].

(** The cube of [Fixtures.cube] under the long file name. *)
Definition long_cube (L : OmegaCube.Labtools) (to_num : Z → OmegaCube.num)
    (x : OmegaCube.record_extra) : OmegaCube.OMEGA_Cube_Record :=
  @OmegaCube.mkRecord L ("http://psup.example/data/" +:+ long_name)
    (to_num 170) (to_num 85) (to_num 190) (to_num 95) x.

(** A service that counts the given records and returns them on the
    second query. *)
Definition serving (records : list json) : string → json → reply :=
  λ _ limit,
    let total := ("total", JNum (Z.of_nat (List.length records))) in
    match limit with
    | JNum 0 => Response true (Some (JObj [total]))
    | _ => Response true (Some (JObj [total; ("data", JArr records)]))
    end.

Definition two_cubes : list json :=
  [Fixtures.record_of (Fixtures.data_url "ORB0018_6");
   Fixtures.record_of (Fixtures.data_url "ORB0020_1")].

(** The world before the first harvest. *)
Definition fresh : world := Fixtures.empty_world (serving two_cubes).

(** A stored document whose collection block has no usable product
    count. *)
Definition uncounted : world :=
  mkWorld (list_to_map
             [(Fixtures.source_dir, Dir);
              (Fixtures.source_file,
               File (JsonText (Psup.products_dict "omega" "OMEGA_CUBE" JNull
                                 (JArr two_cubes))))])
          Fixtures.offline [] [].

(** A stored JSON object that is no source-collection document. *)
Definition stray : world :=
  mkWorld (list_to_map
             [(Fixtures.source_dir, Dir);
              (Fixtures.source_file,
               File (JsonText (JObj [("type", JStr "FeatureCollection")])))])
          Fixtures.offline [] [].

(** Two products harvested and nothing downloaded yet; the download URL
    of the first ends in "..". *)
Definition dotdot_first : world :=
  Fixtures.harvested
    [Fixtures.record_of "http://psup.example/data/..";
     Fixtures.record_of (Fixtures.data_url "ORB0018_6")] [].

(** Two products harvested, the file of the second already in data/. *)
Definition second_in_place : world :=
  Fixtures.harvested two_cubes
    [(of_str "source/data", Dir);
     (Fixtures.data_file "ORB0020_1", File (OtherText "netcdf"))].

(** The remaining collaborators of the transformer, for records with
    no attribute beyond those of [OMEGA_Cube_Record]: every attribute
    reads as null, a publication is its title, validation accepts every
    dict, and the property extractor is the given one. *)
Definition cube_stac (L : OmegaCube.Labtools)
    (extract : Path → string → M (gmap string json)) : OmegaCubeStac.Stac L := {|
  OmegaCubeStac.SCHEMA_NAME := "OMEGA_CUBE";
  OmegaCubeStac.attribute := λ _ _, JNull;
  OmegaCubeStac.publication := string;
  OmegaCubeStac.publication_dict := λ title, JObj [("title", JStr title)];
  OmegaCubeStac.ssys_properties := gmap string json;
  OmegaCubeStac.SsysProperties_init := Ret;
  OmegaCubeStac.properties := gmap string json;
  OmegaCubeStac.Properties_init := Ret;
  OmegaCubeStac.get_netcdf_properties := extract
|}.

(** A property extractor that fails on every file. *)
Definition broken_properties : Path → string → M (gmap string json) :=
  λ _ _, raise (OtherError "not a NetCDF file").

(** One that finds a ground sampling distance and a creation date. *)
Definition found_properties : Path → string → M (gmap string json) :=
  λ _ _, ret (list_to_map [("gsd", JNum 350); ("created", JStr "2004-01-14")]).

(** The collection definition of the OMEGA cubes. *)
Definition omega_definition (L : OmegaCube.Labtools)
    (S : OmegaCubeStac.Stac L) (titles : list OmegaCubeStac.publication)
    : OmegaCubeStac.CollectionDefinition :=
  OmegaCubeStac.mkCollectionDefinition Fixtures.level_2 (JArr [JStr "Mars"])
    titles.

(** The first product downloaded. *)
Definition first_in_place : world :=
  Fixtures.harvested two_cubes
    [(of_str "source/data", Dir);
     (Fixtures.data_file "ORB0018_6", File (OtherText "netcdf"))].

End Cases.

(** * Properties of the harvest pipeline *)

Import Psup.

Example source_collection_file_of_dir :
  source_collection_file "out/omega" = mkPath "" ["out"; "omega"; "omega.json"].
Proof. reflexivity. Qed.

Example stem_drops_last_suffix : stem (of_str "cubes/x.tar.gz") = "x.tar".
Proof. reflexivity. Qed.

Example product_fname_of_url :
  product_fname (Fixtures.data_url "ORB0018_6") = "ORB0018_6.nc".
Proof. reflexivity. Qed.

Ltac unfold_m :=
  unfold bind, ret, raise, lift, try_except, print, local in *.

Lemma lookup_node_some_exists (w : world) (p : Path) :
  is_Some (lookup_node w p) → path_exists p w = (Ret true, w).
Proof.
  intros Hp. unfold path_exists. by rewrite bool_decide_eq_true_2.
Qed.

Lemma bind_ret {A B} (m : M A) (k : A → M B) (w w' : world) (a : A) :
  m w = (Ret a, w') → bind m k w = k a w'.
Proof. intros Hm. unfold bind. by rewrite Hm. Qed.

Lemma bind_raise {A B} (m : M A) (k : A → M B) (w w' : world) (e : exn) :
  m w = (Raise e, w') → bind m k w = (Raise e, w').
Proof. intros Hm. unfold bind. by rewrite Hm. Qed.

(** ** The answers of the file system *)

Lemma exists_world (p : Path) (w : world) : (exists_ p w).2 = w.
Proof. unfold exists_. by destruct (probe w p). Qed.

(** An entry the disk has at the spelling of a path exists. *)
Lemma probe_spelled (w : world) (p : Path) (n : node) :
  lookup_node w p = Some n → probe w p = Ret (Some n).
Proof. intros Hp. unfold probe. by rewrite Hp. Qed.

Lemma exists_spelled (w : world) (p : Path) :
  is_Some (lookup_node w p) → exists_ p w = (Ret true, w).
Proof.
  intros [n Hn]. unfold exists_. by rewrite (probe_spelled w p n Hn).
Qed.

Lemma there_spelled (w : world) (p : Path) :
  is_Some (lookup_node w p) → there w p = true.
Proof. intros [n Hn]. unfold there. by rewrite (probe_spelled w p n Hn). Qed.

Lemma probe_ok_spelled (w : world) (p : Path) :
  is_Some (lookup_node w p) → probe_ok w p = true.
Proof. intros [n Hn]. unfold probe_ok. by rewrite (probe_spelled w p n Hn). Qed.

(** An answer is [True] or [False] as [there] says. *)
Lemma exists_answer (w : world) (p : Path) :
  probe_ok w p = true → exists_ p w = (Ret (there w p), w).
Proof.
  unfold probe_ok, exists_, there. by destruct (probe w p) as [[n |] | e].
Qed.

Lemma exists_there (w : world) (p : Path) :
  there w p = true → exists_ p w = (Ret true, w).
Proof.
  unfold there, exists_. by destruct (probe w p) as [[n |] | e].
Qed.

Lemma exists_refused (w : world) (p : Path) (e : exn) :
  probe w p = Raise e → exists_ p w = (Raise e, w).
Proof. intros Hp. unfold exists_. by rewrite Hp. Qed.

Lemma walk_same_disk (w w' : world) (p : Path) (names : list string) :
  fs w' = fs w → ∀ here, walk w' p here names = walk w p here names.
Proof.
  intros Hfs. induction names as [| c rest IH]; intros here; [done |].
  cbn [walk]. rewrite Hfs, !IH. reflexivity.
Qed.

(** The answers depend on the disk only. *)
Lemma probe_same_disk (w w' : world) (p : Path) :
  fs w' = fs w → probe w' p = probe w p.
Proof.
  intros Hfs. unfold probe, lookup_node.
  by rewrite Hfs, (walk_same_disk w w' p (parts p) Hfs).
Qed.

Lemma there_same_disk (w w' : world) (p : Path) :
  fs w' = fs w → there w' p = there w p.
Proof. intros Hfs. unfold there. by rewrite (probe_same_disk w w'). Qed.

Lemma probe_ok_same_disk (w w' : world) (p : Path) :
  fs w' = fs w → probe_ok w' p = probe_ok w p.
Proof. intros Hfs. unfold probe_ok. by rewrite (probe_same_disk w w'). Qed.

(** C5: when the source-collection artifact already exists and [overwrite]
    is false, [download_collection] returns with the bare [return]; it has
    printed that the file already exists, has issued no query (the network
    log is the same) and has left the whole file system, the artifact
    included, as it was. *)
Theorem download_collection_existing_is_noop
    (collection_id psup_url metadata_schema output_dir : string) (w : world) :
  is_Some (lookup_node w (source_collection_file output_dir)) →
  download_collection collection_id psup_url metadata_schema output_dir false w
  = (Ret None,
     mkWorld (fs w) (remote w) (net w)
       (out w ++ [already_exists_message (source_collection_file output_dir)])).
Proof.
  intros Hex. unfold download_collection, bind.
  rewrite (lookup_node_some_exists _ _ Hex). reflexivity.
Qed.

Lemma download_collection_existing_is_noop_witness :
  download_collection "omega" Fixtures.psup_url "OMEGA_CUBE" "source" false
    (Fixtures.harvested [] [])
  = (Ret None,
     mkWorld (fs (Fixtures.harvested [] [])) Fixtures.offline []
       [PStr "Output source collection file already exists: PosixPath('source/source.json')."]).
Proof.
  apply (download_collection_existing_is_noop "omega" Fixtures.psup_url
           "OMEGA_CUBE" "source" (Fixtures.harvested [] [])).
  vm_compute. eexists. reflexivity.
Defined.

(** The harvest when the count reply is a dict without 'total': the
    exception object is built but not raised, the local [n_products]
    stays unassigned, and reading it for the second query raises
    [UnboundLocalError]. *)
Lemma download_collection_no_total
    (collection_id psup_url metadata_schema output_dir : string)
    (overwrite : bool) (w : world) (ok_body : list (string * json)) :
  lookup_node w (source_collection_file output_dir) = None ∨ overwrite = true →
  remote w psup_url (JNum 0) = Response true (Some (JObj ok_body)) →
  Json.assoc "total" ok_body = None →
  download_collection collection_id psup_url metadata_schema output_dir overwrite w
  = (Raise (UnboundLocalError "n_products"),
     mkWorld (fs w) (remote w) (net w ++ [HttpGet psup_url (JNum 0)]) (out w)).
Proof.
  intros Hgo Hreply Htotal.
  unfold download_collection, path_exists, probe_total, requests_get.
  unfold_m.
  assert (bool_decide (is_Some (lookup_node w (source_collection_file output_dir)))
          && negb overwrite = false) as ->.
  { destruct Hgo as [-> | ->].
    - rewrite bool_decide_eq_false_2; [done | by intros [? ?]].
    - by rewrite andb_false_r. }
  cbn. rewrite Hreply. cbn. rewrite Htotal. reflexivity.
Qed.

(** The harvest when the request itself is answered with an HTTP error:
    this path does raise the invalid-response exception, before anything
    is written. *)
Lemma download_collection_http_error
    (collection_id psup_url metadata_schema output_dir : string)
    (overwrite : bool) (w : world) (body : option json) :
  lookup_node w (source_collection_file output_dir) = None ∨ overwrite = true →
  remote w psup_url (JNum 0) = Response false body →
  download_collection collection_id psup_url metadata_schema output_dir overwrite w
  = (Raise (Exception "Invalid PSUP response."),
     mkWorld (fs w) (remote w) (net w ++ [HttpGet psup_url (JNum 0)]) (out w)).
Proof.
  intros Hgo Hreply.
  unfold download_collection, path_exists, probe_total, requests_get.
  unfold_m.
  assert (bool_decide (is_Some (lookup_node w (source_collection_file output_dir)))
          && negb overwrite = false) as ->.
  { destruct Hgo as [-> | ->].
    - rewrite bool_decide_eq_false_2; [done | by intros [? ?]].
    - by rewrite andb_false_r. }
  cbn. rewrite Hreply. reflexivity.
Qed.

(** C1: on a reply without the expected field the harvest does write no
    document, but the error it ends with is not the invalid-response
    exception the code builds: it is the [UnboundLocalError] of the
    variable the skipped assignment left unbound.  Without 'total' the
    second query is never sent; without 'data' both queries are sent and
    the output directory is created before the failure. *)
Theorem download_collection_missing_field_unbound_local :
  download_collection "omega" Fixtures.psup_url "OMEGA_CUBE" "source" false
    (Fixtures.empty_world Fixtures.no_total)
  = (Raise (UnboundLocalError "n_products"),
     mkWorld ∅ Fixtures.no_total [HttpGet Fixtures.psup_url (JNum 0)] [])
  ∧
  download_collection "omega" Fixtures.psup_url "OMEGA_CUBE" "source" false
    (Fixtures.empty_world Fixtures.no_data)
  = (Raise (UnboundLocalError "records"),
     mkWorld {[ Fixtures.source_dir := Dir ]} Fixtures.no_data
       [HttpGet Fixtures.psup_url (JNum 0); HttpGet Fixtures.psup_url (JNum 2)] []).
Proof.
  split; vm_compute; reflexivity.
Qed.

(** ** Reading the stored products *)

Section ReadProducts.
Context `{Schemas}.

Lemma same_store_refl w : same_store w w.
Proof. by repeat split. Qed.

Lemma same_store_trans w1 w2 w3 :
  same_store w1 w2 → same_store w2 w3 → same_store w1 w3.
Proof. intros (?&?&?) (?&?&?). repeat split; congruence. Qed.

Lemma same_store_print w x : same_store w (print x w).2.
Proof. by repeat split. Qed.

Lemma same_store_lookup w w' p :
  same_store w w' → lookup_node w' p = lookup_node w p.
Proof. intros (Hfs&_). unfold lookup_node. by rewrite Hfs. Qed.

Lemma parse_products_fails schema dicts :
  Exists (fails_validation schema) dicts →
  ∀ acc w, (parse_products schema dicts acc w).1 = Ret None.
Proof.
  induction 1 as [d rest [e He] | d rest _ IH]; intros acc w; cbn.
  - by rewrite He.
  - destruct (create_metadata_object d schema "item"); [apply IH | done].
Qed.

Lemma parse_products_complete schema dicts :
  ∀ acc w products,
    (parse_products schema dicts acc w).1 = Ret (Some products) →
    ∃ parsed, products = acc ++ parsed ∧ Forall2 (parses schema) dicts parsed.
Proof.
  induction dicts as [| d rest IH]; intros acc w products; cbn.
  - intros [= <-]. exists []. split; [by rewrite app_nil_r | constructor].
  - destruct (create_metadata_object d schema "item") as [m |] eqn:Hd.
    + intros Hrest. destruct (IH _ _ _ Hrest) as (parsed & -> & Hall).
      exists (m :: parsed). split; [by rewrite <- app_assoc | by constructor].
    + unfold_m. cbn. discriminate.
Qed.

(** Every record parses: the loop returns them all, in order. *)
Lemma parse_products_all schema dicts :
  ∀ parsed acc w,
    Forall2 (parses schema) dicts parsed →
    parse_products schema dicts acc w = (Ret (Some (acc ++ parsed)), w).
Proof.
  induction dicts as [| d rest IH]; intros parsed acc w Hall;
    inversion Hall as [| ? m ? parsed' Hd Hrest]; subst; cbn.
  - by rewrite app_nil_r.
  - rewrite Hd, (IH parsed' _ _ Hrest). by rewrite <- app_assoc.
Qed.

Lemma parse_products_frame schema dicts :
  ∀ acc w, same_store w (parse_products schema dicts acc w).2.
Proof.
  induction dicts as [| d rest IH]; intros acc w; cbn.
  - apply same_store_refl.
  - destruct (create_metadata_object d schema "item"); [apply IH |].
    unfold_m. cbn. by repeat split.
Qed.

Lemma read_products_metadata_stored w file schema dicts :
  stored_products w file schema dicts →
  read_products_metadata file w
  = parse_products schema dicts []
      (mkWorld (fs w) (remote w) (net w) (out w ++ [PStr (">> " +:+ schema)])).
Proof.
  intros (kvs & cd & c & pd & Hfile & Hcd & Hc & Hs & Hpd & Hiter).
  unfold read_products_metadata, read_collection_metadata, read_json.
  unfold_m. cbn. rewrite Hfile. cbn. rewrite Hcd, Hc. cbn.
  unfold lookup_node in *. cbn. rewrite Hfile. cbn.
  rewrite Hpd, Hiter, Hs. reflexivity.
Qed.

Lemma read_products_metadata_frame file w :
  same_store w (read_products_metadata file w).2.
Proof.
  unfold read_products_metadata, read_collection_metadata, read_json.
  unfold_m.
  destruct (lookup_node w file) as [[| [j | t]] |] eqn:Hfile; cbn;
    try apply same_store_refl.
  destruct j as [| | | | | kvs]; cbn; try apply same_store_refl.
  destruct (Json.assoc "collection" kvs) as [cd |]; cbn; try apply same_store_refl.
  destruct (PSUP_Collection_init cd) as [c |]; cbn; try by repeat split.
  unfold lookup_node in *. cbn. rewrite Hfile. cbn.
  destruct (Json.assoc "products" kvs) as [pd |]; cbn; try by repeat split.
  destruct (py_iter pd) as [dicts |]; cbn; try by repeat split.
  eapply same_store_trans; [| apply parse_products_frame]. by repeat split.
Qed.

(** A list is returned only from a stored document. *)
Lemma read_products_metadata_some file w products :
  (read_products_metadata file w).1 = Ret (Some products) →
  ∃ schema dicts, stored_products w file schema dicts.
Proof.
  unfold read_products_metadata, read_collection_metadata, read_json.
  unfold_m. unfold stored_products.
  destruct (lookup_node w file) as [[| [j | t]] |] eqn:Hfile; cbn; try discriminate.
  destruct j as [| | | | | kvs]; cbn; try discriminate.
  destruct (Json.assoc "collection" kvs) as [cd |] eqn:Hcd; cbn; try discriminate.
  destruct (PSUP_Collection_init cd) as [c |] eqn:Hc; cbn; try discriminate.
  unfold lookup_node in *. cbn. rewrite Hfile. cbn.
  destruct (Json.assoc "products" kvs) as [pd |] eqn:Hpd; cbn; try discriminate.
  destruct (py_iter pd) as [dicts |] eqn:Hiter; cbn; try discriminate.
  intros _. exists (schema_name c), dicts, kvs, cd, c, pd. done.
Qed.

End ReadProducts.

(** C6: on a stored product list, one record that fails validation
    against the declared schema makes [read_products_metadata] give up
    the whole batch with a bare [return]; and whenever a list is
    returned, it holds the parse of every stored record, in order, never
    a prefix. *)
Theorem read_products_metadata_all_or_nothing `{Schemas}
    (w : world) (file : Path) (schema : string) (dicts : list json) :
  stored_products w file schema dicts →
  (Exists (fails_validation schema) dicts →
   (read_products_metadata file w).1 = Ret None)
  ∧ (∀ products, (read_products_metadata file w).1 = Ret (Some products) →
                 Forall2 (parses schema) dicts products).
Proof.
  intros Hstored. rewrite (read_products_metadata_stored _ _ _ _ Hstored).
  split.
  - intros Hbad. by apply parse_products_fails.
  - intros products Hret.
    destruct (parse_products_complete _ _ _ _ _ Hret) as (parsed & -> & Hall).
    exact Hall.
Qed.

Lemma read_products_metadata_all_or_nothing_witness :
  (read_products_metadata (H := Fixtures.url_schemas) Fixtures.source_file
     (Fixtures.harvested
        [Fixtures.record_of "http://psup.example/data/ORB0018_6.nc";
         JObj [("orbit_number", JNum 18)]] [])).1
  = Ret None.
Proof.
  refine (proj1 (read_products_metadata_all_or_nothing (H := Fixtures.url_schemas)
                   _ Fixtures.source_file "OMEGA_CUBE"
                   [Fixtures.record_of "http://psup.example/data/ORB0018_6.nc";
                    JObj [("orbit_number", JNum 18)]] _) _).
  - unfold stored_products. do 4 eexists.
    repeat split; vm_compute; reflexivity.
  - apply Exists_cons_tl, Exists_cons_hd. eexists. vm_compute. reflexivity.
Defined.

(** ** The download loop *)

Lemma reported_here fname verdict post :
  reported fname verdict (report_lines fname verdict ++ post) = true.
Proof. cbn. by rewrite !String.eqb_refl. Qed.

Lemma reported_later fname verdict pre o :
  reported fname verdict o = true → reported fname verdict (pre ++ o) = true.
Proof.
  intros Ho. induction pre as [| a pre IH]; [done |].
  cbn [app]. destruct (pre ++ o) as [| y rest] eqn:Hpo.
  - discriminate IH.
  - change (reported fname verdict (a :: y :: rest))
      with ((is_line ("Downloading " +:+ fname +:+ " ...") a && is_line verdict y)
            || reported fname verdict (y :: rest)).
    rewrite IH. apply orb_true_r.
Qed.

Section Download.
Context `{Schemas}.

Lemma verdict_same_disk (w w' : world) (file : Path) (overwrite : bool)
    (p : metadata) :
  fs w' = fs w → verdict w' file overwrite p = verdict w file overwrite p.
Proof. intros Hfs. unfold verdict. by rewrite (there_same_disk w w'). Qed.

Lemma reports_same_disk (w w' : world) (file : Path) (overwrite : bool)
    (products : list metadata) :
  fs w' = fs w →
  flat_map (report w' file overwrite) products
  = flat_map (report w file overwrite) products.
Proof.
  intros Hfs. induction products as [| p ps IH]; [done |]. cbn.
  rewrite IH. unfold report. by rewrite (verdict_same_disk w w').
Qed.

Lemma verdict_report_same_disk (w w' : world) (file : Path) (overwrite : bool)
    (p : metadata) :
  fs w' = fs w → report w' file overwrite p = report w file overwrite p.
Proof. intros Hfs. unfold report. by rewrite (verdict_same_disk w w'). Qed.

(** One product, with the data directory in place and a file name the
    operating system does not refuse. *)
Lemma download_one_in_data_dir w file overwrite p :
  there w (data_dir file) = true →
  probe_ok w (local_path file p) = true →
  download_one file overwrite p w
  = (Ret tt, mkWorld (fs w) (remote w) (net w) (out w ++ report w file overwrite p)).
Proof.
  intros Hdir Hok. unfold download_one.
  rewrite (bind_ret _ _ _ _ _ (exists_there w _ Hdir)). cbn [negb].
  rewrite (bind_ret (ret tt) _ w w tt) by done.
  rewrite (bind_ret (print _) _ w _ tt) by reflexivity.
  set (w1 := mkWorld _ _ _ _).
  assert (fs w1 = fs w) as Hfs by done.
  rewrite (bind_ret _ _ _ _ _
             (exists_answer w1 _
                (eq_trans (probe_ok_same_disk w w1 _ Hfs) Hok))).
  rewrite (there_same_disk w w1 _ Hfs).
  unfold report, verdict, report_lines, local_path, print. subst w1.
  destruct (negb _ || overwrite); cbn [fs remote net out];
    by rewrite <- app_assoc.
Qed.

(** One product whose file name the operating system refuses: the
    error of [exists()] leaves the loop body after the first print. *)
Lemma download_one_refused w file overwrite p e :
  there w (data_dir file) = true →
  probe w (local_path file p) = Raise e →
  download_one file overwrite p w
  = (Raise e,
     mkWorld (fs w) (remote w) (net w)
       (out w ++ [PStr ("Downloading " +:+ product_fname (get_download_url p)
                        +:+ " ...")])).
Proof.
  intros Hdir Hno. unfold download_one.
  rewrite (bind_ret _ _ _ _ _ (exists_there w _ Hdir)). cbn [negb].
  rewrite (bind_ret (ret tt) _ w w tt) by done.
  rewrite (bind_ret (print _) _ w _ tt) by reflexivity.
  set (w1 := mkWorld _ _ _ _).
  assert (fs w1 = fs w) as Hfs by done.
  apply bind_raise, exists_refused.
  by rewrite (probe_same_disk w w1 _ Hfs).
Qed.

Lemma download_each_in_data_dir file overwrite products :
  ∀ w, there w (data_dir file) = true →
  Forall (λ p, probe_ok w (local_path file p) = true) products →
  download_each file overwrite products w
  = (Ret tt, mkWorld (fs w) (remote w) (net w)
               (out w ++ flat_map (report w file overwrite) products)).
Proof.
  induction products as [| p rest IH]; intros w Hdir Hok; cbn.
  - rewrite app_nil_r. by destruct w.
  - apply Forall_cons in Hok as [Hp Hrest].
    rewrite (bind_ret _ _ _ _ _ (download_one_in_data_dir w file overwrite p
                                   Hdir Hp)).
    set (w1 := mkWorld _ _ _ _).
    assert (fs w1 = fs w) as Hfs by done.
    rewrite IH.
    + rewrite (reports_same_disk w w1) by done. subst w1.
      cbn [fs remote net out]. by rewrite <- app_assoc.
    + by rewrite (there_same_disk w w1).
    + eapply Forall_impl; [exact Hrest |]. intros q Hq. cbn beta.
      by rewrite (probe_ok_same_disk w w1).
Qed.

Lemma download_each_app file overwrite l1 l2 w :
  download_each file overwrite (l1 ++ l2) w
  = bind (download_each file overwrite l1)
      (λ _, download_each file overwrite l2) w.
Proof.
  revert w. induction l1 as [| p l1 IH]; intros w; [done |].
  cbn [app download_each]. unfold bind.
  destruct (download_one file overwrite p w) as [[[] | e] w1]; [| done].
  rewrite IH. reflexivity.
Qed.

(** With the data directory in place the loop leaves disk, service and
    network as they are and only adds to what is printed, however it
    ends. *)
Lemma download_one_only_prints w file overwrite p :
  there w (data_dir file) = true →
  fs (download_one file overwrite p w).2 = fs w
  ∧ remote (download_one file overwrite p w).2 = remote w
  ∧ net (download_one file overwrite p w).2 = net w
  ∧ ∃ post, out (download_one file overwrite p w).2 = out w ++ post.
Proof.
  intros Hdir.
  destruct (probe w (local_path file p)) as [n | e] eqn:Hprobe.
  - rewrite download_one_in_data_dir
      by (done || (unfold probe_ok; by rewrite Hprobe)).
    cbn. repeat split. by eexists.
  - rewrite (download_one_refused w file overwrite p e) by done.
    cbn. repeat split. by eexists.
Qed.

Lemma download_each_only_prints file overwrite products :
  ∀ w, there w (data_dir file) = true →
  fs (download_each file overwrite products w).2 = fs w
  ∧ remote (download_each file overwrite products w).2 = remote w
  ∧ net (download_each file overwrite products w).2 = net w
  ∧ ∃ post, out (download_each file overwrite products w).2 = out w ++ post.
Proof.
  induction products as [| p rest IH]; intros w Hdir; cbn [download_each].
  - cbn. repeat split. exists []. by rewrite app_nil_r.
  - unfold bind.
    destruct (download_one_only_prints w file overwrite p Hdir)
      as (Hfs & Hr & Hn & post & Ho).
    destruct (download_one file overwrite p w) as [[[] | e] w1];
      cbn [fst snd] in *.
    + destruct (IH w1) as (Hfs' & Hr' & Hn' & post' & Ho').
      { by rewrite (there_same_disk w w1). }
      repeat split; try congruence.
      exists (post ++ post'). by rewrite Ho', Ho, app_assoc.
    + repeat split; try done. by exists post.
Qed.

Lemma download_effects_refl file w : download_effects file w w.
Proof. repeat split. by left. Qed.

Lemma download_effects_trans file w1 w2 w3 :
  download_effects file w1 w2 → download_effects file w2 w3 →
  download_effects file w1 w3.
Proof.
  intros (Hn1 & Hr1 & Hf1) (Hn2 & Hr2 & Hf2).
  repeat split; [congruence | congruence |].
  destruct Hf1 as [Hf1 | Hf1], Hf2 as [Hf2 | Hf2]; rewrite Hf2, Hf1;
    [by left | by right | by right | right; by rewrite insert_insert_eq].
Qed.

Lemma download_effects_same_store file w w' :
  same_store w w' → download_effects file w w'.
Proof. intros (? & ? & ?). repeat split; auto. Qed.

Lemma download_one_effects file overwrite p w :
  download_effects file w (download_one file overwrite p w).2.
Proof.
  unfold download_one.
  remember (data_dir file) as dir eqn:Hdir_eq.
  pose proof (exists_world dir w) as Hw.
  destruct (exists_ dir w) as [[present | e] w0] eqn:Hpresent;
    cbn [snd] in Hw; subst w0.
  2:{ rewrite (bind_raise _ _ _ _ _ Hpresent). apply download_effects_refl. }
  rewrite (bind_ret _ _ _ _ _ Hpresent).
  assert (∀ w1 : world,
            download_effects file w w1 →
            download_effects file w
              (bind (print (PStr ("Downloading "
                                  +:+ product_fname (get_download_url p)
                                  +:+ " ...")))
                 (λ _, bind (exists_ (dir // product_fname (get_download_url p)))
                         (λ there, if negb there || overwrite
                                   then print (PStr "DONE")
                                   else print (PStr "EXISTS"))) w1).2) as Hrest.
  { intros w1 Hw1. rewrite (bind_ret (print _) _ w1 _ tt) by reflexivity.
    set (w2 := mkWorld _ _ _ _).
    assert (download_effects file w w2) as Hw2
      by (destruct Hw1 as (? & ? & ?); by repeat split).
    pose proof (exists_world (dir // product_fname (get_download_url p)) w2)
      as Hw.
    destruct (exists_ (dir // product_fname (get_download_url p)) w2)
      as [[there | e] w3] eqn:Hthere; cbn [snd] in Hw; subst w3.
    - rewrite (bind_ret _ _ _ _ _ Hthere).
      destruct Hw2 as (? & ? & ?).
      destruct (negb there || overwrite); by repeat split.
    - by rewrite (bind_raise _ _ _ _ _ Hthere). }
  destruct present; cbn [negb].
  - rewrite (bind_ret (ret tt) _ w w tt) by done.
    apply Hrest, download_effects_refl.
  - unfold mkdir at 1.
    destruct (lookup_node w dir) eqn:Hnode.
    + by rewrite (bind_raise _ _ w w (FileExistsError dir))
        by (unfold mkdir; by rewrite Hnode); apply download_effects_refl.
    + destruct (is_dir w (parent dir)) eqn:Hparent.
      * rewrite (bind_ret (mkdir dir) _ w (store w dir Dir) tt)
          by (unfold mkdir; by rewrite Hnode, Hparent).
        apply Hrest. repeat split. right. by subst dir.
      * rewrite (bind_raise (mkdir dir) _ w w (FileNotFoundError dir))
          by (unfold mkdir; by rewrite Hnode, Hparent).
        apply download_effects_refl.
Qed.

Lemma download_each_effects file overwrite products :
  ∀ w, download_effects file w (download_each file overwrite products w).2.
Proof.
  induction products as [| p rest IH]; intros w; cbn.
  - apply download_effects_refl.
  - unfold bind. pose proof (download_one_effects file overwrite p w) as Hone.
    destruct (download_one file overwrite p w) as [[[] | e] w1]; cbn in *.
    + eapply download_effects_trans; [exact Hone | apply IH].
    + exact Hone.
Qed.

(** Whatever is stored and whatever is on disk, [download_data_files]
    sends nothing over the network and creates no file: the most it
    does to the disk is to create the data directory. *)
Lemma download_data_files_effects file overwrite w :
  download_effects file w (download_data_files file overwrite w).2.
Proof.
  unfold download_data_files. unfold bind.
  pose proof (read_products_metadata_frame file w) as Hread.
  destruct (read_products_metadata file w) as [[[[| p ps] |] | e] w1]; cbn in *.
  - destruct Hread as (? & ? & ?). repeat split; auto.
  - eapply download_effects_trans;
      [by apply download_effects_same_store |].
    exact (download_each_effects file overwrite
             (firstn MAX_N_PRODUCTS (p :: ps)) w1).
  - destruct Hread as (? & ? & ?). repeat split; auto.
  - by apply download_effects_same_store.
Qed.

Lemma report_in_flat_map w file overwrite products p :
  p ∈ products →
  ∃ pre post, flat_map (report w file overwrite) products
              = pre ++ report w file overwrite p ++ post.
Proof.
  intros Hin. apply list_elem_of_split in Hin as (l1 & l2 & ->).
  exists (flat_map (report w file overwrite) l1),
         (flat_map (report w file overwrite) l2).
  by rewrite flat_map_app.
Qed.

End Download.

(** C4: one product harvested and not yet downloaded.  The run reports
    the download as done, yet nothing was requested from the network and
    the file is not in the data directory afterwards: the call that
    would fetch it is commented out, only the directory is created. *)
Theorem download_data_files_fetches_nothing :
  download_data_files (H := Fixtures.url_schemas) Fixtures.source_file false
    Fixtures.one_product
  = (Ret tt,
     mkWorld (<[of_str "source/data" := Dir]> (fs Fixtures.one_product))
       Fixtures.offline []
       [PStr ">> OMEGA_CUBE"; PStr "Downloading ORB0018_6.nc ..."; PStr "DONE"])
  ∧ lookup_node
      (download_data_files (H := Fixtures.url_schemas) Fixtures.source_file false
         Fixtures.one_product).2
      (Fixtures.data_file "ORB0018_6")
    = None.
Proof.
  split; vm_compute; reflexivity.
Qed.

(** C9, refuted as written: of eleven products whose files all exist,
    the eleventh is beyond the batch of [MAX_N_PRODUCTS] and nothing is
    reported for it. *)
Lemma eleventh_product_not_reported : ¬ every_existing_file_reported.
Proof.
  intros Hclaim.
  destruct (Hclaim Fixtures.url_schemas Fixtures.eleven_products
              Fixtures.source_file
              (List.map Fixtures.data_url Fixtures.eleven)
              (Fixtures.data_url "k")) as [_ Hreported].
  - vm_compute. reflexivity.
  - vm_compute. repeat (first [apply list_elem_of_here | apply list_elem_of_further]).
  - vm_compute. eexists. reflexivity.
  - vm_compute. eexists. reflexivity.
  - vm_compute in Hreported. discriminate Hreported.
Qed.

(** An earlier product can end the loop: [exists()] is called outside
    the [try] of the loop body, and for a file name longer than
    [NAME_MAX] it raises.  Of two products, the file of the second in
    place, the second is then never reported. *)
Example long_name_ends_the_loop :
  download_data_files (H := Fixtures.url_schemas) Fixtures.source_file false
    Cases.long_name_first
  = (Raise (OSError ENAMETOOLONG
              (of_str "source/data" // Cases.long_name)),
     mkWorld (fs Cases.long_name_first) Fixtures.offline []
       [PStr ">> OMEGA_CUBE";
        PStr ("Downloading " +:+ Cases.long_name +:+ " ...")]).
Proof. vm_compute. reflexivity. Qed.

(** C9, amended: for a product among the first [MAX_N_PRODUCTS] of the
    parsed list whose file exists in the data directory, when
    [exists()] has answered for the file of every product before it,
    [download_data_files] with [overwrite] false leaves network and
    disk as they were and prints the EXISTS report of that file; and it
    returns normally when [exists()] answers for every file of the
    batch. *)
Theorem download_data_files_reports_existing `{Schemas}
    (w : world) (file : Path) (products : list metadata) (i : nat) (p : metadata) :
  (read_products_metadata file w).1 = Ret (Some products) →
  products !! i = Some p →
  (i < MAX_N_PRODUCTS)%nat →
  Forall (λ q, probe_ok w (local_path file q) = true) (take i products) →
  there w (data_dir file) = true →
  there w (local_path file p) = true →
  net (download_data_files file false w).2 = net w
  ∧ fs (download_data_files file false w).2 = fs w
  ∧ reported (product_fname (get_download_url p)) "EXISTS"
      (out (download_data_files file false w).2) = true
  ∧ (Forall (λ q, probe_ok w (local_path file q) = true)
       (take MAX_N_PRODUCTS products) →
     (download_data_files file false w).1 = Ret tt).
Proof.
  intros Hread Hi Hlt Hbefore Hdir Hfile.
  pose proof (read_products_metadata_frame file w) as Hframe.
  unfold download_data_files, bind.
  destruct (read_products_metadata file w) as [r w1]. cbn [fst snd] in *. subst r.
  destruct Hframe as (Hfs & Hremote & Hnet).
  assert (there w1 (data_dir file) = true) as Hdir1
    by (by rewrite (there_same_disk w w1)).
  destruct products as [| p0 ps]; [by rewrite lookup_nil in Hi |].
  set (products := p0 :: ps) in *.
  set (batch := firstn MAX_N_PRODUCTS products).
  destruct (download_each_only_prints file false batch w1 Hdir1)
    as (Hfs' & _ & Hnet' & _).
  split; [congruence |]. split; [congruence |]. split.
  - (* the products up to [p] are reported whatever comes after *)
    assert (batch = (take i products ++ [p]) ++ drop (S i) batch) as ->.
    { rewrite <- (take_S_r products i p Hi).
      rewrite <- (take_drop (S i) batch) at 1. f_equal.
      subst batch. rewrite take_take. f_equal. lia. }
    rewrite download_each_app. unfold bind.
    rewrite download_each_in_data_dir.
    + set (w2 := mkWorld _ _ _ _).
      destruct (download_each_only_prints file false (drop (S i) batch) w2)
        as (_ & _ & _ & post & ->).
      { by rewrite (there_same_disk w1 w2). }
      subst w2. cbn [out]. rewrite flat_map_app. cbn [flat_map].
      rewrite app_nil_r, <- !app_assoc.
      apply reported_later, reported_later.
      unfold report, verdict. rewrite (there_same_disk w w1), Hfile by done.
      apply reported_here.
    + done.
    + apply Forall_app. split.
      * eapply Forall_impl; [exact Hbefore |]. intros q Hq. cbn beta.
        by rewrite (probe_ok_same_disk w w1).
      * constructor; [| constructor].
        rewrite (probe_ok_same_disk w w1) by done.
        unfold probe_ok. unfold there in Hfile.
        by destruct (probe w (local_path file p)).
  - intros Hall. rewrite download_each_in_data_dir; [done | done |].
    eapply Forall_impl; [exact Hall |]. intros q Hq. cbn beta.
    by rewrite (probe_ok_same_disk w w1).
Qed.

Lemma download_data_files_reports_existing_witness :
  reported "c.nc" "EXISTS"
    (out (download_data_files (H := Fixtures.url_schemas) Fixtures.source_file
            false Fixtures.eleven_products).2) = true.
Proof.
  refine (proj1 (proj2 (proj2
    (download_data_files_reports_existing (H := Fixtures.url_schemas)
       Fixtures.eleven_products Fixtures.source_file
       (List.map Fixtures.data_url Fixtures.eleven) 2 (Fixtures.data_url "c")
       _ _ _ _ _ _)))).
  - vm_compute. reflexivity.
  - reflexivity.
  - unfold MAX_N_PRODUCTS. lia.
  - repeat constructor.
  - vm_compute. reflexivity.
  - vm_compute. reflexivity.
Defined.

(** * Properties of the OMEGA cube transformer *)

Import Float OmegaCube.

(** C3, refuted as written: for a record of object type item the
    accessor returns the empty mapping; it does not raise. *)
Lemma processing_fields_of_item_not_rejected : ¬ item_is_rejected.
Proof.
  intros Hclaim.
  pose (L := Fixtures.cube_tools "item" Fixtures.broken_extractor).
  specialize (Hclaim L (Fixtures.cube L (λ z, of_Z z) tt) (Some Fixtures.level_2) eq_refl).
  vm_compute in Hclaim. discriminate Hclaim.
Qed.

(** C3, amended: [get_processing_fields] returns the empty mapping for
    object type item; for object type collection and a definition it
    returns the mapping, not empty, that holds the processing level of
    the definition; and it raises the invalid-object-type error for every
    other object type. *)
Theorem get_processing_fields_by_object_type `{Labtools}
    (metadata : OMEGA_Cube_Record) (definition : option Definition_) :
  (get_object_type metadata = "item" →
   get_processing_fields metadata definition = Ret ∅)
  ∧ (get_object_type metadata = "collection" →
     ∀ d, definition = Some d →
          ∃ fields, get_processing_fields metadata definition = Ret fields
                    ∧ fields ≠ ∅
                    ∧ fields !! "processing:level" = Some (processing_level d))
  ∧ (get_object_type metadata ≠ "item" →
     get_object_type metadata ≠ "collection" →
     get_processing_fields metadata definition
     = Raise (InvalidModelObjectTypeError (get_object_type metadata))).
Proof.
  unfold get_processing_fields. repeat split.
  - intros ->. reflexivity.
  - intros -> d ->. cbn. eexists. split; [reflexivity |]. split.
    + apply insert_non_empty.
    + apply lookup_singleton_eq.
  - intros Hitem Hcollection.
    apply String.eqb_neq in Hitem, Hcollection.
    by rewrite Hitem, Hcollection.
Qed.

Lemma get_processing_fields_by_object_type_witness :
  ∃ fields,
    get_processing_fields
      (Fixtures.cube (Fixtures.cube_tools "collection" Fixtures.broken_extractor)
         (λ z, of_Z z) tt)
      (Some Fixtures.level_2) = Ret fields
    ∧ fields ≠ ∅
    ∧ fields !! "processing:level" = Some (JStr "L2").
Proof.
  exact (proj1 (proj2
    (get_processing_fields_by_object_type
       (H := Fixtures.cube_tools "collection" Fixtures.broken_extractor)
       (Fixtures.cube (Fixtures.cube_tools "collection" Fixtures.broken_extractor)
          (λ z, of_Z z) tt)
       (Some Fixtures.level_2)))
    eq_refl Fixtures.level_2 eq_refl).
Defined.

(** C8, refuted as written, in both parts.  The existence check of the
    NetCDF file is made outside the [try]: for a record whose file name
    is longer than [NAME_MAX], with the data directory in place,
    [exists()] raises and so does [get_geometry].  And an empty
    [data_path] is supplied but false: nothing is probed and nothing is
    printed. *)
Lemma get_geometry_raises_on_long_name :
  ¬ never_raises_as_claimed ∧ ¬ missing_file_logged_as_claimed.
Proof.
  split.
  - intros Hclaim.
    destruct (Hclaim (Fixtures.cube_tools "item" Fixtures.broken_extractor)
                (Cases.long_cube
                   (Fixtures.cube_tools "item" Fixtures.broken_extractor)
                   (λ z, of_Z z) tt)
                None (Some "source") Cases.long_name_first) as [geometry Hret].
    vm_compute in Hret. discriminate Hret.
  - intros Hclaim.
    destruct (Hclaim (Fixtures.cube_tools "item" Fixtures.broken_extractor)
                (Fixtures.cube
                   (Fixtures.cube_tools "item" Fixtures.broken_extractor)
                   (λ z, of_Z z) tt)
                None "" Fixtures.one_product) as [warning Hret].
    + vm_compute. reflexivity.
    + vm_compute in Hret. discriminate Hret.
Qed.

(** C8, amended: when [exists()] answers for the NetCDF file of the
    record, [get_geometry] does not raise.  With a [data_path] that is
    not empty and no file at that place, it prints that the file was
    not found and returns [None]; with the file there and an extractor
    that raises, it prints the exception and that the footprint could
    not be extracted, and returns [None]; with no [data_path], or an
    empty one, it returns [None] and prints nothing. *)
Theorem get_geometry_absorbs_failures `{Labtools}
    (metadata : OMEGA_Cube_Record) (definition : option Definition_)
    (data_path : option string) (w : world) :
  (∀ dir, truthy data_path = Some dir →
          probe_ok w (netcdf_file_of metadata dir) = true) →
  (∃ geometry, (get_geometry metadata definition data_path w).1 = Ret geometry)
  ∧ (truthy data_path = None →
     get_geometry metadata definition data_path w = (Ret None, w))
  ∧ (∀ dir, truthy data_path = Some dir →
            there w (netcdf_file_of metadata dir) = false →
            get_geometry metadata definition data_path w
            = (Ret None,
               mkWorld (fs w) (remote w) (net w)
                 (out w ++ [file_not_found (netcdf_file_of metadata dir)])))
  ∧ (∀ dir e w1, truthy data_path = Some dir →
                 there w (netcdf_file_of metadata dir) = true →
                 get_netcdf_footprint (netcdf_file_of metadata dir) w = (Raise e, w1) →
                 get_geometry metadata definition data_path w
                 = (Ret None,
                    mkWorld (fs w1) (remote w1) (net w1)
                      (out w1 ++ [PExn e; footprint_failed (netcdf_file_of metadata dir)]))).
Proof.
  intros Hok. unfold get_geometry.
  destruct (truthy data_path) as [dir |]; [| by repeat split; [eexists | ..]].
  rewrite (bind_ret _ _ _ _ _ (exists_answer w _ (Hok dir eq_refl))).
  split; [| split; [done | split]].
  - destruct (there w (netcdf_file_of metadata dir)); [| by eexists].
    unfold_m. destruct (get_netcdf_footprint _ w) as [[g | e] w1]; by eexists.
  - by intros ? [= <-] ->.
  - intros ? e w1 [= <-] -> Hfail. unfold_m. rewrite Hfail.
    cbn [fs remote net out]. by rewrite <- app_assoc.
Qed.

Lemma get_geometry_absorbs_failures_witness :
  get_geometry
    (Fixtures.cube (Fixtures.cube_tools "item" Fixtures.broken_extractor)
       (λ z, of_Z z) tt)
    None (Some "source") Fixtures.one_product
  = (Ret None,
     mkWorld (fs Fixtures.one_product) Fixtures.offline []
       [PStr "Source data file not found: PosixPath('source/data/ORB0018_6.nc')"]).
Proof.
  refine (proj1 (proj2 (proj2
    (get_geometry_absorbs_failures
       (H := Fixtures.cube_tools "item" Fixtures.broken_extractor)
       (Fixtures.cube (Fixtures.cube_tools "item" Fixtures.broken_extractor)
          (λ z, of_Z z) tt)
       None (Some "source") Fixtures.one_product _))) "source" _ _).
  - intros dir [= <-]. vm_compute. reflexivity.
  - reflexivity.
  - vm_compute. reflexivity.
Defined.

(** C10: when [float()] accepts the four coordinates of the record,
    [get_bbox] returns four numbers of which the second and the fourth
    are the minimum and the maximum latitude as [float()] gives them, and
    the first and the third are the normalised longitudes. *)
Theorem get_bbox_latitudes_unchanged `{Labtools}
    (metadata : OMEGA_Cube_Record) (definition : option Definition_)
    (west south east north : float) :
  py_float (westernmost_longitude metadata) = Ret west →
  py_float (minimum_latitude metadata) = Ret south →
  py_float (easternmost_longitude metadata) = Ret east →
  py_float (maximum_latitude metadata) = Ret north →
  get_bbox metadata definition
  = Ret [normalize_longitude west; south; normalize_longitude east; north].
Proof.
  intros Hw Hs He Hn. unfold get_bbox. by rewrite Hw, Hs, He, Hn.
Qed.

Lemma get_bbox_latitudes_unchanged_witness :
  get_bbox
    (Fixtures.cube (Fixtures.cube_tools "item" Fixtures.broken_extractor)
       (λ z, of_Z z) tt) None
  = Ret [normalize_longitude (of_Z 170); of_Z 85;
         normalize_longitude (of_Z 190); of_Z 95].
Proof.
  apply (get_bbox_latitudes_unchanged
           (H := Fixtures.cube_tools "item" Fixtures.broken_extractor));
    reflexivity.
Defined.

(** * Properties of the longitude normalisation *)

Lemma py_mod_c360 (v : float) : py_mod v c360 = Ret (rem v c360).
Proof. reflexivity. Qed.

(** The embedding of the float arithmetic computes what CPython
    computes. *)
Example normalize_longitude_as_cpython :
  forallb (λ '(lon, n), valid lon && same_bits (normalize_longitude lon) n)
          cpython_samples = true.
Proof. by vm_compute. Qed.

Example normalize_190 : normalize_longitude (of_Z 190) = of_Z (-170).
Proof. by vm_compute. Qed.

Example normalize_minus_540 : normalize_longitude (of_Z (-540)) = SFopp c180.
Proof. by vm_compute. Qed.

(** ** Rounding in the specification of floating-point arithmetic

    [binary_round] shifts a mantissa bit by bit and rounds on the two
    bits it keeps of what was shifted out.  On a mantissa with an
    exponent of at least -1074 this is [rne] on the scaled integer. *)

Lemma fexp_eq (x : Z) : fexp prec emax x = Z.max (x - 53) (-1074).
Proof. reflexivity. Qed.

Lemma digits2_pos_log2 (p : positive) :
  Zpos (digits2_pos p) = Z.log2 (Zpos p) + 1.
Proof.
  induction p as [p IH | p IH |]; cbn [digits2_pos]; try reflexivity.
  - rewrite Pos2Z.inj_succ, IH.
    change (Zpos p~1) with (2 * Zpos p + 1).
    rewrite Z.log2_succ_double by lia. lia.
  - rewrite Pos2Z.inj_succ, IH.
    change (Zpos p~0) with (2 * Zpos p).
    rewrite Z.log2_double by lia. lia.
Qed.

Lemma digits_bounds (z : Z) :
  0 < z → 2 ^ (digits z - 1) ≤ z < 2 ^ digits z.
Proof.
  intros Hz. unfold digits.
  destruct (Z.log2_spec z Hz) as [Hlo Hhi].
  replace (Z.log2 z + 1 - 1) with (Z.log2 z) by lia.
  replace (Z.log2 z + 1) with (Z.succ (Z.log2 z)) by lia. lia.
Qed.

Lemma digits_unique (z d : Z) :
  2 ^ (d - 1) ≤ z < 2 ^ d → 0 < d → digits z = d.
Proof.
  intros [Hlo Hhi] Hd. unfold digits.
  rewrite (Z.log2_unique z (d - 1)); [lia | lia |].
  replace (Z.succ (d - 1)) with d by lia. lia.
Qed.

Lemma digits_pos (z : Z) : 0 < z → 0 < digits z.
Proof. intros Hz. unfold digits. pose proof (Z.log2_nonneg z). lia. Qed.

Lemma digits_mul_pow2 (z k : Z) :
  0 < z → 0 ≤ k → digits (z * 2 ^ k) = digits z + k.
Proof.
  intros Hz Hk. unfold digits.
  rewrite <- Z.shiftl_mul_pow2 by lia.
  rewrite Z.log2_shiftl by lia. lia.
Qed.

Lemma iter_xO (p d : positive) :
  Zpos (Pos.iter xO p d) = Zpos p * 2 ^ Zpos d.
Proof.
  induction d as [| d IH] using Pos.peano_ind.
  - cbn. lia.
  - rewrite Pos.iter_succ, Pos2Z.inj_xO, IH, Pos2Z.inj_succ.
    rewrite Z.pow_succ_r by lia. lia.
Qed.

Lemma iter_pos_nat {A} (f : A → A) (n : positive) (x : A) :
  SpecFloat.iter_pos f n x = Nat.iter (Pos.to_nat n) f x.
Proof.
  revert x. induction n as [n IH | n IH |]; intros x; cbn [SpecFloat.iter_pos].
  - rewrite !IH, Pos2Nat.inj_xI.
    replace (S (2 * Pos.to_nat n)) with (Pos.to_nat n + (Pos.to_nat n + 1))%nat by lia.
    by rewrite !Nat.iter_add.
  - rewrite !IH, Pos2Nat.inj_xO.
    replace (2 * Pos.to_nat n)%nat with (Pos.to_nat n + Pos.to_nat n)%nat by lia.
    by rewrite Nat.iter_add.
  - reflexivity.
Qed.

Lemma shr_1_nonneg (q : Z) (r s : bool) :
  0 ≤ q →
  shr_1 (Build_shr_record q r s) = Build_shr_record (q / 2) (Z.odd q) (r || s).
Proof.
  intros Hq. rewrite <- Z.div2_div.
  destruct q as [| [p | p |] | p]; try reflexivity. lia.
Qed.

Lemma mod_pow2_succ (m k : Z) :
  0 ≤ k →
  m mod 2 ^ (k + 1) = m mod 2 ^ k + 2 ^ k * Z.b2z (Z.testbit m k).
Proof.
  intros Hk. rewrite Z.pow_add_r, Z.pow_1_r by lia.
  rewrite Z.rem_mul_r by lia. by rewrite Z.testbit_spec'.
Qed.

Lemma shr_1_shifted (m k : Z) :
  0 ≤ m → 1 ≤ k → shr_1 (shifted m k) = shifted m (k + 1).
Proof.
  intros Hm Hk. unfold shifted.
  rewrite shr_1_nonneg by (apply Z.div_pos; lia).
  replace (k + 1 - 1) with k by lia.
  f_equal.
  - rewrite Z.div_div by lia. by rewrite Z.pow_add_r, Z.pow_1_r by lia.
  - rewrite <- Z.bit0_odd, Z.div_pow2_bits by lia. f_equal.
  - pose proof (mod_pow2_succ m (k - 1) ltac:(lia)) as Hsplit.
    replace (k - 1 + 1) with k in Hsplit by lia.
    pose proof (Z.mod_pos_bound m (2 ^ (k - 1)) ltac:(lia)) as Hr.
    assert (0 < 2 ^ (k - 1)) as Hp by lia.
    destruct (Z.testbit m (k - 1)); cbn [Z.b2z orb] in *.
    + symmetry. apply negb_true_iff, Z.eqb_neq. lia.
    + f_equal. destruct (Z.eqb_spec (m mod 2 ^ (k - 1)) 0) as [H0 | H0];
        symmetry; [apply Z.eqb_eq | apply Z.eqb_neq]; lia.
Qed.

Lemma iter_shr_1 (m : Z) (k : nat) :
  0 ≤ m → (1 ≤ k)%nat →
  Nat.iter k shr_1 (Build_shr_record m false false) = shifted m (Z.of_nat k).
Proof.
  intros Hm Hk. induction k as [| k IH]; [lia |].
  destruct k as [| k].
  - cbn [Nat.iter]. rewrite shr_1_nonneg by done. unfold shifted.
    change (Z.of_nat 1) with 1. change (1 - 1) with 0.
    rewrite Z.pow_1_r, Z.pow_0_r, Z.mod_1_r, Z.bit0_odd. reflexivity.
  - rewrite Nat.iter_succ, IH by lia.
    rewrite shr_1_shifted by lia. f_equal. lia.
Qed.

Lemma round_shifted (m k : Z) :
  0 ≤ m → 1 ≤ k →
  round_nearest_even (shr_m (shifted m k)) (loc_of_shr_record (shifted m k))
  = nearest_even (m / 2 ^ k) (m mod 2 ^ k) k.
Proof.
  intros Hm Hk. unfold shifted, nearest_even. cbn [shr_m loc_of_shr_record].
  pose proof (mod_pow2_succ m (k - 1) ltac:(lia)) as Hsplit.
  replace (k - 1 + 1) with k in Hsplit by lia.
  pose proof (Z.mod_pos_bound m (2 ^ (k - 1)) ltac:(lia)) as Hr.
  assert (2 ^ k = 2 * 2 ^ (k - 1)) as Hpow.
  { rewrite <- Z.pow_succ_r by lia. f_equal. lia. }
  destruct (Z.testbit m (k - 1)); cbn [Z.b2z] in Hsplit;
    destruct (Z.eqb_spec (m mod 2 ^ (k - 1)) 0) as [H0 | H0]; cbn [negb].
  - replace (2 * (m mod 2 ^ k) ?= 2 ^ k) with Eq; [done |].
    symmetry. apply Z.compare_eq_iff. lia.
  - replace (2 * (m mod 2 ^ k) ?= 2 ^ k) with Gt; [done |].
    symmetry. apply Z.compare_gt_iff. lia.
  - replace (2 * (m mod 2 ^ k) ?= 2 ^ k) with Lt; [done |].
    symmetry. apply Z.compare_lt_iff. lia.
  - replace (2 * (m mod 2 ^ k) ?= 2 ^ k) with Lt; [done |].
    symmetry. apply Z.compare_lt_iff. lia.
Qed.

Lemma Zdigits2_digits (m : Z) : 0 < m → Zdigits2 m = digits m.
Proof.
  intros Hm. destruct m as [| p | p]; try lia.
  cbn [Zdigits2]. apply digits2_pos_log2.
Qed.

Lemma shr_fexp_noshift (m e : Z) :
  0 < m → fexp prec emax (digits m + e) = e →
  shr_fexp prec emax m e loc_Exact = (Build_shr_record m false false, e).
Proof.
  intros Hm He. unfold shr_fexp. rewrite Zdigits2_digits, He by done.
  by rewrite Z.sub_diag.
Qed.

Lemma shr_fexp_shift (m e k : Z) :
  0 < m → 1 ≤ k → fexp prec emax (digits m + e) = e + k →
  shr_fexp prec emax m e loc_Exact = (shifted m k, e + k).
Proof.
  intros Hm Hk He. unfold shr_fexp. rewrite Zdigits2_digits, He by done.
  replace (e + k - e) with k by lia.
  destruct k as [| p | p]; try lia.
  cbn [shr shr_record_of_loc]. f_equal.
  rewrite iter_pos_nat, iter_shr_1 by lia.
  by rewrite positive_nat_Z.
Qed.

Lemma nearest_even_bounds (q r k : Z) :
  q ≤ nearest_even q r k ≤ q + 1.
Proof.
  unfold nearest_even. destruct (2 * r ?= 2 ^ k); [destruct (Z.even q) | |]; lia.
Qed.

Lemma nearest_even_scale (q r k a : Z) :
  0 ≤ a → 0 ≤ k →
  nearest_even q (r * 2 ^ a) (k + a) = nearest_even q r k.
Proof.
  intros Ha Hk. unfold nearest_even.
  rewrite Z.pow_add_r, Z.mul_assoc by lia.
  rewrite <- Zmult_compare_compat_r by lia. reflexivity.
Qed.

Lemma nearest_even_exact (q k : Z) : 0 ≤ k → nearest_even q 0 k = q.
Proof.
  intros Hk. unfold nearest_even.
  replace (2 * 0 ?= 2 ^ k) with Lt; [done |].
  symmetry. apply Z.compare_lt_iff. lia.
Qed.

Lemma Z2F_canonical (s : bool) (m a : Z) :
  0 < m → 0 ≤ a → Z.max (digits m + a - prec) 0 = a →
  Z2F s (m * 2 ^ a) = finite_or_inf s m (a - bias).
Proof.
  intros Hm Ha Hcanon.
  assert (0 < m * 2 ^ a) as Hv by lia.
  unfold Z2F. destruct (m * 2 ^ a) as [| v | v] eqn:Hmv; try lia.
  rewrite <- Hmv. unfold shift_of.
  rewrite digits_mul_pow2, Hcanon by lia.
  rewrite Z.div_mul by lia. reflexivity.
Qed.

(** Rounding a mantissa that carries no more precision than its
    exponent allows. *)
Lemma binary_round_aux_rne (s : bool) (mz : positive) (ez : Z) :
  - bias ≤ ez →
  ez ≤ fexp prec emax (digits (Zpos mz) + ez) →
  binary_round_aux prec emax s (Zpos mz) ez loc_Exact
  = Z2F s (rne (Zpos mz * 2 ^ (ez + bias))).
Proof.
  intros Hez Hcanon.
  set (m := Zpos mz) in *. assert (0 < m) as Hm by (subst m; lia).
  pose proof (digits_bounds m Hm) as Hd. pose proof (digits_pos m Hm) as Hdpos.
  set (a := ez + bias). assert (0 ≤ a) as Ha by (subst a; unfold bias in *; lia).
  assert (shift_of (m * 2 ^ a) = fexp prec emax (digits m + ez) + bias) as Hshift.
  { unfold shift_of. rewrite digits_mul_pow2, fexp_eq by lia.
    subst a. unfold prec, bias. lia. }
  rewrite fexp_eq in Hcanon.
  destruct (Z.eq_dec (fexp prec emax (digits m + ez)) ez) as [Heq | Hne].
  - (* no bit is dropped *)
    unfold binary_round_aux.
    rewrite shr_fexp_noshift by done. cbn [shr_m loc_of_shr_record round_nearest_even].
    rewrite shr_fexp_noshift by done. cbn [shr_m].
    unfold rne. rewrite Hshift, Heq. fold a.
    rewrite Z.div_mul, Z.mod_mul, nearest_even_exact by lia.
    rewrite Z2F_canonical; try lia.
    + unfold finite_or_inf. subst a m. replace (ez + bias - bias) with ez by lia.
      reflexivity.
    + rewrite fexp_eq in Heq. subst a. unfold prec, bias. lia.
  - (* [k] bits are dropped and the mantissa has 53 digits *)
    set (k := digits m - prec).
    assert (1 ≤ k) as Hk by (rewrite fexp_eq in Hne; subst k; unfold prec, bias in *; lia).
    assert (fexp prec emax (digits m + ez) = ez + k) as HE
      by (rewrite fexp_eq in *; subst k; unfold prec, bias in *; lia).
    set (q := m / 2 ^ k).
    assert (2 ^ 52 ≤ q < 2 ^ 53) as Hq.
    { subst q. replace (digits m - 1) with (52 + k) in Hd by (subst k; unfold prec; lia).
      replace (digits m) with (53 + k) in Hd by (subst k; unfold prec; lia).
      rewrite !Z.pow_add_r in Hd by lia. split.
      - apply Z.div_le_lower_bound; lia.
      - apply Z.div_lt_upper_bound; lia. }
    unfold binary_round_aux.
    rewrite (shr_fexp_shift m ez k) by done. rewrite round_shifted by lia.
    fold q.
    unfold rne. rewrite Hshift, HE.
    replace (ez + k + bias) with (k + a) by (subst a; lia).
    assert (m * 2 ^ a / 2 ^ (k + a) = q) as ->.
    { rewrite Z.pow_add_r by lia. rewrite Z.div_mul_cancel_r by lia. done. }
    assert ((m * 2 ^ a) mod 2 ^ (k + a) = (m mod 2 ^ k) * 2 ^ a) as ->.
    { rewrite Z.pow_add_r by lia. rewrite Z.mul_mod_distr_r by lia. done. }
    rewrite nearest_even_scale by lia.
    pose proof (nearest_even_bounds q (m mod 2 ^ k) k) as Hq'.
    set (q' := nearest_even q (m mod 2 ^ k) k) in *.
    destruct (Z.eq_dec q' (2 ^ 53)) as [Hcarry | Hnocarry].
    + (* the rounded mantissa has 54 digits *)
      rewrite Hcarry.
      rewrite (shr_fexp_shift (2 ^ 53) (ez + k) 1); [| lia | lia |].
      2:{ rewrite fexp_eq. change (digits (2 ^ 53)) with 54. unfold bias in *. lia. }
      replace (2 ^ 53 * 2 ^ (k + a)) with (2 ^ 52 * 2 ^ (k + a + 1))
        by (rewrite (Z.pow_add_r 2 (k + a) 1) by lia; lia).
      rewrite Z2F_canonical; [| lia | lia |].
      2:{ change (digits (2 ^ 52)) with 53. unfold prec. lia. }
      unfold finite_or_inf. subst a.
      replace (k + (ez + bias) + 1 - bias) with (ez + k + 1) by lia.
      reflexivity.
    + assert (2 ^ 52 ≤ q' < 2 ^ 53) as Hq'' by lia.
      assert (digits q' = 53) as Hdq by (apply digits_unique; lia).
      rewrite shr_fexp_noshift; [| lia |].
      2:{ rewrite fexp_eq, Hdq. unfold bias in *. lia. }
      cbn [shr_m].
      rewrite Z2F_canonical; [| lia | lia |].
      2:{ rewrite Hdq. unfold prec. lia. }
      unfold finite_or_inf. subst a.
      replace (k + (ez + bias) - bias) with (ez + k) by lia.
      destruct q' as [| p | p]; try lia. reflexivity.
Qed.

(** ** The float operations on scaled integers *)

Lemma fexp_ge (x : Z) : - bias ≤ fexp prec emax x.
Proof. rewrite fexp_eq. unfold bias. lia. Qed.

Lemma binary_round_rne (s : bool) (p : positive) (e : Z) :
  - bias ≤ e →
  binary_round prec emax s p e = Z2F s (rne (Zpos p * 2 ^ (e + bias))).
Proof.
  intros He. unfold binary_round, shl_align.
  rewrite digits2_pos_log2. fold (digits (Zpos p)).
  remember (fexp prec emax (digits (Zpos p) + e)) as E eqn:HE.
  pose proof (fexp_ge (digits (Zpos p) + e)) as Hge. rewrite <- HE in Hge.
  destruct (E - e) as [| d | d] eqn:Hd.
  - apply binary_round_aux_rne; [done | rewrite <- HE; lia].
  - apply binary_round_aux_rne; [done | rewrite <- HE; lia].
  - assert (e = E + Zpos d) as Hed by lia.
    rewrite binary_round_aux_rne; [| done |].
    + rewrite iter_xO. f_equal. f_equal.
      rewrite <- Z.mul_assoc, <- Z.pow_add_r by (unfold bias in *; lia).
      f_equal. f_equal. lia.
    + rewrite iter_xO, digits_mul_pow2 by lia.
      replace (digits (Zpos p) + Zpos d + E) with (digits (Zpos p) + e) by lia.
      rewrite <- HE. lia.
Qed.

Lemma binary_normalize_scaled (m e : Z) :
  - bias ≤ e →
  binary_normalize prec emax m e false = of_scaled (m * 2 ^ (e + bias)).
Proof.
  intros He. assert (0 < 2 ^ (e + bias)) as Hp by (unfold bias in *; lia).
  destruct m as [| p | p]; cbn [binary_normalize].
  - reflexivity.
  - rewrite binary_round_rne by done.
    destruct (Zpos p * 2 ^ (e + bias)) eqn:Hv; try lia. reflexivity.
  - rewrite binary_round_rne by done.
    destruct (Zneg p * 2 ^ (e + bias)) as [| v | v] eqn:Hv; try lia.
    cbn [of_scaled]. f_equal. f_equal. lia.
Qed.

Lemma bounded_spec (m : positive) (e : Z) :
  bounded prec emax m e = true ↔
  Z.max (digits (Zpos m) + e - 53) (- 1074) = e ∧ e ≤ 971.
Proof.
  unfold bounded, canonical_mantissa. rewrite andb_true_iff, Z.eqb_eq, Z.leb_le.
  rewrite digits2_pos_log2. fold (digits (Zpos m)). rewrite fexp_eq.
  reflexivity.
Qed.

Lemma shl_align_fst (m : positive) (e e' : Z) :
  e' ≤ e → Zpos (fst (shl_align m e e')) = Zpos m * 2 ^ (e - e').
Proof.
  intros Hle. unfold shl_align.
  destruct (e' - e) as [| d | d] eqn:Hd; cbn [fst].
  - replace (e - e') with 0 by lia. lia.
  - lia.
  - rewrite iter_xO. f_equal. f_equal. lia.
Qed.

Lemma aligned_scaled (s : bool) (m : positive) (e e' : Z) :
  - bias ≤ e' → e' ≤ e →
  cond_Zopp s (Zpos (fst (shl_align m e e'))) * 2 ^ (e' + bias)
  = scaled (S754_finite s m e).
Proof.
  intros Hb Hle. rewrite shl_align_fst by done. cbn [scaled].
  replace (e + bias) with (e - e' + (e' + bias)) by lia.
  rewrite (Z.pow_add_r 2 (e - e') (e' + bias)) by (unfold bias in *; lia).
  destruct s; cbn [cond_Zopp]; ring.
Qed.

(** The sum of two floats is the rounded sum of their values. *)
Lemma add_proper (x y : float) :
  proper x → proper y → add x y = of_scaled (scaled x + scaled y).
Proof.
  destruct x as [| | | sx mx ex], y as [| | | sy my ey]; try done.
  intros [Hx _]%bounded_spec [Hy _]%bounded_spec.
  unfold add. cbn [SFadd].
  rewrite binary_normalize_scaled by (unfold bias; lia).
  rewrite Z.mul_add_distr_r.
  rewrite !aligned_scaled by (unfold bias; lia). reflexivity.
Qed.

(** The difference of two floats is the rounded difference of their
    values. *)
Lemma sub_proper (x y : float) :
  proper x → proper y → sub x y = of_scaled (scaled x - scaled y).
Proof.
  destruct x as [| | | sx mx ex], y as [| | | sy my ey]; try done.
  intros [Hx _]%bounded_spec [Hy _]%bounded_spec.
  unfold sub. cbn [SFsub].
  rewrite binary_normalize_scaled by (unfold bias; lia).
  rewrite Z.mul_sub_distr_r.
  rewrite !aligned_scaled by (unfold bias; lia). reflexivity.
Qed.

(** ** Rounding of integers *)

Lemma digits_le (a b : Z) : 0 < a → a ≤ b → digits a ≤ digits b.
Proof. intros Ha Hab. unfold digits. pose proof (Z.log2_le_mono a b Hab). lia. Qed.

Lemma digits_lt_pow2 (z d : Z) : 0 < z → 0 ≤ d → z < 2 ^ d → digits z ≤ d.
Proof.
  intros Hz Hd Hlt. destruct (digits_bounds z Hz) as [Hlo _].
  destruct (Z.le_gt_cases (digits z) d) as [|Hgt]; [done |].
  assert (2 ^ d ≤ 2 ^ (digits z - 1)) by (apply Z.pow_le_mono_r; lia). lia.
Qed.

Lemma digits_ge_pow2 (z d : Z) : 0 ≤ d → 2 ^ d ≤ z → d + 1 ≤ digits z.
Proof.
  intros Hd Hle. assert (0 < z) as Hz by lia.
  destruct (digits_bounds z Hz) as [_ Hhi].
  destruct (Z.le_gt_cases (d + 1) (digits z)) as [|Hgt]; [done |].
  assert (2 ^ digits z ≤ 2 ^ d) by (apply Z.pow_le_mono_r; lia). lia.
Qed.

Lemma canonical_shift (m a : Z) :
  0 < m → 0 ≤ a → Z.max (digits m + a - prec) 0 = a →
  shift_of (m * 2 ^ a) = a.
Proof.
  intros Hm Ha Hc. unfold shift_of. by rewrite digits_mul_pow2.
Qed.

(** Rounding does not move a number with at most 53 digits before its
    trailing zeros. *)
Lemma rne_representable (m a : Z) :
  0 < m < 2 ^ 53 → 0 ≤ a → rne (m * 2 ^ a) = m * 2 ^ a.
Proof.
  intros Hm Ha. unfold rne.
  assert (digits m ≤ 53) as Hd by (apply digits_lt_pow2; lia).
  set (k := shift_of (m * 2 ^ a)).
  assert (0 ≤ k ≤ a) as Hk.
  { subst k. unfold shift_of. rewrite digits_mul_pow2 by lia. unfold prec. lia. }
  replace (m * 2 ^ a) with (m * 2 ^ (a - k) * 2 ^ k).
  2:{ rewrite <- Z.mul_assoc, <- Z.pow_add_r by lia. do 2 f_equal. lia. }
  rewrite Z.div_mul, Z.mod_mul by lia.
  by rewrite nearest_even_exact by lia.
Qed.

Lemma rne_canonical_eq (z : Z) : canonical z → rne z = z.
Proof.
  intros (m & a & -> & Hm & Ha & Hc). apply rne_representable; [| done].
  split; [done |].
  destruct (digits_bounds m Hm) as [_ Hhi].
  assert (digits m ≤ 53) by (unfold prec in *; lia).
  assert (2 ^ digits m ≤ 2 ^ 53) by (apply Z.pow_le_mono_r; lia). lia.
Qed.

(** The decomposition of a rounded value. *)
Lemma rne_decompose (v : Z) :
  0 < v →
  let k := shift_of v in
  let q := v / 2 ^ k in
  ∃ q', rne v = q' * 2 ^ k ∧ q ≤ q' ≤ q + 1
        ∧ (v mod 2 ^ k = 0 → q' = q)
        ∧ (k = 0 ∨ (k = digits v - prec ∧ 2 ^ 52 ≤ q < 2 ^ 53)).
Proof.
  intros Hv k q. exists (nearest_even q (v mod 2 ^ k) k).
  assert (0 ≤ k) as Hk by (subst k; unfold shift_of; lia).
  split; [reflexivity |]. split; [apply nearest_even_bounds |]. split.
  - intros ->. by apply nearest_even_exact.
  - destruct (Z.eq_dec k 0) as [| Hk0]; [by left | right].
    assert (k = digits v - prec) as Hkd by (subst k; unfold shift_of in *; lia).
    split; [done |].
    destruct (digits_bounds v Hv) as [Hlo Hhi].
    replace (digits v - 1) with (52 + k) in Hlo by (unfold prec in *; lia).
    replace (digits v) with (53 + k) in Hhi by (unfold prec in *; lia).
    rewrite !Z.pow_add_r in * by lia. subst q. split.
    + apply Z.div_le_lower_bound; lia.
    + apply Z.div_lt_upper_bound; lia.
Qed.

Lemma rne_pos (v : Z) : 0 < v → 0 < rne v.
Proof.
  intros Hv. destruct (rne_decompose v Hv) as (q' & -> & Hq & _ & Hk).
  set (k := shift_of v) in *. assert (0 ≤ k) by (subst k; unfold shift_of; lia).
  assert (0 < v / 2 ^ k); [| nia].
  destruct Hk as [-> | [_ ?]]; [| lia].
  rewrite Z.pow_0_r, Z.div_1_r. lia.
Qed.

Lemma rne_is_canonical (v : Z) : 0 < v → canonical (rne v).
Proof.
  intros Hv. destruct (rne_decompose v Hv) as (q' & -> & Hq & Hexact & Hk).
  set (k := shift_of v) in *. assert (0 ≤ k) by (subst k; unfold shift_of; lia).
  destruct Hk as [Hk0 | [Hkd Hq52]].
  - rewrite Hk0 in *. rewrite Z.pow_0_r, Z.mod_1_r, Z.div_1_r in *.
    rewrite (Hexact eq_refl). exists v, 0. repeat split; try lia.
    unfold shift_of in k. lia.
  - destruct (Z.eq_dec q' (2 ^ 53)) as [-> | Hne].
    + exists (2 ^ 52), (k + 1). repeat split; try lia.
      * rewrite Z.pow_add_r by lia. lia.
      * change (digits (2 ^ 52)) with 53. unfold prec. lia.
    + exists q', k. repeat split; try lia.
      rewrite (digits_unique q' 53) by lia. unfold prec. lia.
Qed.

(** Rounding stays below a float that is above the number. *)
Lemma rne_le (v h : Z) : 0 < v → v ≤ h → canonical h → rne v ≤ h.
Proof.
  intros Hv Hvh (M & A & -> & HM & HA & Hc).
  destruct (rne_decompose v Hv) as (q' & -> & Hq & Hexact & Hk).
  set (k := shift_of v) in *. assert (0 ≤ k) by (subst k; unfold shift_of; lia).
  destruct Hk as [Hk0 | [Hkd Hq52]].
  - rewrite Hk0 in *. rewrite Z.pow_0_r, Z.mod_1_r, Z.div_1_r in *.
    rewrite (Hexact eq_refl). lia.
  - assert (digits v ≤ digits (M * 2 ^ A)) as Hdd by (by apply digits_le).
    rewrite digits_mul_pow2 in Hdd by lia.
    destruct (Z.eq_dec (digits M + A) (digits v)) as [Heq | Hne].
    + (* same binade: the bound is a multiple of the unit of [v] *)
      assert (A = k) as -> by (unfold prec in *; lia).
      assert (v / 2 ^ k ≤ M) as HqM.
      { apply Z.div_le_upper_bound; lia. }
      destruct (Z.eq_dec (v mod 2 ^ k) 0) as [H0 | Hn0].
      * rewrite (Hexact H0). nia.
      * assert (v / 2 ^ k < M); [| nia].
        pose proof (Z.div_mod v (2 ^ k) ltac:(lia)) as Hdm.
        pose proof (Z.mod_pos_bound v (2 ^ k) ltac:(lia)) as Hr.
        nia.
    + (* a higher binade *)
      assert (2 ^ (digits v) ≤ M * 2 ^ A).
      { destruct (digits_bounds (M * 2 ^ A) ltac:(lia)) as [Hlo _].
        rewrite digits_mul_pow2 in Hlo by lia.
        assert (2 ^ digits v ≤ 2 ^ (digits M + A - 1))
          by (apply Z.pow_le_mono_r; lia). lia. }
      replace (digits v) with (53 + k) in * by (unfold prec in *; lia).
      rewrite Z.pow_add_r in * by lia. nia.
Qed.

(** Rounding stays above a float that is below the number. *)
Lemma rne_ge (l v : Z) : 0 < l → l ≤ v → canonical l → l ≤ rne v.
Proof.
  intros Hl Hlv (M & A & -> & HM & HA & Hc).
  assert (0 < v) as Hv by lia.
  destruct (rne_decompose v Hv) as (q' & -> & Hq & Hexact & Hk).
  set (k := shift_of v) in *. assert (0 ≤ k) by (subst k; unfold shift_of; lia).
  destruct Hk as [Hk0 | [Hkd Hq52]].
  - rewrite Hk0 in *. rewrite Z.pow_0_r, Z.mod_1_r, Z.div_1_r in *.
    rewrite (Hexact eq_refl). lia.
  - assert (digits (M * 2 ^ A) ≤ digits v) as Hdd by (apply digits_le; lia).
    rewrite digits_mul_pow2 in Hdd by lia.
    destruct (Z.eq_dec (digits M + A) (digits v)) as [Heq | Hne].
    + assert (A = k) as -> by (unfold prec in *; lia).
      assert (M ≤ v / 2 ^ k) as HqM by (apply Z.div_le_lower_bound; lia).
      nia.
    + assert (M * 2 ^ A < 2 ^ (digits v - 1)).
      { destruct (digits_bounds (M * 2 ^ A) ltac:(lia)) as [_ Hhi].
        rewrite digits_mul_pow2 in Hhi by lia.
        assert (2 ^ (digits M + A) ≤ 2 ^ (digits v - 1))
          by (apply Z.pow_le_mono_r; lia). lia. }
      replace (digits v - 1) with (52 + k) in * by (unfold prec in *; lia).
      rewrite Z.pow_add_r in * by lia. nia.
Qed.

(** ** Values, canonical forms and order *)

Lemma canonical_below_max (m a : Z) :
  0 < m → 0 ≤ a → Z.max (digits m + a - prec) 0 = a →
  m * 2 ^ a ≤ max_scaled → a ≤ 2045.
Proof.
  intros Hm Ha Hc Hle.
  destruct (Z.le_gt_cases a 2045) as [| Hgt]; [done | exfalso].
  assert (digits m = 53) as Hd by (unfold prec in *; lia).
  destruct (digits_bounds m Hm) as [Hlo _]. rewrite Hd in Hlo.
  change (2 ^ (53 - 1)) with (2 ^ 52) in Hlo.
  assert (2 * 2 ^ 2045 ≤ 2 ^ a) as Hpa.
  { rewrite <- Z.pow_succ_r by lia. apply Z.pow_le_mono_r; lia. }
  assert (0 < 2 ^ 2045) as Hp by (apply Z.pow_pos_nonneg; lia).
  unfold max_scaled in Hle.
  remember (2 ^ 2045) as P eqn:HP. remember (2 ^ a) as Q eqn:HQ.
  clear HP HQ Hc Hd. nia.
Qed.

Lemma Z2F_proper (s : bool) (z : Z) :
  canonical z → z ≤ max_scaled →
  proper (Z2F s z) ∧ scaled (Z2F s z) = cond_Zopp s z.
Proof.
  intros (m & a & -> & Hm & Ha & Hc) Hle.
  pose proof (canonical_below_max m a Hm Ha Hc Hle) as Ha'.
  rewrite Z2F_canonical by done. unfold finite_or_inf.
  rewrite (proj2 (Z.leb_le (a - bias) (emax - prec)))
    by (unfold bias, emax, prec; lia).
  split.
  - apply bounded_spec. rewrite Z2Pos.id by done.
    unfold bias, prec in *. lia.
  - cbn [scaled]. rewrite Z2Pos.id by done.
    by replace (a - bias + bias) with a by lia.
Qed.

Lemma proper_canonical (x : float) :
  proper x →
  ∃ s z, x = Z2F s z ∧ scaled x = cond_Zopp s z ∧ 0 < z ∧ canonical z
         ∧ z ≤ max_scaled.
Proof.
  destruct x as [| | | s m e]; try done.
  intros [Hc He]%bounded_spec.
  assert (0 ≤ e + bias) as Ha by (unfold bias; lia).
  assert (Z.max (digits (Zpos m) + (e + bias) - prec) 0 = e + bias) as Hc'
    by (unfold bias, prec; lia).
  exists s, (Zpos m * 2 ^ (e + bias)). repeat split.
  - rewrite Z2F_canonical by (done || lia). unfold finite_or_inf.
    rewrite (proj2 (Z.leb_le _ _)) by (unfold emax, prec; lia).
    by replace (e + bias - bias) with e by lia.
  - lia.
  - exists (Zpos m), (e + bias). repeat split; (done || lia).
  - assert (digits (Zpos m) ≤ 53) as Hd by lia.
    destruct (digits_bounds (Zpos m) ltac:(lia)) as [_ Hhi].
    assert (2 ^ digits (Zpos m) ≤ 2 ^ 53) as Hd53
      by (apply Z.pow_le_mono_r; lia).
    assert (2 ^ (e + bias) ≤ 2 ^ 2045) as Hq
      by (apply Z.pow_le_mono_r; unfold bias; lia).
    assert (0 < 2 ^ (e + bias)) as Hq0 by (apply Z.pow_pos_nonneg; lia).
    unfold max_scaled.
    remember (2 ^ 2045) as P eqn:HP. remember (2 ^ (e + bias)) as Q eqn:HQ.
    remember (2 ^ digits (Zpos m)) as D eqn:HD.
    clear HP HQ HD Hc Hc' He Ha Hd. nia.
Qed.

Lemma scaled_Z2F_nonzero (s : bool) (z : Z) :
  0 < z → cond_Zopp s z ≠ 0.
Proof. destruct s; cbn; lia. Qed.

(** Two binary64 numbers of the same value are the same number. *)
Lemma proper_inj (x y : float) :
  proper x → proper y → scaled x = scaled y → x = y.
Proof.
  destruct x as [| | | sx mx ex], y as [| | | sy my ey]; try done.
  intros [Hcx Hex]%bounded_spec [Hcy Hey]%bounded_spec. cbn [scaled].
  assert (0 < 2 ^ (ex + bias)) by (unfold bias; lia).
  assert (0 < 2 ^ (ey + bias)) by (unfold bias; lia).
  intros Heq.
  assert (sx = sy) as ->.
  { destruct sx, sy; cbn [cond_Zopp] in Heq; (done || nia). }
  assert (Zpos mx * 2 ^ (ex + bias) = Zpos my * 2 ^ (ey + bias)) as Hv
    by (destruct sy; cbn [cond_Zopp] in Heq; lia).
  assert (digits (Zpos mx) + ex = digits (Zpos my) + ey) as Hd.
  { pose proof (f_equal digits Hv) as Hdd.
    rewrite !digits_mul_pow2 in Hdd by (unfold bias; lia). lia. }
  assert (ex = ey) as -> by lia.
  assert (Zpos mx = Zpos my) as [= ->] by nia.
  reflexivity.
Qed.

Lemma of_scaled_value (t : Z) :
  t ≠ 0 → rne (Z.abs t) ≤ max_scaled →
  proper (of_scaled t) ∧ scaled (of_scaled t) = Z.sgn t * rne (Z.abs t).
Proof.
  intros Ht Hle. destruct t as [| p | p]; [done | |]; cbn [of_scaled].
  - change (Z.abs (Zpos p)) with (Zpos p) in *.
    destruct (Z2F_proper false (rne (Zpos p))) as [Hp Hs];
      [by apply rne_is_canonical | done |].
    split; [done |]. rewrite Hs. cbn [cond_Zopp Z.sgn]. lia.
  - change (- Zneg p) with (Zpos p). change (Z.abs (Zneg p)) with (Zpos p) in *.
    destruct (Z2F_proper true (rne (Zpos p))) as [Hp Hs];
      [by apply rne_is_canonical | done |].
    split; [done |]. rewrite Hs. cbn [cond_Zopp Z.sgn Z.abs]. lia.
Qed.

Lemma of_scaled_scaled (x : float) : proper x → of_scaled (scaled x) = x.
Proof.
  intros Hx. destruct (proper_canonical x Hx) as (s & z & Hxz & Hs & Hz & Hc & Hle).
  rewrite Hs, Hxz. destruct s; cbn [cond_Zopp].
  - destruct z as [| p | p]; try lia.
    change (- Zpos p) with (Zneg p). cbn [of_scaled].
    change (- Zneg p) with (Zpos p). by rewrite rne_canonical_eq.
  - destruct z as [| p | p]; try lia. cbn [of_scaled].
    by rewrite rne_canonical_eq.
Qed.

Lemma proper_good (x : float) : proper x → good x.
Proof. by destruct x. Qed.

Lemma good_cases (x : float) : good x → (∃ s, x = S754_zero s) ∨ proper x.
Proof. destruct x; try done; [left; by eexists | by right]. Qed.

Lemma proper_scaled_sign (s : bool) (m : positive) (e : Z) :
  proper (S754_finite s m e) →
  if s then scaled (S754_finite s m e) < 0 else 0 < scaled (S754_finite s m e).
Proof.
  intros [Hc He]%bounded_spec. cbn [scaled].
  assert (0 < 2 ^ (e + bias)) by (unfold bias; lia).
  destruct s; cbn [cond_Zopp]; nia.
Qed.

Lemma canonical_lt (m1 e1 m2 e2 : Z) :
  0 < m1 → 0 < m2 →
  Z.max (digits m1 + e1 - 53) (- 1074) = e1 →
  Z.max (digits m2 + e2 - 53) (- 1074) = e2 →
  e1 < e2 → m1 * 2 ^ (e1 + bias) < m2 * 2 ^ (e2 + bias).
Proof.
  intros H1 H2 Hc1 Hc2 Hlt.
  assert (digits m2 = 53) as Hd2 by lia.
  assert (digits m1 ≤ 53) as Hd1 by lia.
  destruct (digits_bounds m1 H1) as [_ Hhi].
  destruct (digits_bounds m2 H2) as [Hlo _].
  rewrite Hd2 in Hlo. change (2 ^ (53 - 1)) with (2 ^ 52) in Hlo.
  assert (2 ^ digits m1 ≤ 2 ^ 53) by (apply Z.pow_le_mono_r; lia).
  assert (0 < 2 ^ (e1 + bias)) by (unfold bias; lia).
  assert (2 * 2 ^ (e1 + bias) ≤ 2 ^ (e2 + bias)).
  { rewrite <- Z.pow_succ_r by (unfold bias; lia).
    apply Z.pow_le_mono_r; unfold bias; lia. }
  nia.
Qed.

(** The comparison of floats is the comparison of their values. *)
Lemma compare_good (x y : float) :
  good x → good y → SFcompare x y = Some (scaled x ?= scaled y).
Proof.
  intros Hx Hy.
  destruct x as [sx | | | sx mx ex], y as [sy | | | sy my ey]; try done.
  - pose proof (proper_scaled_sign sy my ey Hy) as Hs.
    cbn [SFcompare]. f_equal. change (scaled (S754_zero sx)) with 0.
    destruct sy; symmetry; [apply Z.compare_gt_iff | apply Z.compare_lt_iff]; lia.
  - pose proof (proper_scaled_sign sx mx ex Hx) as Hs.
    cbn [SFcompare]. f_equal. change (scaled (S754_zero sy)) with 0.
    destruct sx; symmetry; [apply Z.compare_lt_iff | apply Z.compare_gt_iff]; lia.
  - pose proof (proper_scaled_sign sx mx ex Hx) as Hsx.
    pose proof (proper_scaled_sign sy my ey Hy) as Hsy.
    apply bounded_spec in Hx as [Hcx _]. apply bounded_spec in Hy as [Hcy _].
    cbn [SFcompare]. f_equal.
    destruct sx, sy.
    + (* both negative *)
      cbn [scaled cond_Zopp] in *.
      destruct (Z.compare_spec ex ey) as [-> | Hlt | Hgt].
      * change (Pos.compare_cont Eq mx my) with (Zpos mx ?= Zpos my).
        assert (0 < 2 ^ (ey + bias)) by (unfold bias; lia).
        destruct (Z.compare_spec (Zpos mx) (Zpos my)) as [Heq | Hl | Hg];
          cbn [CompOpp]; symmetry;
          [apply Z.compare_eq_iff | apply Z.compare_gt_iff | apply Z.compare_lt_iff];
          nia.
      * pose proof (canonical_lt (Zpos mx) ex (Zpos my) ey ltac:(lia) ltac:(lia) Hcx Hcy Hlt).
        symmetry. apply Z.compare_gt_iff. lia.
      * pose proof (canonical_lt (Zpos my) ey (Zpos mx) ex ltac:(lia) ltac:(lia) Hcy Hcx ltac:(lia)).
        symmetry. apply Z.compare_lt_iff. lia.
    + symmetry. apply Z.compare_lt_iff. lia.
    + symmetry. apply Z.compare_gt_iff. lia.
    + cbn [scaled cond_Zopp] in *.
      destruct (Z.compare_spec ex ey) as [-> | Hlt | Hgt].
      * change (Pos.compare_cont Eq mx my) with (Zpos mx ?= Zpos my).
        assert (0 < 2 ^ (ey + bias)) by (unfold bias; lia).
        destruct (Z.compare_spec (Zpos mx) (Zpos my)) as [Heq | Hl | Hg];
          symmetry;
          [apply Z.compare_eq_iff | apply Z.compare_lt_iff | apply Z.compare_gt_iff];
          nia.
      * pose proof (canonical_lt (Zpos mx) ex (Zpos my) ey ltac:(lia) ltac:(lia) Hcx Hcy Hlt).
        symmetry. apply Z.compare_lt_iff. lia.
      * pose proof (canonical_lt (Zpos my) ey (Zpos mx) ex ltac:(lia) ltac:(lia) Hcy Hcx ltac:(lia)).
        symmetry. apply Z.compare_gt_iff. lia.
Qed.

Lemma leb_good (x y : float) :
  good x → good y → leb x y = (scaled x <=? scaled y).
Proof.
  intros Hx Hy. unfold leb, SFleb. rewrite compare_good by done.
  unfold Z.leb. by destruct (scaled x ?= scaled y).
Qed.

(** ** The three steps of the normalisation *)

Lemma scaled_c180 : scaled c180 = Z180.
Proof. vm_compute. reflexivity. Qed.

Lemma scaled_c360 : scaled c360 = Z360.
Proof. vm_compute. reflexivity. Qed.

Lemma proper_c180 : proper c180.
Proof. vm_compute. reflexivity. Qed.

Lemma proper_c360 : proper c360.
Proof. vm_compute. reflexivity. Qed.

Lemma canonical_degrees (n : Z) :
  2 ^ 7 ≤ n < 2 ^ 9 → canonical (n * 2 ^ bias).
Proof.
  intros Hn.
  destruct (Z.lt_ge_cases n (2 ^ 8)) as [Hlt | Hge].
  - exists (n * 2 ^ 45), 1029. repeat split; try lia.
    + rewrite <- Z.mul_assoc, <- Z.pow_add_r by lia. reflexivity.
    + rewrite digits_mul_pow2 by lia.
      rewrite (digits_unique n 8) by lia. reflexivity.
  - exists (n * 2 ^ 44), 1030. repeat split; try lia.
    + rewrite <- Z.mul_assoc, <- Z.pow_add_r by lia. reflexivity.
    + rewrite digits_mul_pow2 by lia.
      rewrite (digits_unique n 9) by lia. reflexivity.
Qed.

Lemma canonical_Z180 : canonical Z180.
Proof. apply canonical_degrees. lia. Qed.

Lemma canonical_Z360 : canonical Z360.
Proof. apply canonical_degrees. lia. Qed.

Lemma canonical_max_scaled : canonical max_scaled.
Proof.
  exists (2 ^ 53 - 1), 2045.
  split; [reflexivity |]. split; [lia |]. split; [lia |].
  rewrite (digits_unique (2 ^ 53 - 1) 53) by lia. reflexivity.
Qed.

Lemma degrees_below_max (n : Z) : 0 ≤ n ≤ 360 → n * 2 ^ bias ≤ max_scaled.
Proof.
  intros Hn. unfold max_scaled, bias.
  assert (2 ^ 9 * 2 ^ 1074 ≤ 2 ^ 2045) as Hle.
  { rewrite <- Z.pow_add_r by lia. apply Z.pow_le_mono_r; lia. }
  assert (0 < 2 ^ 1074) as Hp by (apply Z.pow_pos_nonneg; lia).
  remember (2 ^ 2045) as P eqn:HP. remember (2 ^ 1074) as R eqn:HR.
  clear HP HR. nia.
Qed.

Lemma Z180_below_half_top : 2 * Z180 < 2 ^ 2045.
Proof.
  unfold Z180, bias.
  assert (2 ^ 9 * 2 ^ 1074 ≤ 2 ^ 2045) as Hle.
  { rewrite <- Z.pow_add_r by lia. apply Z.pow_le_mono_r; lia. }
  assert (0 < 2 ^ 1074) as Hp by (apply Z.pow_pos_nonneg; lia).
  remember (2 ^ 2045) as P eqn:HP. remember (2 ^ 1074) as R eqn:HR.
  clear HP HR. lia.
Qed.

(** Adding 180 to the largest float does not reach the next binade. *)
Lemma rne_no_overflow (v : Z) :
  0 < v → v ≤ max_scaled + Z180 → rne v ≤ max_scaled.
Proof.
  intros Hv Hle.
  destruct (Z.le_gt_cases v max_scaled) as [Hsmall | Hbig].
  - by apply rne_le; [| | apply canonical_max_scaled].
  - pose proof Z180_below_half_top as Hhalf.
    assert (0 < 2 ^ 2045) as Hp by (apply Z.pow_pos_nonneg; lia).
    assert (max_scaled = (2 ^ 53 - 1) * 2 ^ 2045) as Hmax by reflexivity.
    assert (2 ^ (2098 - 1) = 2 ^ 52 * 2 ^ 2045) as Hlo
      by (by rewrite <- Z.pow_add_r by lia).
    assert (2 ^ 2098 = 2 ^ 53 * 2 ^ 2045) as Hhi
      by (by rewrite <- Z.pow_add_r by lia).
    assert (0 < Z180) as H180 by done.
    remember (2 ^ 2045) as P eqn:HP.
    remember max_scaled as top eqn:Htop. remember Z180 as half eqn:Hh.
    assert (digits v = 2098) as Hd.
    { apply digits_unique; [| lia]. rewrite Hlo, Hhi. clear HP Htop Hh. lia. }
    unfold rne, shift_of. rewrite Hd.
    change (Z.max (2098 - prec) 0) with 2045. unfold nearest_even.
    rewrite <- HP. clear HP Htop Hh Hlo Hhi Hd.
    assert (v / P = 2 ^ 53 - 1) as Hq.
    { symmetry. apply (Z.div_unique v P (2 ^ 53 - 1) (v - top)); lia. }
    assert (v mod P = v - top) as Hr.
    { symmetry. apply (Z.mod_unique v P (2 ^ 53 - 1) (v - top)); lia. }
    rewrite Hq, Hr.
    replace (2 * (v - top) ?= P) with Lt; [lia |].
    symmetry. apply Z.compare_lt_iff. lia.
Qed.

Lemma proper_abs_le_max (x : float) : proper x → Z.abs (scaled x) ≤ max_scaled.
Proof.
  intros Hx. destruct (proper_canonical x Hx) as (s & z & _ & -> & Hz & _ & Hle).
  destruct s; cbn [cond_Zopp]; lia.
Qed.

Lemma good_of_valid (x : float) : valid x = true → is_finite x = true → good x.
Proof. by destruct x. Qed.

Lemma of_scaled_good (t : Z) :
  rne (Z.abs t) ≤ max_scaled →
  good (of_scaled t) ∧ scaled (of_scaled t) = Z.sgn t * rne (Z.abs t).
Proof.
  intros Hle. destruct (Z.eq_dec t 0) as [-> | Hne]; [done |].
  destruct (of_scaled_value t Hne Hle) as [Hp Hs].
  split; [by apply proper_good | done].
Qed.

(** [lon + 180.0] is a float again: the sum does not overflow. *)
Lemma add_c180_good (x : float) : good x → good (add x c180).
Proof.
  intros [[s ->] | Hx]%good_cases; [done |].
  rewrite add_proper by (done || apply proper_c180). rewrite scaled_c180.
  apply of_scaled_good.
  destruct (Z.eq_dec (scaled x + Z180) 0) as [-> | Hne]; [done |].
  apply rne_no_overflow; [lia |].
  pose proof (proper_abs_le_max x Hx). assert (0 < Z180) by done. lia.
Qed.

Lemma binary_normalize_zero_sign (m e : Z) (sz : bool) :
  - bias ≤ e →
  binary_normalize prec emax m e sz
  = if m =? 0 then S754_zero sz else of_scaled (m * 2 ^ (e + bias)).
Proof.
  intros He. destruct m as [| p | p]; [done | |];
    rewrite <- binary_normalize_scaled by done; reflexivity.
Qed.

Lemma of_scaled_turn (t : Z) :
  0 ≤ t ≤ Z360 → in_turn (of_scaled t).
Proof.
  intros Ht. destruct (Z.eq_dec t 0) as [-> | Hne]; [by left | right].
  assert (rne t ≤ Z360) as Hle by (apply rne_le; [lia | lia | apply canonical_Z360]).
  assert (Z360 ≤ max_scaled) as Hmax by (apply degrees_below_max; lia).
  destruct (of_scaled_value t Hne) as [Hp Hs].
  { rewrite Z.abs_eq by lia. lia. }
  split; [done |]. rewrite Hs, Z.abs_eq, Z.sgn_pos by lia.
  pose proof (rne_pos t ltac:(lia)). lia.
Qed.

Lemma ltb_zero_good (x : float) :
  good x → ltb x zero = (scaled x <? 0).
Proof.
  intros Hx. unfold ltb, SFltb. rewrite compare_good by done.
  change (scaled zero) with 0. unfold Z.ltb. by destruct (scaled x ?= 0).
Qed.

(** [% 360.0] sends every float into the turn from 0 to 360. *)
Lemma rem_c360_turn (s : float) : good s → in_turn (rem s c360).
Proof.
  intros [[sg ->] | Hs]%good_cases; [by left |].
  destruct s as [| | | ss ms es]; try done.
  pose proof Hs as [Hc He]%bounded_spec.
  unfold rem.
  change (fmod (S754_finite ss ms es) c360)
    with (binary_normalize prec emax
            (cond_Zopp ss
               ((Zpos ms * 2 ^ (es - Z.min es (-44)))
                mod (6333186975989760 * 2 ^ (-44 - Z.min es (-44)))))
            (Z.min es (-44)) ss).
  set (e := Z.min es (-44)).
  set (r := (Zpos ms * 2 ^ (es - e)) mod (6333186975989760 * 2 ^ (-44 - e))).
  assert (- bias ≤ e) as Hbe by (subst e; unfold bias; lia).
  assert (0 < 2 ^ (e + bias)) as Hpe by lia.
  assert (6333186975989760 * 2 ^ (-44 - e) * 2 ^ (e + bias) = Z360) as H360.
  { rewrite <- Z.mul_assoc, <- Z.pow_add_r by (subst e; lia).
    replace (-44 - e + (e + bias)) with 1030 by (unfold bias; lia).
    vm_compute. reflexivity. }
  assert (0 < 2 ^ (-44 - e)) as Hp44 by (subst e; lia).
  assert (0 ≤ r * 2 ^ (e + bias) < Z360) as Hr.
  { pose proof (Z.mod_pos_bound (Zpos ms * 2 ^ (es - e))
                  (6333186975989760 * 2 ^ (-44 - e)) ltac:(lia)) as Hb.
    fold r in Hb. nia. }
  rewrite binary_normalize_zero_sign by done.
  destruct (Z.eqb_spec (cond_Zopp ss r) 0) as [H0 | Hn0]; [by left |].
  assert (r ≠ 0) as Hrn by (destruct ss; cbn [cond_Zopp] in Hn0; lia).
  assert (Z360 ≤ max_scaled) as Hmax by (apply degrees_below_max; lia).
  set (t0 := r * 2 ^ (e + bias)) in *.
  assert (0 < t0) as Ht0 by (subst t0; nia).
  assert (rne t0 ≤ Z360) as Hle
    by (apply rne_le; [lia | lia | apply canonical_Z360]).
  pose proof (rne_pos t0 Ht0) as Hrpos.
  destruct ss; cbn [cond_Zopp].
  - (* a negative remainder: the divisor is added *)
    replace (- r * 2 ^ (e + bias)) with (- t0) by (subst t0; lia).
    destruct (of_scaled_value (- t0)) as [Hp Hsc]; [lia | |].
    { rewrite Z.abs_neq by lia. rewrite Z.opp_involutive. lia. }
    rewrite Z.abs_neq, Z.opp_involutive, Z.sgn_neg in Hsc by lia.
    assert (nonzero (of_scaled (- t0)) = true) as ->
      by (by destruct (of_scaled (- t0))).
    rewrite (ltb_zero_good (of_scaled (- t0))) by (by apply proper_good).
    change (ltb c360 zero) with false. cbn [xorb].
    rewrite (proj2 (Z.ltb_lt _ _)) by lia.
    rewrite add_proper by (done || apply proper_c360).
    rewrite Hsc, scaled_c360. apply of_scaled_turn. lia.
  - fold t0.
    destruct (of_scaled_value t0) as [Hp Hsc]; [lia | |].
    { rewrite Z.abs_eq by lia. lia. }
    rewrite Z.abs_eq, Z.sgn_pos in Hsc by lia.
    assert (nonzero (of_scaled t0) = true) as ->
      by (by destruct (of_scaled t0)).
    rewrite (ltb_zero_good (of_scaled t0)) by (by apply proper_good).
    change (ltb c360 zero) with false. cbn [xorb].
    rewrite (proj2 (Z.ltb_ge _ _)) by lia.
    right. split; [done | lia].
Qed.

(** [- 180.0] sends the turn into the interval from -180 to 180. *)
Lemma sub_c180_turn (x : float) :
  in_turn x →
  good (sub x c180) ∧ - Z180 ≤ scaled (sub x c180) ≤ Z180.
Proof.
  intros [-> | [Hx Hrange]].
  - split; [by vm_compute |].
    change (scaled (sub (S754_zero false) c180)) with (- scaled c180).
    rewrite scaled_c180. assert (0 < Z180) by done. lia.
  - rewrite sub_proper by (done || apply proper_c180). rewrite scaled_c180.
    set (u := scaled x - Z180).
    assert (0 < Z180) as Hpos by done.
    assert (Z360 = 2 * Z180) as H2 by (unfold Z360, Z180; lia).
    assert (rne (Z.abs u) ≤ Z180) as Hle.
    { destruct (Z.eq_dec u 0) as [-> | Hne]; [by vm_compute |].
      apply rne_le; [lia | lia | apply canonical_Z180]. }
    destruct (of_scaled_good u) as [Hg Hs].
    { pose proof (degrees_below_max 180 ltac:(lia)). fold Z180 in *. lia. }
    split; [done |]. rewrite Hs.
    assert (0 ≤ rne (Z.abs u)).
    { destruct (Z.eq_dec u 0) as [-> | Hne]; [by vm_compute |].
      pose proof (rne_pos (Z.abs u) ltac:(lia)). lia. }
    destruct (Z.sgn_spec u) as [[_ ->] | [[_ ->] | [_ ->]]]; lia.
Qed.

Lemma normalize_longitude_good (lon : float) :
  good lon →
  good (normalize_longitude lon)
  ∧ - Z180 ≤ scaled (normalize_longitude lon) ≤ Z180.
Proof.
  intros Hlon. unfold normalize_longitude.
  apply sub_c180_turn, rem_c360_turn, add_c180_good, Hlon.
Qed.

(** C2, amended: for every finite longitude the normalised value lies in
    the closed interval from -180 to 180.  Both ends are values of the
    function: 180 is sent to -180, and the float next below -180 is sent
    to 180 by the rounding of the addition of 360. *)
Theorem normalize_longitude_range (lon : float) :
  valid lon = true → is_finite lon = true →
  leb (SFopp c180) (normalize_longitude lon) = true
  ∧ leb (normalize_longitude lon) c180 = true.
Proof.
  intros Hv Hf.
  destruct (normalize_longitude_good lon (good_of_valid lon Hv Hf)) as [Hg Hr].
  rewrite !leb_good by (done || by vm_compute).
  change (scaled (SFopp c180)) with (- scaled c180). rewrite scaled_c180.
  split; apply Z.leb_le; lia.
Qed.

(** ** Normalising twice *)

Lemma proper_pos_canonical (x : float) :
  proper x → 0 < scaled x → canonical (scaled x).
Proof.
  intros Hx Hpos. destruct (proper_canonical x Hx) as (s & z & _ & Hs & Hz & Hc & _).
  rewrite Hs in *. destruct s; cbn [cond_Zopp] in *; [lia | done].
Qed.

(** [% 360.0] leaves a float between 0 and 360 as it is. *)
Lemma rem_c360_identity (s : float) :
  proper s → 0 < scaled s < Z360 → rem s c360 = s.
Proof.
  intros Hs Hrange.
  destruct s as [| | | ss ms es]; try done.
  pose proof Hs as [Hc He]%bounded_spec.
  pose proof (proper_scaled_sign ss ms es Hs) as Hsign.
  destruct ss; [lia |]. clear Hsign.
  unfold rem.
  change (fmod (S754_finite false ms es) c360)
    with (binary_normalize prec emax
            (cond_Zopp false
               ((Zpos ms * 2 ^ (es - Z.min es (-44)))
                mod (6333186975989760 * 2 ^ (-44 - Z.min es (-44)))))
            (Z.min es (-44)) false).
  set (e := Z.min es (-44)).
  assert (- bias ≤ e) as Hbe by (subst e; unfold bias; lia).
  assert (0 < 2 ^ (e + bias)) as Hpe by lia.
  assert (0 < 2 ^ (-44 - e)) as Hp44 by (subst e; lia).
  assert (0 < 2 ^ (es - e)) as Hpes by (subst e; lia).
  assert (6333186975989760 * 2 ^ (-44 - e) * 2 ^ (e + bias) = Z360) as H360.
  { rewrite <- Z.mul_assoc, <- Z.pow_add_r by (subst e; lia).
    replace (-44 - e + (e + bias)) with 1030 by (unfold bias; lia).
    vm_compute. reflexivity. }
  assert (Zpos ms * 2 ^ (es - e) * 2 ^ (e + bias) = scaled (S754_finite false ms es)) as Hval.
  { cbn [scaled cond_Zopp]. rewrite <- Z.mul_assoc, <- Z.pow_add_r by (subst e; lia).
    do 2 f_equal. lia. }
  rewrite Z.mod_small.
  2:{ split; [lia |].
      apply (Z.mul_lt_mono_pos_r (2 ^ (e + bias))); [done |].
      rewrite Hval, H360. lia. }
  cbn [cond_Zopp]. rewrite binary_normalize_scaled by done.
  rewrite Hval, of_scaled_scaled by done.
  cbn [nonzero]. change (ltb c360 zero) with false. cbn [xorb].
  rewrite ltb_zero_good by (by apply proper_good).
  by rewrite (proj2 (Z.ltb_ge _ _)) by lia.
Qed.

Lemma canonical_64_128 (n : Z) : 2 ^ 6 ≤ n < 2 ^ 7 → canonical (n * 2 ^ bias).
Proof.
  intros Hn. exists (n * 2 ^ 46), 1028.
  split; [| split; [lia | split; [lia |]]].
  - rewrite <- Z.mul_assoc, <- Z.pow_add_r by lia. reflexivity.
  - rewrite digits_mul_pow2 by lia.
    rewrite (digits_unique n 7) by lia. reflexivity.
Qed.

(** A float of at least 64 is a multiple of [2 ^ -46]. *)
Lemma canonical_multiple (z : Z) :
  canonical z → 2 ^ 1080 ≤ z → ∃ c, z = c * 2 ^ 1028.
Proof.
  intros (m & a & -> & Hm & Ha & Hc) Hge.
  assert (1081 ≤ digits (m * 2 ^ a)) as Hd by (apply (digits_ge_pow2 _ 1080); lia).
  rewrite digits_mul_pow2 in Hd by lia.
  assert (1028 ≤ a) by (unfold prec in *; lia).
  exists (m * 2 ^ (a - 1028)).
  rewrite <- Z.mul_assoc, <- Z.pow_add_r by lia. do 2 f_equal. lia.
Qed.

Lemma pow2_bias : 2 ^ bias = 2 ^ 46 * 2 ^ 1028.
Proof. unfold bias. by rewrite <- Z.pow_add_r by lia. Qed.

(** The exponent of a float between 64 and 360. *)
Lemma exponent_from_64 (m : positive) (e : Z) :
  bounded prec emax m e = true →
  64 * 2 ^ bias ≤ Zpos m * 2 ^ (e + bias) < 360 * 2 ^ bias →
  2 ^ 52 ≤ Zpos m < 2 ^ 53 ∧ (e = -46 ∨ e = -45 ∨ e = -44).
Proof.
  intros [Hc He]%bounded_spec Hrange.
  destruct (digits_bounds (Zpos m) ltac:(lia)) as [Hlo Hhi].
  assert (digits (Zpos m) ≤ 53) as Hd by lia.
  assert (2 ^ digits (Zpos m) ≤ 2 ^ 53) as Hd53 by (apply Z.pow_le_mono_r; lia).
  assert (0 < 2 ^ 1028) as HG by (apply Z.pow_pos_nonneg; lia).
  assert (0 < 2 ^ (e + bias)) as HQ by (apply Z.pow_pos_nonneg; unfold bias; lia).
  rewrite pow2_bias in Hrange.
  assert (-46 ≤ e) as He46.
  { destruct (Z.le_gt_cases (-46) e) as [| Hlt]; [done | exfalso].
    assert (2 * 2 ^ (e + bias) ≤ 2 ^ 1028) as Hq.
    { rewrite <- Z.pow_succ_r by (unfold bias; lia).
      apply Z.pow_le_mono_r; unfold bias; lia. }
    remember (2 ^ 1028) as G eqn:HeqG. remember (2 ^ (e + bias)) as Q eqn:HeqQ.
    remember (2 ^ digits (Zpos m)) as D eqn:HeqD.
    clear HeqG HeqQ HeqD Hc Hlo Hd He. nia. }
  assert (digits (Zpos m) = 53) as Hd53' by lia.
  rewrite Hd53' in Hlo, Hhi. change (2 ^ (53 - 1)) with (2 ^ 52) in Hlo.
  split; [lia |].
  assert (e ≤ -44); [| lia].
  destruct (Z.le_gt_cases e (-44)) as [| Hgt]; [done | exfalso].
  assert (2 ^ 3 * 2 ^ 1028 ≤ 2 ^ (e + bias)) as Hq.
  { rewrite <- Z.pow_add_r by lia. apply Z.pow_le_mono_r; unfold bias; lia. }
  remember (2 ^ 1028) as G eqn:HeqG. remember (2 ^ (e + bias)) as Q eqn:HeqQ.
  clear HeqG HeqQ Hc Hd Hd53 Hd53' He He46 Hhi. nia.
Qed.

(** From 64 to 360, subtracting 180 is exact. *)
Lemma sub_180_exact_from_64 (x : float) :
  proper x → 64 * 2 ^ bias ≤ scaled x < Z360 → scaled x ≠ Z180 →
  rne (Z.abs (scaled x - Z180)) = Z.abs (scaled x - Z180).
Proof.
  intros Hx Hrange Hne.
  destruct x as [| | | sx mx ex]; try done.
  pose proof (proper_scaled_sign sx mx ex Hx) as Hsign.
  assert (0 < 2 ^ bias) as Hb by (apply Z.pow_pos_nonneg; unfold bias; lia).
  destruct sx; [lia |]. clear Hsign.
  cbn [scaled cond_Zopp] in *. unfold Z360, Z180 in *.
  destruct (exponent_from_64 mx ex Hx Hrange) as [Hm He].
  assert (0 < 2 ^ 1028) as HG by (apply Z.pow_pos_nonneg; lia).
  assert (2 ^ (-46 + bias) = 2 ^ 1028) as H46 by reflexivity.
  assert (2 ^ (-45 + bias) = 2 * 2 ^ 1028) as H45
    by (by rewrite <- Z.pow_succ_r by lia).
  assert (2 ^ (-44 + bias) = 2 ^ 2 * 2 ^ 1028) as H44
    by (by rewrite <- Z.pow_add_r by lia).
  assert (2 ^ 1029 = 2 * 2 ^ 1028) as H1029
    by (by rewrite <- Z.pow_succ_r by lia).
  assert (2 ^ 1030 = 2 ^ 2 * 2 ^ 1028) as H1030
    by (by rewrite <- Z.pow_add_r by lia).
  rewrite pow2_bias in *.
  destruct He as [-> | [-> | ->]].
  - rewrite H46 in *.
    replace (Z.abs (Zpos mx * 2 ^ 1028 - 180 * (2 ^ 46 * 2 ^ 1028)))
      with ((180 * 2 ^ 46 - Zpos mx) * 2 ^ 1028).
    + apply rne_representable; lia.
    + remember (2 ^ 1028) as G eqn:HeqG.
      clear HeqG H46 H45 H44 H1029 H1030 Hx Hb Hne. nia.
  - rewrite H45 in *.
    replace (Z.abs (Zpos mx * (2 * 2 ^ 1028) - 180 * (2 ^ 46 * 2 ^ 1028)))
      with (Z.abs (Zpos mx - 180 * 2 ^ 45) * 2 ^ 1029).
    + apply rne_representable; [| lia].
      assert (Zpos mx - 180 * 2 ^ 45 ≠ 0); [| lia].
      remember (2 ^ 1028) as G eqn:HeqG.
      clear HeqG H46 H45 H44 H1029 H1030 Hx Hb Hrange. nia.
    + rewrite H1029. remember (2 ^ 1028) as G eqn:HeqG.
      clear HeqG H46 H45 H44 H1029 H1030 Hx Hb Hne Hrange. nia.
  - rewrite H44 in *.
    replace (Z.abs (Zpos mx * (2 ^ 2 * 2 ^ 1028) - 180 * (2 ^ 46 * 2 ^ 1028)))
      with ((Zpos mx - 180 * 2 ^ 44) * 2 ^ 1030).
    + apply rne_representable; lia.
    + rewrite H1030. remember (2 ^ 1028) as G eqn:HeqG.
      clear HeqG H46 H45 H44 H1029 H1030 Hx Hb Hne Hrange. nia.
Qed.

(** Below 64, the difference with 180 is rounded to a multiple of
    [2 ^ -46], and 180 minus that multiple has at most 53 digits. *)
Lemma add_back_below_64 (u : Z) :
  116 * 2 ^ bias < u < Z180 →
  0 < Z180 - rne u → rne (Z180 - rne u) = Z180 - rne u.
Proof.
  intros Hu Ht.
  assert (0 < 2 ^ bias) as Hb by (apply Z.pow_pos_nonneg; unfold bias; lia).
  assert (116 * 2 ^ bias ≤ rne u) as Hge.
  { apply rne_ge; [lia | lia |]. apply canonical_64_128. lia. }
  destruct (canonical_multiple (rne u)) as (c & Hc).
  { apply rne_is_canonical. lia. }
  { assert (2 ^ 1080 = 2 ^ 6 * 2 ^ bias) as ->
      by (unfold bias; by rewrite <- Z.pow_add_r by lia).
    lia. }
  assert (0 < 2 ^ 1028) as HG by (apply Z.pow_pos_nonneg; lia).
  rewrite Hc in *. unfold Z180 in *. rewrite pow2_bias in *.
  replace (180 * (2 ^ 46 * 2 ^ 1028) - c * 2 ^ 1028)
    with ((180 * 2 ^ 46 - c) * 2 ^ 1028) in * by ring.
  apply rne_representable; [| lia].
  remember (2 ^ 1028) as G eqn:HeqG. clear HeqG Hc Hu Hb. nia.
Qed.

(** The heart of the matter: after [x - 180.0], adding 180 back is exact. *)
Lemma add_back_exact (x : float) :
  proper x → 0 < scaled x < Z360 → scaled x ≠ Z180 →
  let rho := scaled (sub x c180) in
  proper (sub x c180) ∧ - Z180 ≤ rho ≤ Z180
  ∧ (0 < rho + Z180 → rne (rho + Z180) = rho + Z180).
Proof.
  intros Hx Hrange Hne rho.
  assert (in_turn x) as Hturn by (right; split; [done | lia]).
  destruct (sub_c180_turn x Hturn) as [_ Hrho]. fold rho in Hrho.
  subst rho. rewrite sub_proper in * by (done || apply proper_c180).
  rewrite scaled_c180 in *.
  set (u := scaled x - Z180) in *.
  assert (u ≠ 0) as Hu by (subst u; lia).
  assert (0 < Z180) as Hpos by done.
  assert (Z360 = 2 * Z180) as H2 by (unfold Z360, Z180; lia).
  assert (Z180 ≤ max_scaled) as Hmax by (apply (degrees_below_max 180); lia).
  assert (rne (Z.abs u) ≤ Z180) as Hle
    by (apply rne_le; [lia | lia | apply canonical_Z180]).
  destruct (of_scaled_value u Hu ltac:(lia)) as [Hp Hs].
  split; [done |]. split; [done |]. rewrite Hs. intros Ht.
  destruct (Z.le_gt_cases (64 * 2 ^ bias) (scaled x)) as [Hbig | Hsmall].
  - (* from 64 on, the subtraction itself is exact *)
    assert (rne (Z.abs u) = Z.abs u) as Hexact
      by (apply sub_180_exact_from_64; (done || lia)).
    rewrite Hexact.
    replace (Z.sgn u * Z.abs u + Z180) with (scaled x) by (subst u; lia).
    apply rne_canonical_eq, proper_pos_canonical; [done | lia].
  - (* below 64 the difference is rounded to a multiple of [2 ^ -46] *)
    assert (u < 0) as Hneg by (subst u; unfold Z180; lia).
    rewrite Z.sgn_neg in * by done. rewrite Z.abs_neq in * by lia.
    replace (-1 * rne (- u) + Z180) with (Z180 - rne (- u)) in * by lia.
    apply add_back_below_64; [| done].
    subst u. unfold Z180 in *. lia.
Qed.

(** A value of the normalisation other than 180 is normalised to
    itself. *)
Lemma normalize_after_turn (x : float) :
  in_turn x → sub x c180 ≠ c180 →
  normalize_longitude (sub x c180) = sub x c180.
Proof.
  intros [-> | [Hx Hrange]] Hne; [by vm_compute |].
  destruct (Z.eq_dec (scaled x) Z360) as [H360 | Hn360].
  { assert (x = c360) as ->
      by (apply proper_inj; [done | apply proper_c360 | by rewrite scaled_c360]).
    exfalso. apply Hne. by vm_compute. }
  destruct (Z.eq_dec (scaled x) Z180) as [H180 | Hn180].
  { assert (x = c180) as ->
      by (apply proper_inj; [done | apply proper_c180 | by rewrite scaled_c180]).
    by vm_compute. }
  destruct (add_back_exact x Hx ltac:(lia) Hn180) as (Hr & Hrho & Hexact).
  set (r := sub x c180) in *. set (rho := scaled r) in *.
  assert (0 < Z180) as Hpos by done.
  assert (Z360 = 2 * Z180) as H2 by (unfold Z360, Z180; lia).
  assert (rho ≠ Z180) as Hrn.
  { intros Heq. apply Hne, proper_inj; [done | apply proper_c180 |].
    by rewrite scaled_c180. }
  destruct (Z.eq_dec rho (- Z180)) as [Hm180 | Hnm180].
  { assert (r = SFopp c180) as ->
      by (apply proper_inj; [done | by vm_compute |];
          change (scaled (SFopp c180)) with (- scaled c180);
          by rewrite scaled_c180).
    by vm_compute. }
  set (t := rho + Z180) in *.
  assert (0 < t < Z360) as Ht by (subst t; lia).
  specialize (Hexact ltac:(lia)).
  assert (Z360 ≤ max_scaled) as Hmax by (apply degrees_below_max; lia).
  destruct (of_scaled_value t ltac:(lia)) as [Hp Hs].
  { rewrite Z.abs_eq by lia. lia. }
  rewrite Z.abs_eq, Z.sgn_pos, Hexact, Z.mul_1_l in Hs by lia.
  unfold normalize_longitude.
  rewrite (add_proper r c180) by (done || apply proper_c180).
  rewrite scaled_c180. fold rho. fold t.
  rewrite rem_c360_identity by (done || lia).
  rewrite sub_proper by (done || apply proper_c180).
  rewrite Hs, scaled_c180.
  replace (t - Z180) with (scaled r) by (subst t rho; lia).
  by apply of_scaled_scaled.
Qed.

(** C7, amended: for every finite longitude whose normalised value is
    not 180, normalising that value again returns the same float. *)
Theorem normalize_longitude_idempotent (lon : float) :
  valid lon = true → is_finite lon = true →
  normalize_longitude lon ≠ c180 →
  normalize_longitude (normalize_longitude lon) = normalize_longitude lon.
Proof.
  intros Hv Hf Hne. unfold normalize_longitude at 2 3.
  apply normalize_after_turn; [| exact Hne].
  apply rem_c360_turn, add_c180_good, good_of_valid; done.
Qed.

(** C2, refuted as written: the longitude 180 is normalised to -180,
    which is not above -180. *)
Lemma normalize_180_is_minus_180 : ¬ range_as_claimed.
Proof.
  intros Hclaim. destruct (Hclaim c180) as [Hlt _]; [done | done |].
  vm_compute in Hlt. discriminate Hlt.
Qed.

(** C7, refuted as written: the float next below -180 is normalised to
    180, and 180 is normalised to -180. *)
Lemma normalize_twice_below_minus_180 : ¬ idempotent_as_claimed.
Proof.
  intros Hclaim. specialize (Hclaim below_minus_180 eq_refl eq_refl).
  vm_compute in Hclaim. discriminate Hclaim.
Qed.

Example normalize_below_minus_180 :
  normalize_longitude below_minus_180 = c180.
Proof. by vm_compute. Qed.
Example normalize_180 : normalize_longitude c180 = SFopp c180.
Proof. by vm_compute. Qed.

Lemma normalize_longitude_range_witness :
  leb (SFopp c180) (normalize_longitude (of_Z 190)) = true
  ∧ leb (normalize_longitude (of_Z 190)) c180 = true.
Proof.
  apply (normalize_longitude_range (of_Z 190)); reflexivity.
Defined.

Lemma normalize_longitude_idempotent_witness :
  normalize_longitude (normalize_longitude (of_Z 190))
  = normalize_longitude (of_Z 190).
Proof.
  apply (normalize_longitude_idempotent (of_Z 190)); [reflexivity | reflexivity |].
  vm_compute. discriminate.
Defined.

(** * Further properties: paths *)

Lemma append_cons (d : ascii) (s t : string) :
  String d s +:+ t = String d (s +:+ t).
Proof. reflexivity. Qed.

Lemma has_char_app (c : ascii) (s t : string) :
  has_char c (s +:+ t) = has_char c s || has_char c t.
Proof.
  induction s as [| d s IH]; [done |].
  rewrite append_cons. cbn. by rewrite IH, orb_assoc.
Qed.

Lemma has_char_substring (c : ascii) (s : string) :
  has_char c s = false → ∀ n m, has_char c (String.substring n m s) = false.
Proof.
  induction s as [| d s IH]; intros Hs n m.
  - by destruct n, m.
  - cbn in Hs. apply orb_false_iff in Hs as [Hd Hs].
    destruct n as [| n]; destruct m as [| m]; cbn; try done.
    + by rewrite Hd, (IH Hs 0%nat m).
    + by apply IH.
    + by apply IH.
Qed.

(** The pieces of [s.split(sep)] hold no separator. *)
Lemma split_pieces (sep : ascii) (s : string) :
  Forall (λ w, has_char sep w = false) (Str.split sep s).
Proof.
  induction s as [| c s IH]; cbn.
  - by repeat constructor.
  - destruct (Ascii.eqb c sep) eqn:Hc.
    + by constructor.
    + destruct (Str.split sep s) as [| w ws]; inversion IH; subst.
      * by repeat constructor; cbn; rewrite Hc.
      * constructor; [cbn; by rewrite Hc | done].
Qed.

Lemma split_nonempty (sep : ascii) (s : string) : Str.split sep s ≠ [].
Proof.
  destruct s as [| c s]; cbn; [done |].
  destruct (Ascii.eqb c sep); [done |]. by destruct (Str.split sep s).
Qed.

(** A string without the separator is its own only piece. *)
Lemma split_whole (sep : ascii) (s : string) :
  has_char sep s = false → Str.split sep s = [s].
Proof.
  induction s as [| c s IH]; cbn; [done |].
  intros [Hc Hs]%orb_false_iff. by rewrite Hc, (IH Hs).
Qed.

Lemma starts_with_slash (s : string) :
  has_char slash s = false → Str.starts_with "/" s = false.
Proof.
  destruct s as [| c s]; [done |]. cbn [has_char].
  intros [Hc _]%orb_false_iff.
  change (Str.starts_with "/" (String c s))
    with (if ascii_dec "/" c then String.prefix "" s else false).
  destruct (ascii_dec "/" c) as [<- | Hne]; [discriminate Hc | done].
Qed.

(** [Path(seg)] for a regular segment. *)
Lemma of_str_one_part (seg : string) :
  one_part seg = true → of_str seg = mkPath "" [seg].
Proof.
  unfold one_part. intros [[Hs He]%andb_true_iff Hd]%andb_true_iff.
  apply negb_true_iff in Hs.
  unfold of_str, splitroot. rewrite (starts_with_slash seg Hs). cbn [negb].
  rewrite split_whole by done. cbn [filter List.filter]. by rewrite He, Hd.
Qed.

Lemma join_one_part (p : Path) (seg : string) :
  one_part seg = true → p // seg = mkPath (root p) (parts p ++ [seg]).
Proof.
  intros Hseg. unfold join.
  assert (has_char slash seg = false) as Hs.
  { unfold one_part in Hseg. apply andb_true_iff in Hseg as [[Hs _]%andb_true_iff _].
    by apply negb_true_iff. }
  by rewrite (starts_with_slash seg Hs), of_str_one_part.
Qed.

Lemma parent_join (p : Path) (seg : string) :
  one_part seg = true → parent (p // seg) = p.
Proof.
  intros Hseg. rewrite join_one_part by done. unfold parent. cbn.
  rewrite removelast_last. by destruct p.
Qed.

Lemma name_join (p : Path) (seg : string) :
  one_part seg = true → name (p // seg) = seg.
Proof.
  intros Hseg. rewrite join_one_part by done. unfold name. cbn.
  apply last_last.
Qed.

(** The parts of a parsed path are regular segments. *)
Lemma of_str_parts (s : string) :
  Forall (λ x, one_part x = true) (parts (of_str s)).
Proof.
  unfold of_str. destruct (splitroot s) as [r rel]. cbn [parts].
  pose proof (split_pieces slash rel) as Hpieces.
  induction Hpieces as [| x l Hx _ IH]; cbn; [constructor |].
  destruct (negb (String.eqb x "") && negb (String.eqb x ".")) eqn:Hkeep; [| done].
  constructor; [| done]. unfold one_part. by rewrite Hx.
Qed.

Lemma name_of_str_slash_free (s : string) :
  has_char slash (name (of_str s)) = false.
Proof.
  unfold name. pose proof (of_str_parts s) as Hparts.
  induction Hparts as [| x l Hx Hl IH]; cbn; [done |].
  destruct l as [| y l]; [| done].
  unfold one_part in Hx. apply andb_true_iff in Hx as [[Hs _]%andb_true_iff _].
  by apply negb_true_iff.
Qed.

Lemma stem_of_str_slash_free (s : string) :
  has_char slash (stem (of_str s)) = false.
Proof.
  unfold stem. pose proof (name_of_str_slash_free s) as Hname.
  destruct (_ && _); [| done]. unfold Str.take. by apply has_char_substring.
Qed.

Lemma length_append (s t : string) :
  String.length (s +:+ t) = (String.length s + String.length t)%nat.
Proof.
  induction s as [| c s IH]; [done |]. rewrite append_cons. cbn. by rewrite IH.
Qed.

Lemma json_segment_one_part (basename : string) :
  has_char slash basename = false → one_part (basename +:+ ".json") = true.
Proof.
  intros Hb. unfold one_part. rewrite has_char_app, Hb. cbn [orb negb andb has_char].
  assert (String.length (basename +:+ ".json") ≥ 5)%nat as Hlen
    by (rewrite length_append; cbn; lia).
  destruct (String.eqb_spec (basename +:+ ".json") "") as [He | _];
    [rewrite He in Hlen; cbn in Hlen; lia |].
  destruct (String.eqb_spec (basename +:+ ".json") ".") as [He | _];
    [rewrite He in Hlen; cbn in Hlen; lia |].
  reflexivity.
Qed.

Lemma source_collection_file_parent (output_dir : string) :
  parent (source_collection_file output_dir) = of_str output_dir.
Proof.
  unfold source_collection_file.
  apply parent_join, json_segment_one_part, stem_of_str_slash_free.
Qed.

(** X1: the artifact of a harvest lies directly in the output directory
    and is named after it: its parent is the output directory, as pathlib
    parses it, and its name is the stem of that directory followed by
    [.json], for every output directory string. *)
Theorem source_collection_file_layout (output_dir : string) :
  parent (source_collection_file output_dir) = of_str output_dir
  ∧ name (source_collection_file output_dir)
    = stem (of_str output_dir) +:+ ".json".
Proof.
  unfold source_collection_file.
  pose proof (json_segment_one_part _ (stem_of_str_slash_free output_dir)) as Hseg.
  split; [by apply parent_join | by apply name_join].
Qed.

(** * Further properties: the harvest *)


Lemma lookup_node_none (w : world) (p : Path) :
  lookup_node w p = None → fs w !! p = None.
Proof. unfold lookup_node. by destruct (parts p). Qed.

(** What [mkdir(parents=True, exist_ok=True)] can change, whether it
    succeeds or not: directories of the lineage appear where there was
    nothing. *)
Lemma mkdir_lineage_effects (ps : list Path) :
  ∀ w, remote (mkdir_lineage ps w).2 = remote w
       ∧ net (mkdir_lineage ps w).2 = net w
       ∧ out (mkdir_lineage ps w).2 = out w
       ∧ ∀ p, fs (mkdir_lineage ps w).2 !! p = fs w !! p
              ∨ (p ∈ ps ∧ fs w !! p = None
                 ∧ fs (mkdir_lineage ps w).2 !! p = Some Dir).
Proof.
  induction ps as [| p ps IH]; intros w.
  - cbn. repeat split. by left.
  - cbn [mkdir_lineage].
    destruct (lookup_node w p) as [[| c] |] eqn:Hp.
    + destruct (IH w) as (Hr & Hn & Ho & Hfs). repeat split; try done.
      intros q. destruct (Hfs q) as [? | (? & ? & ?)]; [by left | right].
      repeat split; try done. by right.
    + cbn. repeat split. by left.
    + destruct (IH (store w p Dir)) as (Hr & Hn & Ho & Hfs).
      repeat split; try done.
      pose proof (lookup_node_none _ _ Hp) as Hnone.
      intros q. cbn [fs store] in Hfs. destruct (decide (p = q)) as [<- | Hne].
      * right. split; [by left |]. split; [done |].
        destruct (Hfs p) as [Heq | (_ & Hnone' & _)].
        -- by rewrite Heq, lookup_insert_eq.
        -- by rewrite lookup_insert_eq in Hnone'.
      * destruct (Hfs q) as [Heq | (Hq1 & Hq2 & Hq3)].
        -- left. by rewrite Heq, lookup_insert_ne.
        -- right. rewrite lookup_insert_ne in Hq2 by done.
           repeat split; try done. by right.
Qed.


Lemma lineage_parts (p q : Path) :
  q ∈ lineage p → (List.length (parts q) ≤ List.length (parts p))%nat.
Proof.
  unfold lineage. intros (n & -> & Hn)%list_elem_of_fmap. cbn.
  rewrite length_firstn. lia.
Qed.


Lemma source_collection_file_parts (output_dir : string) :
  parts (source_collection_file output_dir)
  = parts (of_str output_dir) ++ [stem (of_str output_dir) +:+ ".json"].
Proof.
  unfold source_collection_file.
  by rewrite join_one_part
    by apply json_segment_one_part, stem_of_str_slash_free.
Qed.

Lemma source_collection_file_not_in_lineage (output_dir : string) :
  source_collection_file output_dir ∉ lineage (of_str output_dir).
Proof.
  intros Hin%lineage_parts. rewrite source_collection_file_parts in Hin.
  rewrite length_app in Hin. cbn in Hin. lia.
Qed.



Lemma warning_line (z : Z) :
  (if max_n_products <? z
   then [PStr ("WARNING: Number of products higher than "
               +:+ pretty max_n_products +:+ ": " +:+ pretty z)]
   else [])
  = too_many_warning z.
Proof. reflexivity. Qed.









Lemma requests_get_effects (url : string) (limit : json) (w : world) :
  (requests_get url limit w).2
  = mkWorld (fs w) (remote w) (net w ++ [HttpGet url limit]) (out w).
Proof. unfold requests_get. by destruct (remote w url limit). Qed.

Lemma probe_total_effects (psup_url : string) (w : world) :
  fs (probe_total psup_url w).2 = fs w
  ∧ remote (probe_total psup_url w).2 = remote w
  ∧ net (probe_total psup_url w).2 = net w ++ [HttpGet psup_url (JNum 0)].
Proof.
  unfold probe_total, requests_get. unfold_m.
  destruct (remote w psup_url (JNum 0)) as [| [|] [[| | | | | kvs] |]];
    cbn; try done.
  destruct (Json.assoc "total" kvs) as [[| b | z | | |] |]; cbn; try done.
  - by destruct (max_n_products <? (if b then 1 else 0)).
  - by destruct (max_n_products <? z).
Qed.

Lemma fetch_records_effects (psup_url : string) (limit : json) (w : world) :
  fs (fetch_records psup_url limit w).2 = fs w
  ∧ remote (fetch_records psup_url limit w).2 = remote w
  ∧ net (fetch_records psup_url limit w).2 = net w ++ [HttpGet psup_url limit].
Proof.
  unfold fetch_records, requests_get. unfold_m.
  destruct (remote w psup_url limit) as [| [|] [[| | | | | kvs] |]];
    cbn; try done.
  by destruct (Json.assoc "data" kvs).
Qed.

Lemma creates_only_refl (dirs : list Path) (file : Path) (w w' : world) :
  fs w' = fs w → creates_only dirs file w w'.
Proof. intros Hfs p _. left. by rewrite Hfs. Qed.

(** X4: whatever the service answers and whatever is on disk, a call of
    [download_collection] leaves the service as it was, sends no other
    query than the count query and one page query to the given URL, in
    this order, and never retrieves a file; on disk it creates nothing
    beside directories of the output lineage and the artifact.  The
    artifact is written only by a call that returns its path, and then
    holds a document built from the call's arguments; every other outcome
    (the bare [return] or an exception) leaves whatever was at the
    artifact path untouched. *)
Theorem download_collection_effects
    (collection_id psup_url metadata_schema output_dir : string)
    (overwrite : bool) (w : world) :
  let file := source_collection_file output_dir in
  let run := download_collection collection_id psup_url metadata_schema
               output_dir overwrite w in
  harvest_effects psup_url output_dir w run.2
  ∧ (∀ f, run.1 = Ret (Some f) →
          f = file
          ∧ ∃ n_products records,
              fs run.2 !! file
              = Some (File (JsonText (products_dict collection_id
                                        metadata_schema n_products records))))
  ∧ ((∀ f, run.1 ≠ Ret (Some f)) → fs run.2 !! file = fs w !! file).
Proof.
  intros file run. subst run. unfold download_collection. fold file.
  unfold harvest_effects.
  rewrite (bind_ret _ _ w w (bool_decide (is_Some (lookup_node w file))))
    by done.
  destruct (bool_decide (is_Some (lookup_node w file)) && negb overwrite).
  { cbn. split; [| split]; [| by intros f [=] | done].
    split; [done |]. split; [| by apply creates_only_refl].
    exists []. split; [by rewrite app_nil_r | by left]. }
  pose proof (probe_total_effects psup_url w) as (Hfs1 & Hr1 & Hn1).
  destruct (probe_total psup_url w) as [[n_slot | e] w1] eqn:Hprobe;
    cbn [fst snd] in Hfs1, Hr1, Hn1.
  2:{ rewrite (bind_raise _ _ _ _ _ Hprobe). cbn [fst snd].
      split; [| split]; [| by intros f [=] | by rewrite Hfs1].
      split; [done |]. split; [| by apply creates_only_refl].
      exists [HttpGet psup_url (JNum 0)]. split; [done | right; by left]. }
  rewrite (bind_ret _ _ _ _ _ Hprobe).
  destruct n_slot as [limit |].
  2:{ cbn. split; [| split]; [| by intros f [=] | by rewrite Hfs1].
      split; [done |]. split; [| by apply creates_only_refl].
      exists [HttpGet psup_url (JNum 0)]. split; [done | right; by left]. }
  rewrite (bind_ret (local _ _) _ w1 w1 limit) by done.
  pose proof (fetch_records_effects psup_url limit w1) as (Hfs2 & Hr2 & Hn2).
  rewrite Hfs1 in Hfs2. rewrite Hr1 in Hr2. rewrite Hn1, <- app_assoc in Hn2.
  cbn [app] in Hn2.
  assert (harvest_queries psup_url
            [HttpGet psup_url (JNum 0); HttpGet psup_url limit]) as Hq
    by (right; right; by exists limit).
  destruct (fetch_records psup_url limit w1) as [[records_slot | e] w2]
    eqn:Hfetch; cbn [fst snd] in Hfs2, Hr2, Hn2.
  2:{ rewrite (bind_raise _ _ _ _ _ Hfetch). cbn [fst snd].
      split; [| split]; [| by intros f [=] | by rewrite Hfs2].
      split; [done |]. split; [| by apply creates_only_refl]. by eexists. }
  rewrite (bind_ret _ _ _ _ _ Hfetch). unfold mkdir_parents.
  pose proof (mkdir_lineage_effects (lineage (of_str output_dir)) w2)
    as (Hr3 & Hn3 & _ & Hfs3).
  rewrite Hr2 in Hr3. rewrite Hn2 in Hn3.
  assert (fs (mkdir_lineage (lineage (of_str output_dir)) w2).2 !! file
          = fs w !! file) as Hkeep.
  { destruct (Hfs3 file) as [-> | (Hin & _)]; [by rewrite Hfs2 |].
    by apply source_collection_file_not_in_lineage in Hin. }
  assert (creates_only (lineage (of_str output_dir)) file w
            (mkdir_lineage (lineage (of_str output_dir)) w2).2) as Hdirs.
  { intros p _. rewrite <- Hfs2. apply Hfs3. }
  destruct (mkdir_lineage (lineage (of_str output_dir)) w2) as [[[] | e] w3]
    eqn:Hmk; cbn [fst snd] in Hr3, Hn3, Hkeep, Hdirs.
  2:{ rewrite (bind_raise _ _ _ _ _ Hmk). cbn [fst snd].
      split; [| split]; [| by intros f [=] | done].
      split; [done |]. split; [| done]. by eexists. }
  rewrite (bind_ret _ _ _ _ _ Hmk).
  rewrite (bind_ret (local _ _) _ w3 w3 limit) by done.
  destruct records_slot as [records |].
  2:{ cbn. split; [| split]; [| by intros f [=] | done].
      split; [done |]. split; [| done]. by eexists. }
  rewrite (bind_ret (local _ _) _ w3 w3 records) by done.
  unfold bind, write_json.
  assert (∀ e, harvest_effects psup_url output_dir w w3
               ∧ (∀ f, Raise (A := option Path) e = Ret (Some f) →
                       f = file
                       ∧ ∃ n_products records0,
                           fs w3 !! file
                           = Some (File (JsonText (products_dict collection_id
                                      metadata_schema n_products records0))))
               ∧ ((∀ f, Raise (A := option Path) e ≠ Ret (Some f)) →
                  fs w3 !! file = fs w !! file)) as Hfail.
  { intros e. split; [| split]; [| by intros f [=] | done].
    split; [done |]. split; [| done]. by eexists. }
  assert (harvest_effects psup_url output_dir w
            (store w3 file (File (JsonText (products_dict collection_id
                                  metadata_schema limit records))))
          ∧ (∀ f, Ret (Some file) = Ret (Some f) →
                  f = file
                  ∧ ∃ n_products records0,
                      fs (store w3 file (File (JsonText (products_dict
                            collection_id metadata_schema limit records))))
                        !! file
                      = Some (File (JsonText (products_dict collection_id
                                 metadata_schema n_products records0))))
          ∧ ((∀ f, Ret (Some file) ≠ Ret (Some f)) →
             fs (store w3 file (File (JsonText (products_dict collection_id
                                   metadata_schema limit records)))) !! file
             = fs w !! file)) as Hwritten.
  { split; [| split].
    - split; [done |]. split; [by eexists |].
      intros p Hp. cbn [fs store]. rewrite lookup_insert_ne by done.
      by apply Hdirs.
    - intros f [= <-]. split; [done |]. exists limit, records.
      cbn [fs store]. by rewrite lookup_insert_eq.
    - intros Hne. by destruct (Hne file). }
  destruct (lookup_node w3 file) as [[| c] |];
    [apply Hfail | destruct (is_dir w3 (parent file)).. ];
    cbn [fst snd]; (apply Hwritten || apply Hfail).
Qed.

Lemma download_collection_effects_witness :
  source_collection_file "source" = source_collection_file "source"
  ∧ ∃ n_products records,
      fs (download_collection "omega" Fixtures.psup_url "OMEGA_CUBE" "source"
            false Cases.fresh).2 !! source_collection_file "source"
      = Some (File (JsonText (products_dict "omega" "OMEGA_CUBE"
                                n_products records))).
Proof.
  apply (proj1 (proj2 (download_collection_effects "omega" Fixtures.psup_url
                         "OMEGA_CUBE" "source" false Cases.fresh))).
  vm_compute. reflexivity.
Defined.



(** * Further properties: reading the artifact *)

(** X6: when every stored record parses against the declared schema,
    [read_products_metadata] returns the parsed records, all of them and
    in the stored order, and prints the schema name and nothing else. *)
Theorem read_products_metadata_returns_all `{Schemas}
    (w : world) (file : Path) (schema : string) (dicts : list json)
    (products : list metadata) :
  stored_products w file schema dicts →
  Forall2 (parses schema) dicts products →
  read_products_metadata file w
  = (Ret (Some products),
     mkWorld (fs w) (remote w) (net w) (out w ++ [PStr (">> " +:+ schema)])).
Proof.
  intros Hstored Hall.
  rewrite (read_products_metadata_stored _ _ _ _ Hstored).
  exact (parse_products_all schema dicts products [] _ Hall).
Qed.

Lemma read_products_metadata_returns_all_witness :
  read_products_metadata (H := Fixtures.url_schemas) Fixtures.source_file
    (Fixtures.harvested Cases.two_cubes [])
  = (Ret (Some [Fixtures.data_url "ORB0018_6"; Fixtures.data_url "ORB0020_1"]),
     mkWorld (fs (Fixtures.harvested Cases.two_cubes [])) Fixtures.offline []
       [PStr ">> OMEGA_CUBE"]).
Proof.
  apply (read_products_metadata_returns_all (H := Fixtures.url_schemas)
           (Fixtures.harvested Cases.two_cubes []) Fixtures.source_file
           "OMEGA_CUBE" Cases.two_cubes).
  - unfold stored_products. do 4 eexists.
    repeat split; vm_compute; reflexivity.
  - repeat constructor.
Defined.



(** X8: a collection block that fails validation does not make
    [read_collection_metadata] raise: the error and the block are
    printed and [None] is returned.  [read_products_metadata] then reads
    the schema name of [None], and so do its callers: they end with an
    [AttributeError], having printed the same two items. *)
Theorem invalid_collection_block `{Schemas}
    (w : world) (file : Path) (kvs : list (string * json)) (cd : json)
    (e : exn) (overwrite : bool) :
  lookup_node w file = Some (File (JsonText (JObj kvs))) →
  Json.assoc "collection" kvs = Some cd →
  PSUP_Collection_init cd = Raise e →
  let w' := mkWorld (fs w) (remote w) (net w) (out w ++ [PExn e; PJson cd]) in
  read_collection_metadata file w = (Ret None, w')
  ∧ read_products_metadata file w = (Raise (AttributeError "schema_name"), w')
  ∧ download_data_files file overwrite w
    = (Raise (AttributeError "schema_name"), w').
Proof.
  intros Hfile Hcd Hinit w'.
  assert (read_collection_metadata file w = (Ret None, w')) as Hrc.
  { unfold read_collection_metadata, read_json. unfold_m.
    rewrite Hfile. cbn. rewrite Hcd, Hinit. cbn.
    by rewrite <- app_assoc. }
  assert (read_products_metadata file w
          = (Raise (AttributeError "schema_name"), w')) as Hrp.
  { unfold read_products_metadata. by rewrite (bind_ret _ _ _ _ _ Hrc). }
  split; [done |]. split; [done |].
  unfold download_data_files. by rewrite (bind_raise _ _ _ _ _ Hrp).
Qed.

Lemma invalid_collection_block_witness :
  let w' := mkWorld (fs Cases.uncounted) Fixtures.offline []
              [PExn ValueError;
               PJson (JObj [("id", JStr "omega");
                            ("schema_name", JStr "OMEGA_CUBE");
                            ("n_products", JNull)])] in
  read_collection_metadata (H := Fixtures.url_schemas) Fixtures.source_file
    Cases.uncounted = (Ret None, w')
  ∧ read_products_metadata (H := Fixtures.url_schemas) Fixtures.source_file
      Cases.uncounted = (Raise (AttributeError "schema_name"), w')
  ∧ download_data_files (H := Fixtures.url_schemas) Fixtures.source_file false
      Cases.uncounted = (Raise (AttributeError "schema_name"), w').
Proof.
  apply (invalid_collection_block (H := Fixtures.url_schemas) Cases.uncounted
           Fixtures.source_file
           [("collection", JObj [("id", JStr "omega");
                                 ("schema_name", JStr "OMEGA_CUBE");
                                 ("n_products", JNull)]);
            ("products", JArr Cases.two_cubes)]).
  - vm_compute. reflexivity.
  - reflexivity.
  - reflexivity.
Defined.

(** X9: a JSON object without a 'collection' key is rejected as no
    source-collection file by both readers, before anything is printed;
    one with a valid collection block and no 'products' key is rejected
    by [read_products_metadata] with the same exception, after the schema
    name has been printed. *)
Theorem not_a_source_collection_file `{Schemas}
    (w : world) (file : Path) (kvs : list (string * json)) :
  lookup_node w file = Some (File (JsonText (JObj kvs))) →
  (Json.assoc "collection" kvs = None →
   read_collection_metadata file w = (Raise not_a_source_file, w)
   ∧ read_products_metadata file w = (Raise not_a_source_file, w))
  ∧ (∀ cd c, Json.assoc "collection" kvs = Some cd →
             PSUP_Collection_init cd = Ret c →
             Json.assoc "products" kvs = None →
             read_products_metadata file w
             = (Raise not_a_source_file,
                mkWorld (fs w) (remote w) (net w)
                  (out w ++ [PStr (">> " +:+ schema_name c)]))).
Proof.
  intros Hfile. split.
  - intros Hnone.
    assert (read_collection_metadata file w = (Raise not_a_source_file, w))
      as Hrc.
    { unfold read_collection_metadata, read_json. unfold_m.
      rewrite Hfile. cbn. by rewrite Hnone. }
    split; [done |].
    unfold read_products_metadata. by rewrite (bind_raise _ _ _ _ _ Hrc).
  - intros cd c Hcd Hinit Hnone.
    unfold read_products_metadata, read_collection_metadata, read_json.
    unfold_m. rewrite Hfile. cbn. rewrite Hcd, Hinit. cbn.
    unfold lookup_node in *. cbn. rewrite Hfile. cbn. by rewrite Hnone.
Qed.

Lemma not_a_source_collection_file_witness :
  read_collection_metadata (H := Fixtures.url_schemas) Fixtures.source_file
    Cases.stray = (Raise not_a_source_file, Cases.stray)
  ∧ read_products_metadata (H := Fixtures.url_schemas) Fixtures.source_file
      Cases.stray = (Raise not_a_source_file, Cases.stray).
Proof.
  refine (proj1 (not_a_source_collection_file (H := Fixtures.url_schemas)
                   Cases.stray Fixtures.source_file
                   [("type", JStr "FeatureCollection")] _) _).
  - vm_compute. reflexivity.
  - reflexivity.
Defined.

(** * Further properties: the download loop *)

Section DownloadMore.
Context `{Schemas}.

Lemma length_reports (w : world) (file : Path) (overwrite : bool)
    (products : list metadata) :
  List.length (flat_map (report w file overwrite) products)
  = (2 * List.length products)%nat.
Proof. induction products as [| p ps IH]; cbn; [done | rewrite IH; lia]. Qed.

Lemma parent_data_dir (file : Path) : parent (data_dir file) = parent file.
Proof. unfold data_dir. by apply parent_join. Qed.

Lemma data_dir_has_parts (file : Path) : parts (data_dir file) ≠ [].
Proof.
  unfold data_dir. rewrite join_one_part by done. cbn [parts].
  intros [_ Heq]%app_eq_nil. discriminate Heq.
Qed.

Lemma exists_false_spelled (w : world) (p : Path) :
  exists_ p w = (Ret false, w) → lookup_node w p = None.
Proof.
  unfold exists_, probe. destruct (lookup_node w p) as [n |]; [| done].
  intros Heq. discriminate Heq.
Qed.

Lemma exists_same_disk (w w' : world) (p : Path) (b : bool) :
  fs w' = fs w → exists_ p w = (Ret b, w) → exists_ p w' = (Ret b, w').
Proof.
  intros Hfs. unfold exists_. rewrite (probe_same_disk w w' p Hfs).
  destruct (probe w p); [| done]. by intros [= ->].
Qed.

(** The first product of a batch, when the data directory is missing. *)
Lemma download_one_creates (w : world) (file : Path) (overwrite : bool)
    (p : metadata) :
  exists_ (data_dir file) w = (Ret false, w) →
  is_dir w (parent file) = true →
  probe_ok (store w (data_dir file) Dir) (local_path file p) = true →
  download_one file overwrite p w
  = (Ret tt,
     mkWorld (<[data_dir file := Dir]> (fs w)) (remote w) (net w)
       (out w ++ report (store w (data_dir file) Dir) file overwrite p)).
Proof.
  intros Hex Hparent Hok. unfold download_one.
  pose proof (exists_false_spelled _ _ Hex) as Hnone.
  assert (mkdir (data_dir file) w = (Ret tt, store w (data_dir file) Dir))
    as Hmk.
  { unfold mkdir. by rewrite Hnone, parent_data_dir, Hparent. }
  rewrite (bind_ret _ _ _ _ _ Hex). cbn [negb].
  rewrite (bind_ret _ _ _ _ _ Hmk).
  rewrite (bind_ret (print _) _ _ _ tt) by reflexivity.
  set (w1 := mkWorld _ _ _ _).
  assert (fs w1 = fs (store w (data_dir file) Dir)) as Hfs by done.
  rewrite (bind_ret _ _ _ _ _
             (exists_answer w1 _
                (eq_trans (probe_ok_same_disk _ w1 _ Hfs) Hok))).
  rewrite (there_same_disk _ w1 _ Hfs).
  unfold report, verdict, report_lines, local_path, print. subst w1.
  destruct (negb _ || overwrite); cbn [fs remote net out store];
    by rewrite <- app_assoc.
Qed.

Lemma download_data_files_batch (w : world) (file : Path) (overwrite : bool)
    (schema : string) (dicts : list json) (products : list metadata) :
  stored_products w file schema dicts →
  Forall2 (parses schema) dicts products →
  products ≠ [] →
  download_data_files file overwrite w
  = download_each file overwrite (take MAX_N_PRODUCTS products)
      (mkWorld (fs w) (remote w) (net w) (out w ++ [PStr (">> " +:+ schema)])).
Proof.
  intros Hstored Hall Hne. unfold download_data_files.
  rewrite (bind_ret _ _ _ _ _
             (eq_trans (read_products_metadata_stored _ _ _ _ Hstored)
                (parse_products_all schema dicts products [] _ Hall))).
  by destruct products.
Qed.

End DownloadMore.

(** X10: with no product to download, [download_data_files] only prints.
    On a stored document with an empty product list it prints the schema
    name and that no products were found.  On one with a record that
    fails validation it returns normally as well, network and disk
    untouched, and the last thing printed is again that no products were
    found: the records that do parse are not downloaded. *)
Theorem download_data_files_nothing_to_download `{Schemas}
    (w : world) (file : Path) (overwrite : bool) (schema : string)
    (dicts : list json) :
  stored_products w file schema dicts →
  (dicts = [] →
   download_data_files file overwrite w
   = (Ret tt,
      mkWorld (fs w) (remote w) (net w)
        (out w ++ [PStr (">> " +:+ schema); no_products_message file])))
  ∧ (Exists (fails_validation schema) dicts →
     (download_data_files file overwrite w).1 = Ret tt
     ∧ same_store w (download_data_files file overwrite w).2
     ∧ List.last (out (download_data_files file overwrite w).2) (PStr "")
       = no_products_message file).
Proof.
  intros Hstored. split.
  - intros ->. unfold download_data_files.
    rewrite (bind_ret _ _ _ _ _
               (eq_trans (read_products_metadata_stored _ _ _ _ Hstored)
                  (parse_products_all schema [] [] [] _ (List.Forall2_nil _)))).
    unfold print. cbn [app]. cbn [fs remote net out]. by rewrite <- app_assoc.
  - intros Hbad. unfold download_data_files, bind.
    pose proof (read_products_metadata_frame file w) as Hframe.
    pose proof (read_products_metadata_stored _ _ _ _ Hstored) as Hread.
    pose proof (parse_products_fails schema dicts Hbad []
                  (mkWorld (fs w) (remote w) (net w)
                     (out w ++ [PStr (">> " +:+ schema)]))) as Hnone.
    rewrite <- Hread in Hnone.
    destruct (read_products_metadata file w) as [r w1].
    cbn [fst snd] in Hnone, Hframe. subst r.
    unfold print. cbn [fst snd fs remote net out]. split; [done |].
    split; [exact Hframe |]. apply last_last.
Qed.

Lemma download_data_files_nothing_to_download_witness :
  download_data_files (H := Fixtures.url_schemas) Fixtures.source_file true
    (Fixtures.harvested [] [])
  = (Ret tt,
     mkWorld (fs (Fixtures.harvested [] [])) Fixtures.offline []
       [PStr ">> OMEGA_CUBE";
        PStr "No products found in PosixPath('source/source.json')."]).
Proof.
  refine (proj1 (download_data_files_nothing_to_download
                   (H := Fixtures.url_schemas) (Fixtures.harvested [] [])
                   Fixtures.source_file true "OMEGA_CUBE" [] _) _).
  - unfold stored_products. do 4 eexists.
    repeat split; vm_compute; reflexivity.
  - reflexivity.
Defined.

(** X11: whatever is stored, [download_data_files] leaves the service
    and the network log as they were: it sends no query and retrieves no
    file.  On disk nothing changes except, at most, that the data
    directory appears; in particular no product file is created,
    replaced or removed, with or without [overwrite]. *)
Theorem download_data_files_touches_only_data_dir `{Schemas}
    (file : Path) (overwrite : bool) (w : world) :
  let w' := (download_data_files file overwrite w).2 in
  net w' = net w
  ∧ remote w' = remote w
  ∧ (∀ p, p ≠ data_dir file → fs w' !! p = fs w !! p)
  ∧ (fs w' !! data_dir file = fs w !! data_dir file
     ∨ fs w' !! data_dir file = Some Dir).
Proof.
  intros w'. subst w'.
  destruct (download_data_files_effects file overwrite w) as (Hn & Hr & Hfs).
  split; [done |]. split; [done |]. destruct Hfs as [-> | ->].
  - split; [done | by left].
  - split.
    + intros p Hp. by rewrite lookup_insert_ne.
    + right. by rewrite lookup_insert_eq.
Qed.

(** X12: the report of a batch.  When every stored record parses, there
    is at least one, and the data directory exists, [download_data_files]
    leaves disk and network as they were and reports the first
    [MAX_N_PRODUCTS] products in the stored order.  If [exists()]
    answers for the file of each of them, the call returns normally and
    has printed the schema name followed by two items for each: the
    text naming the file and its verdict, EXISTS for a file that exists
    when [overwrite] is false and DONE otherwise; products beyond the
    tenth are not reported.  If [exists()] raises for the file of one of
    them, the first such, the call ends with that error, having printed
    the reports of the products before it and the text naming this
    one. *)
Theorem download_data_files_report `{Schemas}
    (w : world) (file : Path) (overwrite : bool) (schema : string)
    (dicts : list json) (products : list metadata) :
  stored_products w file schema dicts →
  Forall2 (parses schema) dicts products →
  products ≠ [] →
  there w (data_dir file) = true →
  (Forall (λ q, probe_ok w (local_path file q) = true)
     (take MAX_N_PRODUCTS products) →
   download_data_files file overwrite w
   = (Ret tt,
      mkWorld (fs w) (remote w) (net w)
        (out w ++ PStr (">> " +:+ schema)
               :: flat_map (report w file overwrite)
                    (take MAX_N_PRODUCTS products)))
   ∧ List.length (flat_map (report w file overwrite)
                    (take MAX_N_PRODUCTS products))
     = (2 * (List.length products `min` MAX_N_PRODUCTS))%nat)
  ∧ (∀ (j : nat) (q : metadata) (e : exn),
       (j < MAX_N_PRODUCTS)%nat →
       products !! j = Some q →
       Forall (λ q, probe_ok w (local_path file q) = true) (take j products) →
       probe w (local_path file q) = Raise e →
       download_data_files file overwrite w
       = (Raise e,
          mkWorld (fs w) (remote w) (net w)
            (out w ++ PStr (">> " +:+ schema)
                   :: flat_map (report w file overwrite) (take j products)
                   ++ [PStr ("Downloading "
                             +:+ product_fname (get_download_url q)
                             +:+ " ...")]))).
Proof.
  intros Hstored Hall Hne Hdir.
  rewrite (download_data_files_batch _ _ _ _ _ _ Hstored Hall Hne).
  set (w1 := mkWorld (fs w) (remote w) (net w)
               (out w ++ [PStr (">> " +:+ schema)])).
  assert (fs w1 = fs w) as Hfs by done.
  assert (there w1 (data_dir file) = true) as Hdir1
    by (by rewrite (there_same_disk w w1)).
  assert (∀ l, Forall (λ q, probe_ok w (local_path file q) = true) l →
               Forall (λ q, probe_ok w1 (local_path file q) = true) l)
    as Hsame.
  { intros l Hl. eapply Forall_impl; [exact Hl |]. intros q Hq. cbn beta.
    by rewrite (probe_ok_same_disk w w1). }
  split.
  - intros Hok. split.
    + rewrite download_each_in_data_dir by auto.
      subst w1. cbn [fs remote net out]. rewrite <- app_assoc. cbn [app].
      by rewrite (reports_same_disk w).
    + rewrite length_reports, length_take. lia.
  - intros j q e Hj Hq Hbefore Hrefused.
    set (batch := take MAX_N_PRODUCTS products).
    assert (batch = take j products ++ q :: drop (S j) batch) as ->.
    { rewrite <- (take_drop j batch) at 1. f_equal.
      - subst batch. rewrite take_take. f_equal. lia.
      - assert (batch !! j = Some q) as Hbq
          by (subst batch; by rewrite lookup_take_lt).
        by rewrite (drop_S batch q j Hbq). }
    rewrite download_each_app.
    rewrite (bind_ret _ _ _ _ _
               (download_each_in_data_dir file overwrite (take j products) w1
                  Hdir1 (Hsame _ Hbefore))).
    set (w2 := mkWorld _ _ _ _).
    assert (fs w2 = fs w) as Hfs2 by done.
    cbn [download_each].
    rewrite (bind_raise _ _ _ _ _
               (download_one_refused w2 file overwrite q e
                  (eq_trans (there_same_disk w w2 _ Hfs2) Hdir)
                  (eq_trans (probe_same_disk w w2 _ Hfs2) Hrefused))).
    subst w2 w1. cbn [fs remote net out].
    rewrite (reports_same_disk w) by done.
    by rewrite <- !app_assoc.
Qed.

Lemma download_data_files_report_witness :
  download_data_files (H := Fixtures.url_schemas) Fixtures.source_file false
    Cases.second_in_place
  = (Ret tt,
     mkWorld (fs Cases.second_in_place) Fixtures.offline []
       [PStr ">> OMEGA_CUBE";
        PStr "Downloading ORB0018_6.nc ..."; PStr "DONE";
        PStr "Downloading ORB0020_1.nc ..."; PStr "EXISTS"]).
Proof.
  refine (proj1 (proj1 (download_data_files_report (H := Fixtures.url_schemas)
                          Cases.second_in_place Fixtures.source_file false
                          "OMEGA_CUBE" Cases.two_cubes
                          [Fixtures.data_url "ORB0018_6";
                           Fixtures.data_url "ORB0020_1"]
                          _ _ _ _) _)).
  - unfold stored_products. do 4 eexists.
    repeat split; vm_compute; reflexivity.
  - repeat constructor.
  - discriminate.
  - vm_compute. reflexivity.
  - repeat constructor.
Defined.

(** X13: the data directory.  When every stored record parses, there is
    at least one, [exists()] answers that the data directory is not
    there, the artifact's directory exists and, with the data directory
    in place, [exists()] answers for the file of each of the first
    [MAX_N_PRODUCTS] products, the first product makes
    [download_data_files] create the data directory beside the artifact:
    the call returns normally, the data directory is the one change on
    disk, and the report is that of X12, read on the disk with the
    directory in place.  A product whose file name is ".." is thus
    reported as existing: it names the artifact's directory. *)
Theorem download_data_files_creates_data_dir `{Schemas}
    (w : world) (file : Path) (overwrite : bool) (schema : string)
    (dicts : list json) (products : list metadata) :
  stored_products w file schema dicts →
  Forall2 (parses schema) dicts products →
  products ≠ [] →
  exists_ (data_dir file) w = (Ret false, w) →
  is_dir w (parent file) = true →
  Forall (λ q, probe_ok (store w (data_dir file) Dir) (local_path file q) = true)
    (take MAX_N_PRODUCTS products) →
  download_data_files file overwrite w
  = (Ret tt,
     mkWorld (<[data_dir file := Dir]> (fs w)) (remote w) (net w)
       (out w ++ PStr (">> " +:+ schema)
              :: flat_map (report (store w (data_dir file) Dir) file overwrite)
                   (take MAX_N_PRODUCTS products))).
Proof.
  intros Hstored Hall Hne Hnone Hparent Hok.
  rewrite (download_data_files_batch _ _ _ _ _ _ Hstored Hall Hne).
  destruct products as [| p ps]; [done |].
  change (take MAX_N_PRODUCTS (p :: ps)) with (p :: take 9 ps) in *.
  apply Forall_cons in Hok as [Hp Hrest].
  cbn [download_each].
  set (w1 := mkWorld (fs w) (remote w) (net w)
               (out w ++ [PStr (">> " +:+ schema)])).
  assert (fs w1 = fs w) as Hfs by done.
  assert (fs (store w1 (data_dir file) Dir) = fs (store w (data_dir file) Dir))
    as Hfs' by done.
  rewrite (bind_ret _ _ _ _ _
             (download_one_creates w1 file overwrite p
                (exists_same_disk w w1 _ false Hfs Hnone) Hparent
                (eq_trans (probe_ok_same_disk _ _ _ Hfs') Hp))).
  set (w2 := mkWorld _ _ _ _).
  assert (fs w2 = fs (store w (data_dir file) Dir)) as Hfs2 by done.
  rewrite download_each_in_data_dir.
  - subst w2 w1. cbn [fs remote net out flat_map].
    rewrite (reports_same_disk (store w (data_dir file) Dir)) by done.
    rewrite (verdict_report_same_disk (store w (data_dir file) Dir)) by done.
    rewrite <- !app_assoc. reflexivity.
  - apply there_spelled. unfold lookup_node. cbn [fs w2].
    pose proof (data_dir_has_parts file) as Hparts.
    destruct (parts (data_dir file)); [done |].
    rewrite lookup_insert_eq. by eexists.
  - eapply Forall_impl; [exact Hrest |]. intros q Hq. cbn beta.
    by rewrite (probe_ok_same_disk _ w2 _ Hfs2).
Qed.

Lemma download_data_files_creates_data_dir_witness :
  download_data_files (H := Fixtures.url_schemas) Fixtures.source_file false
    Cases.dotdot_first
  = (Ret tt,
     mkWorld (<[of_str "source/data" := Dir]> (fs Cases.dotdot_first))
       Fixtures.offline []
       [PStr ">> OMEGA_CUBE";
        PStr "Downloading .. ..."; PStr "EXISTS";
        PStr "Downloading ORB0018_6.nc ..."; PStr "DONE"]).
Proof.
  apply (download_data_files_creates_data_dir (H := Fixtures.url_schemas)
           Cases.dotdot_first Fixtures.source_file false "OMEGA_CUBE"
           [Fixtures.record_of "http://psup.example/data/..";
            Fixtures.record_of (Fixtures.data_url "ORB0018_6")]
           ["http://psup.example/data/.."; Fixtures.data_url "ORB0018_6"]).
  - unfold stored_products. do 4 eexists.
    repeat split; vm_compute; reflexivity.
  - repeat constructor.
  - discriminate.
  - vm_compute. reflexivity.
  - vm_compute. reflexivity.
  - repeat constructor.
Defined.

(** * Further properties: file names *)

Lemma substring_all (s : string) : String.substring 0 (String.length s) s = s.
Proof. induction s as [| c s IH]; cbn; [done | by rewrite IH]. Qed.

Lemma substring_prefix (s t : string) :
  String.substring 0 (String.length s) (s +:+ t) = s.
Proof.
  induction s as [| c s IH]; [by destruct t |].
  rewrite append_cons. cbn. by rewrite IH.
Qed.

Lemma drop_head (c : ascii) (s : string) : Str.drop 1 (String c s) = s.
Proof.
  unfold Str.drop. change (Z.to_nat 1) with 1%nat. cbn.
  rewrite Nat.sub_0_r. apply substring_all.
Qed.

Lemma drop_two (c d : ascii) (s : string) :
  Str.drop 2 (String c (String d s)) = s.
Proof.
  unfold Str.drop. change (Z.to_nat 2) with 2%nat. cbn.
  rewrite Nat.sub_0_r. apply substring_all.
Qed.

Lemma starts_with_slash_inv (s : string) :
  Str.starts_with "/" s = true → ∃ t, s = String slash t.
Proof.
  destruct s as [| c s]; [done |].
  change (Str.starts_with "/" (String c s))
    with (if ascii_dec "/" c then String.prefix "" s else false).
  destruct (ascii_dec "/" c) as [<- | _]; [| done]. by exists s.
Qed.

Lemma starts_with_two_slashes_inv (s : string) :
  Str.starts_with "//" s = true → ∃ t, s = String slash (String slash t).
Proof.
  destruct s as [| c s]; [done |].
  change (Str.starts_with "//" (String c s))
    with (if ascii_dec "/" c then Str.starts_with "/" s else false).
  destruct (ascii_dec "/" c) as [<- | _]; [| done].
  intros [t ->]%starts_with_slash_inv. by exists t.
Qed.

Lemma last_cons_nonempty {A} (x d : A) (l : list A) :
  l ≠ [] → List.last (x :: l) d = List.last l d.
Proof. by destruct l. Qed.

Lemma split_slash_head (s : string) :
  Str.split slash (String slash s) = EmptyString :: Str.split slash s.
Proof. reflexivity. Qed.

(** The last piece of a string is the last piece of what [splitroot]
    leaves of it. *)
Lemma last_split_splitroot (s : string) :
  List.last (Str.split slash (splitroot s).2) EmptyString
  = List.last (Str.split slash s) EmptyString.
Proof.
  unfold splitroot.
  destruct (Str.starts_with "/" s) eqn:H1; cbn [negb]; [| done].
  destruct (starts_with_slash_inv s H1) as [t ->].
  destruct (negb (Str.starts_with "//" (String slash t))
            || Str.starts_with "///" (String slash t)) eqn:H2; cbn [snd].
  - rewrite drop_head, split_slash_head.
    by rewrite last_cons_nonempty by apply split_nonempty.
  - apply orb_false_iff in H2 as [H2 _]. apply negb_false_iff in H2.
    destruct (starts_with_two_slashes_inv _ H2) as [u Hu].
    injection Hu as ->. rewrite drop_two, !split_slash_head.
    by rewrite !last_cons_nonempty by (done || apply split_nonempty).
Qed.

Lemma last_filter {A} (f : A → bool) (d : A) (l : list A) :
  l ≠ [] → f (List.last l d) = true →
  List.filter f l ≠ [] ∧ List.last (List.filter f l) d = List.last l d.
Proof.
  induction l as [| x l IH]; [done |]. intros _ Hlast.
  destruct l as [| y l].
  - cbn in *. by rewrite Hlast.
  - destruct IH as [Hne Heq]; [done | done |].
    change (List.last (x :: y :: l) d) with (List.last (y :: l) d).
    change (List.filter f (x :: y :: l))
      with (if f x then x :: List.filter f (y :: l) else List.filter f (y :: l)).
    destruct (f x); [| done].
    split; [done |]. by rewrite last_cons_nonempty.
Qed.

Lemma one_part_long (s : string) :
  has_char slash s = false → (2 ≤ String.length s)%nat → one_part s = true.
Proof.
  intros Hs Hlen. unfold one_part. rewrite Hs.
  destruct s as [| c [| d s]]; cbn in Hlen; try lia.
  cbn. by destruct (Ascii.eqb c ".").
Qed.

(** [Path(url).name] is [url.split('/')[-1]] when the latter is a
    regular segment. *)
Lemma name_of_str (url : string) :
  one_part (product_fname url) = true →
  name (of_str url) = product_fname url.
Proof.
  intros Hseg. unfold name, of_str, product_fname, Str.last in *.
  pose proof (last_split_splitroot url) as Hlast.
  destruct (splitroot url) as [r rel]. cbn [snd parts] in *.
  rewrite <- Hlast in *.
  apply last_filter; [apply split_nonempty |].
  unfold one_part in Hseg. by apply andb_true_iff in Hseg as [[_ ->]%andb_true_iff ->].
Qed.

(** The pieces of a string with a separator in it: more than one, the
    last being the last piece of what follows the separator. *)
Lemma split_app (sep : ascii) (s t : string) (d : string) :
  ∃ w ws, Str.split sep (s +:+ String sep t) = w :: ws ∧ ws ≠ []
          ∧ List.last ws d = List.last (Str.split sep t) d.
Proof.
  induction s as [| c s (w & ws & Heq & Hne & Hlast)].
  - exists EmptyString, (Str.split sep t).
    change (Str.split sep ("" +:+ String sep t))
      with (if Ascii.eqb sep sep then EmptyString :: Str.split sep t
            else match Str.split sep t with
                 | [] => [String sep EmptyString]
                 | w :: ws => String sep w :: ws
                 end).
    rewrite Ascii.eqb_refl. split; [done |]. split; [apply split_nonempty | done].
  - rewrite append_cons. cbn [Str.split]. rewrite Heq.
    destruct (Ascii.eqb c sep).
    + exists EmptyString, (w :: ws). split; [done |]. split; [done |].
      by rewrite last_cons_nonempty.
    + by exists (String c w), ws.
Qed.

Lemma product_fname_app (prefix seg : string) :
  has_char slash seg = false →
  product_fname (prefix +:+ "/" +:+ seg) = seg.
Proof.
  intros Hseg. unfold product_fname, Str.last.
  destruct (split_app slash prefix seg EmptyString) as (w & ws & Heq & Hne & Hlast).
  change (prefix +:+ "/" +:+ seg) with (prefix +:+ String slash seg).
  rewrite Heq, last_cons_nonempty, Hlast by done.
  by rewrite split_whole.
Qed.

Lemma rfind_from_none (c : ascii) (s : string) :
  has_char c s = false → ∀ i, Str.rfind_from c s i = -1.
Proof.
  induction s as [| d s IH]; [done |]. cbn.
  intros [Hd Hs]%orb_false_iff i. by rewrite (IH Hs), Hd.
Qed.

(** The last occurrence of a character. *)
Lemma rfind_from_last (c : ascii) (s t : string) :
  has_char c t = false →
  ∀ i, 0 ≤ i → Str.rfind_from c (s +:+ String c t) i = i + Str.len s.
Proof.
  intros Ht. induction s as [| d s IH]; intros i Hi.
  - change ("" +:+ String c t) with (String c t). cbn [Str.rfind_from].
    rewrite (rfind_from_none c t Ht), Ascii.eqb_refl. cbn. unfold Str.len. cbn. lia.
  - rewrite append_cons. cbn [Str.rfind_from].
    rewrite IH by lia. unfold Str.len. cbn [String.length].
    destruct (Z.eqb_spec (i + 1 + Z.of_nat (String.length s)) (-1)); lia.
Qed.

(** [Path(...).stem] of a name with an extension. *)
Lemma stem_with_extension (p : Path) (base ext : string) :
  name p = base +:+ "." +:+ ext →
  base ≠ EmptyString → ext ≠ EmptyString → has_char dot ext = false →
  stem p = base.
Proof.
  intros Hname Hbase Hext Hdot. unfold stem. rewrite Hname.
  change (base +:+ "." +:+ ext) with (base +:+ String dot ext).
  unfold Str.rfind. rewrite rfind_from_last by (done || lia).
  assert (0 < Str.len base) as Hb.
  { unfold Str.len. destruct base; [done | cbn; lia]. }
  assert (Str.len (base +:+ String dot ext) = Str.len base + 1 + Str.len ext)
    as Hlen.
  { unfold Str.len. rewrite length_append. cbn [String.length]. lia. }
  assert (0 < Str.len ext) as He.
  { unfold Str.len. destruct ext; [done | cbn; lia]. }
  rewrite Hlen.
  rewrite (proj2 (Z.ltb_lt _ _)) by lia. rewrite (proj2 (Z.ltb_lt _ _)) by lia.
  cbn [andb]. unfold Str.take, Str.len. rewrite Z.add_0_l, Nat2Z.id.
  apply substring_prefix.
Qed.

(** * Further properties: the transformer *)

Import OmegaCubeStac.

(** X14: the transformer looks for the NetCDF file of a record where the
    download step places it.  For a product whose download URL is the
    [download_nc] of the record and ends in a regular file name, the path
    [get_geometry] and [get_properties] probe under the harvest's output
    directory is the local path [download_data_files] reports on for the
    artifact of that directory. *)
Theorem netcdf_file_where_downloaded `{S : Schemas} `{L : Labtools}
    (record : OMEGA_Cube_Record) (p : Psup.metadata) (output_dir : string) :
  get_download_url p = download_nc record →
  one_part (product_fname (download_nc record)) = true →
  netcdf_file_of record output_dir
  = local_path (source_collection_file output_dir) p.
Proof.
  intros Hurl Hseg. unfold netcdf_file_of, local_path, data_dir.
  by rewrite source_collection_file_parent, Hurl, name_of_str.
Qed.

Lemma netcdf_file_where_downloaded_witness :
  netcdf_file_of
    (Fixtures.cube (Fixtures.cube_tools "item" Fixtures.broken_extractor)
       (λ z, of_Z z) tt) "source"
  = local_path (H := Fixtures.url_schemas) (source_collection_file "source")
      (Fixtures.data_url "ORB0018_6").
Proof.
  apply (netcdf_file_where_downloaded (S := Fixtures.url_schemas)
           (Fixtures.cube (Fixtures.cube_tools "item" Fixtures.broken_extractor)
              (λ z, of_Z z) tt)
           (Fixtures.data_url "ORB0018_6") "source").
  - reflexivity.
  - reflexivity.
Defined.

(** X15: the item id is [OMEGA_L2_] followed by the file name of the
    download URL without its extension: for a URL that ends, after a
    slash, in a name [base.ext] with a non-empty base and a non-empty
    extension without a dot, the id is [OMEGA_L2_base], whatever precedes
    the slash and whatever the definition is. *)
Theorem get_item_id_of_url `{L : Labtools} `{S : !Stac L}
    (record : OMEGA_Cube_Record) (definition : option CollectionDefinition)
    (prefix base ext : string) :
  download_nc record = prefix +:+ "/" +:+ base +:+ "." +:+ ext →
  base ≠ EmptyString → has_char slash base = false →
  ext ≠ EmptyString → has_char slash ext = false → has_char dot ext = false →
  get_item_id record definition = "OMEGA_L2_" +:+ base.
Proof.
  intros Hurl Hbase Hsb Hext Hse Hde. unfold get_item_id. f_equal.
  assert (has_char slash (base +:+ "." +:+ ext) = false) as Hs
    by (by rewrite !has_char_app, Hsb, Hse).
  assert (product_fname (download_nc record) = base +:+ "." +:+ ext) as Hname
    by (rewrite Hurl; by apply product_fname_app).
  apply (stem_with_extension _ base ext); try done.
  rewrite name_of_str; [done |]. rewrite Hname.
  apply one_part_long; [done |]. rewrite !length_append.
  destruct base; [done | cbn; lia].
Qed.

Lemma get_item_id_of_url_witness :
  get_item_id (S := Cases.cube_stac _ Cases.broken_properties)
    (Fixtures.cube (Fixtures.cube_tools "item" Fixtures.broken_extractor)
       (λ z, of_Z z) tt) None
  = "OMEGA_L2_ORB0018_6".
Proof.
  apply (get_item_id_of_url (S := Cases.cube_stac _ Cases.broken_properties)
           (Fixtures.cube (Fixtures.cube_tools "item" Fixtures.broken_extractor)
              (λ z, of_Z z) tt) None
           "http://psup.example/data" "ORB0018_6" "nc");
    (reflexivity || discriminate).
Defined.

(** X16: the longitudes of a bounding box are in range.  When the four
    coordinates of a record convert to floats and the two longitudes are
    finite, [get_bbox] returns west, south, east and north in this order,
    with both longitudes in the closed interval from -180 to 180 and the
    latitudes as converted. *)
Theorem get_bbox_longitudes_in_range `{L : Labtools}
    (record : OMEGA_Cube_Record) (definition : option Definition_)
    (west south east north : float) :
  py_float (westernmost_longitude record) = Ret west →
  py_float (minimum_latitude record) = Ret south →
  py_float (easternmost_longitude record) = Ret east →
  py_float (maximum_latitude record) = Ret north →
  valid west = true → is_finite west = true →
  valid east = true → is_finite east = true →
  ∃ west' east',
    get_bbox record definition = Ret [west'; south; east'; north]
    ∧ leb (SFopp c180) west' = true ∧ leb west' c180 = true
    ∧ leb (SFopp c180) east' = true ∧ leb east' c180 = true.
Proof.
  intros Hw Hs He Hn Hvw Hfw Hve Hfe.
  exists (normalize_longitude west), (normalize_longitude east).
  split; [unfold get_bbox; by rewrite Hw, Hs, He, Hn |].
  destruct (normalize_longitude_good west (good_of_valid west Hvw Hfw))
    as [Hgw Hrw].
  destruct (normalize_longitude_good east (good_of_valid east Hve Hfe))
    as [Hge Hre].
  rewrite !leb_good by (done || by vm_compute).
  change (scaled (SFopp c180)) with (- scaled c180). rewrite scaled_c180.
  repeat split; apply Z.leb_le; lia.
Qed.

Lemma get_bbox_longitudes_in_range_witness :
  ∃ west' east',
    get_bbox
      (Fixtures.cube (Fixtures.cube_tools "item" Fixtures.broken_extractor)
         (λ z, of_Z z) tt) None
    = Ret [west'; of_Z 85; east'; of_Z 95]
    ∧ leb (SFopp c180) west' = true ∧ leb west' c180 = true
    ∧ leb (SFopp c180) east' = true ∧ leb east' c180 = true.
Proof.
  apply (get_bbox_longitudes_in_range
           (Fixtures.cube (Fixtures.cube_tools "item" Fixtures.broken_extractor)
              (λ z, of_Z z) tt) None (of_Z 170) (of_Z 85) (of_Z 190) (of_Z 95));
    reflexivity.
Defined.

(** X17: the property blocks are for items only.  On a record of any
    other object type, a collection included, the three property
    accessors raise [InvalidModelObjectTypeError] with that object type;
    on an item the target block is the validation of the one target Mars,
    and the publication and processing blocks are [None]. *)
Theorem properties_for_items_only `{L : Labtools} `{S : !Stac L}
    (record : OMEGA_Cube_Record) (definition : option CollectionDefinition) :
  (get_object_type record = "item" →
   get_ssys_properties record definition
   = SsysProperties_init {[ "ssys:targets" := JArr [JStr "Mars"] ]}
   ∧ get_sci_properties record definition = Ret None
   ∧ get_processing_properties record definition = Ret None)
  ∧ (get_object_type record ≠ "item" →
     get_ssys_properties record definition
     = Raise (InvalidModelObjectTypeError (get_object_type record))
     ∧ get_sci_properties record definition
       = Raise (InvalidModelObjectTypeError (get_object_type record))
     ∧ get_processing_properties record definition
       = Raise (InvalidModelObjectTypeError (get_object_type record))).
Proof.
  unfold get_ssys_properties, get_sci_properties, get_processing_properties.
  split.
  - by intros ->.
  - intros Hne%String.eqb_neq. by rewrite Hne.
Qed.

Lemma properties_for_items_only_witness :
  get_ssys_properties (S := Cases.cube_stac _ Cases.broken_properties)
    (Fixtures.cube (Fixtures.cube_tools "collection" Fixtures.broken_extractor)
       (λ z, of_Z z) tt) None
  = Raise (InvalidModelObjectTypeError "collection")
  ∧ get_sci_properties (S := Cases.cube_stac _ Cases.broken_properties)
      (Fixtures.cube (Fixtures.cube_tools "collection" Fixtures.broken_extractor)
         (λ z, of_Z z) tt) None
    = Raise (InvalidModelObjectTypeError "collection")
  ∧ get_processing_properties (S := Cases.cube_stac _ Cases.broken_properties)
      (Fixtures.cube (Fixtures.cube_tools "collection" Fixtures.broken_extractor)
         (λ z, of_Z z) tt) None
    = Raise (InvalidModelObjectTypeError "collection").
Proof.
  apply (proj2 (properties_for_items_only
                  (S := Cases.cube_stac _ Cases.broken_properties)
                  (Fixtures.cube
                     (Fixtures.cube_tools "collection" Fixtures.broken_extractor)
                     (λ z, of_Z z) tt) None)).
  discriminate.
Defined.

(** X18: the extension fields by object type.  For an item the three
    field accessors return empty mappings.  For a collection with a
    definition each returns one entry, read from the definition: the
    target bodies, the publications rendered one by one as plain data,
    and the processing level; the three keys differ, so the mappings
    merge into one of three entries.  For a collection without a
    definition each raises [AttributeError].  For any other object type
    each raises [InvalidModelObjectTypeError] with that object type. *)
Theorem fields_by_object_type `{L : Labtools} `{S : !Stac L}
    (record : OMEGA_Cube_Record) (definition : option CollectionDefinition) :
  (get_object_type record = "item" →
   get_ssys_fields record definition = Ret ∅
   ∧ get_sci_fields record definition = Ret ∅
   ∧ processing_fields_of record definition = Ret ∅)
  ∧ (get_object_type record = "collection" →
     match definition with
     | Some d =>
         ∃ ssys sci processing,
           get_ssys_fields record definition = Ret ssys
           ∧ get_sci_fields record definition = Ret sci
           ∧ processing_fields_of record definition = Ret processing
           ∧ ssys ∪ sci ∪ processing
             = list_to_map
                 [("ssys:targets", ssys_targets d);
                  ("sci:publications",
                   JArr (List.map publication_dict (sci_publications d)));
                  ("processing:level", processing_level (definition_base d))]
           ∧ size (ssys ∪ sci ∪ processing) = 3%nat
     | None =>
         get_ssys_fields record definition = Raise (AttributeError "ssys_targets")
         ∧ get_sci_fields record definition
           = Raise (AttributeError "sci_publications")
         ∧ processing_fields_of record definition
           = Raise (AttributeError "processing_level")
     end)
  ∧ (get_object_type record ≠ "item" →
     get_object_type record ≠ "collection" →
     get_ssys_fields record definition
     = Raise (InvalidModelObjectTypeError (get_object_type record))
     ∧ get_sci_fields record definition
       = Raise (InvalidModelObjectTypeError (get_object_type record))
     ∧ processing_fields_of record definition
       = Raise (InvalidModelObjectTypeError (get_object_type record))).
Proof.
  unfold get_ssys_fields, get_sci_fields, processing_fields_of,
    get_processing_fields.
  split; [| split].
  - by intros ->.
  - intros ->. cbn [String.eqb Ascii.eqb Bool.eqb].
    destruct definition as [d |]; [| done].
    eexists _, _, _. do 3 (split; [reflexivity |]). cbn [option_map].
    assert ({[ "ssys:targets" := ssys_targets d ]}
            ∪ {[ "sci:publications" :=
                   JArr (List.map publication_dict (sci_publications d)) ]}
            ∪ {[ "processing:level" := processing_level (definition_base d) ]}
            = (list_to_map
                 [("ssys:targets", ssys_targets d);
                  ("sci:publications",
                   JArr (List.map publication_dict (sci_publications d)));
                  ("processing:level", processing_level (definition_base d))]
               : gmap string json)) as Heq.
    { cbn [list_to_map foldr]. rewrite !insert_union_singleton_l.
      rewrite (right_id ∅ (∪)). by rewrite (assoc (∪)). }
    split; [exact Heq |]. rewrite Heq. cbn [list_to_map foldr uncurry fst snd].
    rewrite !map_size_insert_None; [done | ..].
    + done.
    + by rewrite lookup_insert_ne.
    + rewrite !lookup_insert_ne by done. done.
  - intros Hi%String.eqb_neq Hc%String.eqb_neq. by rewrite Hi, Hc.
Qed.

Lemma fields_by_object_type_witness :
  get_ssys_fields (S := Cases.cube_stac _ Cases.broken_properties)
    (Fixtures.cube (Fixtures.cube_tools "dataset" Fixtures.broken_extractor)
       (λ z, of_Z z) tt) None
  = Raise (InvalidModelObjectTypeError "dataset")
  ∧ get_sci_fields (S := Cases.cube_stac _ Cases.broken_properties)
      (Fixtures.cube (Fixtures.cube_tools "dataset" Fixtures.broken_extractor)
         (λ z, of_Z z) tt) None
    = Raise (InvalidModelObjectTypeError "dataset")
  ∧ processing_fields_of (S := Cases.cube_stac _ Cases.broken_properties)
      (Fixtures.cube (Fixtures.cube_tools "dataset" Fixtures.broken_extractor)
         (λ z, of_Z z) tt) None
    = Raise (InvalidModelObjectTypeError "dataset").
Proof.
  apply (proj2 (proj2 (fields_by_object_type
                         (S := Cases.cube_stac _ Cases.broken_properties)
                         (Fixtures.cube
                            (Fixtures.cube_tools "dataset"
                               Fixtures.broken_extractor)
                            (λ z, of_Z z) tt) None)));
    discriminate.
Defined.

Lemma lookup_update (nd base : gmap string json) (k : string) :
  (nd ∪ base) !! k = match nd !! k with
                     | Some v => Some v
                     | None => base !! k
                     end.
Proof.
  rewrite lookup_union. by destruct (nd !! k), (base !! k).
Qed.

(** The dict that reaches the validation when [exists()] answers: the
    literal, updated with what the extractor returned if it was called
    and did return. *)
Lemma collect_properties_cases `{L : Labtools} `{S : !Stac L}
    (now : json) (record : OMEGA_Cube_Record) (data_path : option string)
    (w : world) :
  (∀ dir, truthy data_path = Some dir →
          probe_ok w (netcdf_file_of record dir) = true) →
  ∃ d, (collect_properties now record data_path w).1 = Ret d
       ∧ (d = base_properties now record
          ∨ ∃ nd, d = nd ∪ base_properties now record).
Proof.
  intros Hok. unfold collect_properties.
  destruct (truthy data_path) as [dir |]; [| eexists; split; [done | by left]].
  rewrite (bind_ret _ _ _ _ _ (exists_answer w _ (Hok dir eq_refl))).
  destruct (there w (netcdf_file_of record dir));
    [| eexists; split; [done | by left]].
  unfold_m. destruct (get_netcdf_properties _ _ w) as [[nd | e] w1].
  - eexists. split; [done |]. right. by exists nd.
  - eexists. split; [done | by left].
Qed.

(** X19: [get_properties] lets no exception of the extractor out.  When
    [exists()] answers for the NetCDF file of the record, or no data
    path is given, the outcome of the call is the outcome of the
    validation of one dict, so an exception it ends with is a validation
    error; and that dict has every key of the literal the method starts
    from: the extractor can add keys and replace values but never remove
    a key.  The one other exception is the error of [exists()] itself,
    which is called outside the [try]: when it raises, the call ends
    with that error, and nothing was printed or changed. *)
Theorem get_properties_validates_all_keys `{L : Labtools} `{S : !Stac L}
    (now : json) (record : OMEGA_Cube_Record)
    (definition : option CollectionDefinition) (data_path : option string)
    (w : world) :
  ((∀ dir, truthy data_path = Some dir →
           probe_ok w (netcdf_file_of record dir) = true) →
   ∃ d, (get_properties now record definition data_path w).1 = Properties_init d
        ∧ ∀ k, is_Some (base_properties now record !! k) → is_Some (d !! k))
  ∧ (∀ dir e, truthy data_path = Some dir →
              probe w (netcdf_file_of record dir) = Raise e →
              get_properties now record definition data_path w = (Raise e, w)).
Proof.
  split.
  - intros Hok.
    destruct (collect_properties_cases now record data_path w Hok)
      as (d & Hd & Hcases).
    exists d. split.
    + unfold get_properties, bind, lift.
      destruct (collect_properties now record data_path w) as [r w1].
      cbn [fst] in Hd. by subst r.
    + intros k Hk. destruct Hcases as [-> | [nd ->]]; [done |].
      rewrite lookup_update. by destruct (nd !! k).
  - intros dir e Hdir Hrefused. unfold get_properties. apply bind_raise.
    unfold collect_properties. rewrite Hdir.
    by apply bind_raise, exists_refused.
Qed.

Lemma get_properties_validates_all_keys_witness :
  get_properties (S := Cases.cube_stac _ Cases.found_properties)
    (JStr "2026-01-01")
    (Cases.long_cube (Fixtures.cube_tools "item" Fixtures.broken_extractor)
       (λ z, of_Z z) tt) None (Some "source") Cases.long_name_first
  = (Raise (OSError ENAMETOOLONG (of_str "source/data" // Cases.long_name)),
     Cases.long_name_first).
Proof.
  apply (proj2 (get_properties_validates_all_keys
                  (S := Cases.cube_stac _ Cases.found_properties)
                  (JStr "2026-01-01")
                  (Cases.long_cube
                     (Fixtures.cube_tools "item" Fixtures.broken_extractor)
                     (λ z, of_Z z) tt) None (Some "source")
                  Cases.long_name_first) "source").
  - reflexivity.
  - vm_compute. reflexivity.
Defined.

(** X20: how the NetCDF properties are merged.  With a data path under
    which the file of the record exists, a dict returned by the extractor
    updates the literal: the validated dict has the extractor's value at
    every key the extractor defines and the literal's value at every
    other key.  An exception of the extractor is caught: it is printed,
    followed by the line naming the file, and the literal is validated
    as it is. *)
Theorem get_properties_merge `{L : Labtools} `{S : !Stac L}
    (now : json) (record : OMEGA_Cube_Record)
    (definition : option CollectionDefinition) (data_path : option string)
    (dir : string) (w : world) :
  truthy data_path = Some dir →
  is_Some (lookup_node w (netcdf_file_of record dir)) →
  (∀ nd w1,
     get_netcdf_properties (netcdf_file_of record dir) SCHEMA_NAME w
     = (Ret nd, w1) →
     ∃ d, get_properties now record definition data_path w
          = (Properties_init d, w1)
          ∧ ∀ k, d !! k = match nd !! k with
                          | Some v => Some v
                          | None => base_properties now record !! k
                          end)
  ∧ (∀ e w1,
       get_netcdf_properties (netcdf_file_of record dir) SCHEMA_NAME w
       = (Raise e, w1) →
       get_properties now record definition data_path w
       = (Properties_init (base_properties now record),
          mkWorld (fs w1) (remote w1) (net w1)
            (out w1 ++ [PExn e; properties_failed (netcdf_file_of record dir)]))).
Proof.
  intros Hdir Hfile.
  assert (∀ k : gmap string json → M properties,
            bind (collect_properties now record data_path) k w
            = bind (try_except
                      (let* netcdf_metadata_dict :=
                         get_netcdf_properties (netcdf_file_of record dir)
                           SCHEMA_NAME in
                       ret (netcdf_metadata_dict ∪ base_properties now record))
                      (λ e, let* _ := print (PExn e) in
                            let* _ := print (properties_failed
                                               (netcdf_file_of record dir)) in
                            ret (base_properties now record))) k w) as Hstep.
  { intros k. unfold collect_properties. rewrite Hdir. unfold bind at 1 4.
    by rewrite (bind_ret _ _ _ _ _ (exists_spelled _ _ Hfile)). }
  unfold get_properties. rewrite Hstep. split.
  - intros nd w1 Hrun. exists (nd ∪ base_properties now record).
    split; [| intros k; apply lookup_update].
    unfold try_except, bind, ret, lift. by rewrite Hrun.
  - intros e w1 Hrun. unfold try_except, bind, ret, lift, print.
    rewrite Hrun. cbn [fs remote net out]. by rewrite <- app_assoc.
Qed.

Lemma get_properties_merge_witness :
  ∃ d, get_properties
         (S := Cases.cube_stac _ Cases.found_properties) (JStr "2026-01-01")
         (Fixtures.cube (Fixtures.cube_tools "item" Fixtures.broken_extractor)
            (λ z, of_Z z) tt) None (Some "source") Cases.first_in_place
       = (Ret d, Cases.first_in_place)
       ∧ ∀ k, d !! k
              = match (list_to_map [("gsd", JNum 350);
                                    ("created", JStr "2004-01-14")]
                       : gmap string json) !! k with
                | Some v => Some v
                | None =>
                    base_properties
                      (S := Cases.cube_stac _ Cases.found_properties)
                      (JStr "2026-01-01")
                      (Fixtures.cube
                         (Fixtures.cube_tools "item" Fixtures.broken_extractor)
                         (λ z, of_Z z) tt) !! k
                end.
Proof.
  refine (proj1 (get_properties_merge
                   (S := Cases.cube_stac _ Cases.found_properties)
                   (JStr "2026-01-01")
                   (Fixtures.cube
                      (Fixtures.cube_tools "item" Fixtures.broken_extractor)
                      (λ z, of_Z z) tt)
                   None (Some "source") "source" Cases.first_in_place _ _)
            _ Cases.first_in_place _).
  - reflexivity.
  - vm_compute. eexists. reflexivity.
  - reflexivity.
Defined.

(** * Further properties: whole degrees *)

Lemma mantissa_below_top (m : positive) (e : Z) :
  bounded prec emax m e = true → Zpos m < 2 ^ 53.
Proof.
  intros [Hc _]%bounded_spec.
  pose proof (digits_bounds (Zpos m) ltac:(lia)) as [_ Hlt].
  assert (digits (Zpos m) ≤ 53) as Hd by lia.
  pose proof (Z.pow_le_mono_r 2 (digits (Zpos m)) 53 ltac:(lia) Hd). lia.
Qed.

(** [% 360.0] in units of [2 ^ -1074]: the remainder of the floor
    division, rounded once when the divisor is added to a negative
    remainder. *)
Lemma rem_c360_value (s : float) :
  good s → rem s c360 = of_scaled (scaled s mod Z360).
Proof.
  intros [[sg ->] | Hs]%good_cases; [by destruct sg |].
  destruct s as [| | | ss ms es]; try done.
  pose proof Hs as [Hc He]%bounded_spec.
  pose proof (mantissa_below_top ms es Hs) as Htop.
  unfold rem.
  change (fmod (S754_finite ss ms es) c360)
    with (binary_normalize prec emax
            (cond_Zopp ss
               ((Zpos ms * 2 ^ (es - Z.min es (-44)))
                mod (6333186975989760 * 2 ^ (-44 - Z.min es (-44)))))
            (Z.min es (-44)) ss).
  set (e := Z.min es (-44)).
  set (r := (Zpos ms * 2 ^ (es - e)) mod (6333186975989760 * 2 ^ (-44 - e))).
  assert (- bias ≤ e) as Hbe by (subst e; unfold bias; lia).
  assert (0 < 2 ^ (e + bias)) as Hpe by lia.
  assert (6333186975989760 * 2 ^ (-44 - e) * 2 ^ (e + bias) = Z360) as H360.
  { rewrite <- Z.mul_assoc, <- Z.pow_add_r by (subst e; lia).
    replace (-44 - e + (e + bias)) with 1030 by (unfold bias; lia).
    vm_compute. reflexivity. }
  assert (Zpos ms * 2 ^ (es - e) * 2 ^ (e + bias) = Zpos ms * 2 ^ (es + bias))
    as Hms.
  { rewrite <- Z.mul_assoc, <- Z.pow_add_r by (subst e; lia).
    do 2 f_equal. lia. }
  assert (0 < 2 ^ (-44 - e)) as Hp44 by (subst e; lia).
  assert (0 < 2 ^ (es - e)) as Hpes by (subst e; lia).
  pose proof (Z.mod_pos_bound (Zpos ms * 2 ^ (es - e))
                (6333186975989760 * 2 ^ (-44 - e)) ltac:(lia)) as Hb.
  fold r in Hb.
  assert (r * 2 ^ (e + bias) = (Zpos ms * 2 ^ (es + bias)) mod Z360) as Hmod.
  { rewrite <- Hms, <- H360. subst r.
    by rewrite Z.mul_mod_distr_r by lia. }
  assert (r < 2 ^ 53) as Hr53.
  { destruct (Z.le_gt_cases es (-44)) as [Hle | Hgt].
    - assert (e = es) as Hees by (subst e; lia).
      pose proof (Z.mod_le (Zpos ms * 2 ^ (es - e))
                    (6333186975989760 * 2 ^ (-44 - e)) ltac:(lia) ltac:(lia))
        as Hrle.
      fold r in Hrle. rewrite Hees, Z.sub_diag, Z.mul_1_r in Hrle. lia.
    - assert (e = -44) as He44 by (subst e; lia).
      rewrite He44 in Hb. change (2 ^ (-44 - -44)) with 1 in Hb. lia. }
  set (t0 := r * 2 ^ (e + bias)) in *.
  assert (0 < Z360) as H360pos by done.
  assert (Z360 ≤ max_scaled) as Hmax by (apply degrees_below_max; lia).
  rewrite binary_normalize_zero_sign by done.
  destruct (Z.eq_dec r 0) as [Hr0 | Hrn].
  { (* the float is a multiple of 360 *)
    assert (t0 = 0) as Ht0 by (subst t0; lia).
    rewrite Hr0. replace (cond_Zopp ss 0) with 0 by (by destruct ss).
    cbn [Z.eqb nonzero sign]. unfold scaled.
    destruct ss; cbn [cond_Zopp].
    - rewrite Z.mod_opp_l_z by lia || (rewrite <- Hmod; exact Ht0).
      reflexivity.
    - by rewrite <- Hmod, Ht0. }
  assert (0 < t0) as Ht0 by (subst t0; nia).
  assert (rne t0 = t0) as Hexact
    by (subst t0; apply rne_representable; lia).
  assert (t0 < Z360) as Hlt.
  { rewrite <- H360. subst t0. nia. }
  unfold scaled. destruct ss; cbn [cond_Zopp].
  - (* a negative remainder: the divisor is added *)
    destruct (Z.eqb_spec (- r) 0) as [? | _]; [lia |].
    replace (- r * 2 ^ (e + bias)) with (- t0) by (subst t0; lia).
    destruct (of_scaled_value (- t0)) as [Hp Hsc]; [lia | |].
    { rewrite Z.abs_neq by lia. rewrite Z.opp_involutive. lia. }
    rewrite Z.abs_neq, Z.opp_involutive, Z.sgn_neg, Hexact in Hsc by lia.
    assert (nonzero (of_scaled (- t0)) = true) as ->
      by (by destruct (of_scaled (- t0))).
    rewrite (ltb_zero_good (of_scaled (- t0))) by (by apply proper_good).
    change (ltb c360 zero) with false. cbn [xorb].
    rewrite (proj2 (Z.ltb_lt _ _)) by lia.
    rewrite add_proper by (done || apply proper_c360).
    rewrite Hsc, scaled_c360. f_equal.
    rewrite Z.mod_opp_l_nz by (lia || (rewrite <- Hmod; lia)).
    rewrite <- Hmod. lia.
  - destruct (Z.eqb_spec r 0) as [? | _]; [lia |]. fold t0.
    destruct (of_scaled_value t0) as [Hp Hsc]; [lia | |].
    { rewrite Z.abs_eq by lia. lia. }
    rewrite Z.abs_eq, Z.sgn_pos, Hexact in Hsc by lia.
    assert (nonzero (of_scaled t0) = true) as ->
      by (by destruct (of_scaled t0)).
    rewrite (ltb_zero_good (of_scaled t0)) by (by apply proper_good).
    change (ltb c360 zero) with false. cbn [xorb].
    rewrite (proj2 (Z.ltb_ge _ _)) by lia.
    by rewrite <- Hmod.
Qed.

Lemma of_Z_scaled (z : Z) : of_Z z = of_scaled (z * 2 ^ bias).
Proof.
  unfold of_Z. rewrite binary_normalize_scaled by done.
  by rewrite Z.add_0_l.
Qed.

Lemma whole_below_max (n : Z) :
  0 < n < 2 ^ 53 → n * 2 ^ bias ≤ max_scaled.
Proof.
  intros Hn. unfold max_scaled, bias.
  pose proof (Z.pow_le_mono_r 2 1074 2045 ltac:(lia) ltac:(lia)) as Hle.
  pose proof (Z.pow_pos_nonneg 2 1074 ltac:(lia) ltac:(lia)) as Hpos.
  remember (2 ^ 1074) as P eqn:HP. remember (2 ^ 2045) as Q eqn:HQ.
  clear HP HQ. nia.
Qed.

(** A whole number below [2 ^ 53] is a float. *)
Lemma of_scaled_whole (n : Z) :
  n ≠ 0 → Z.abs n < 2 ^ 53 →
  proper (of_scaled (n * 2 ^ bias))
  ∧ scaled (of_scaled (n * 2 ^ bias)) = n * 2 ^ bias.
Proof.
  intros Hn Hlt.
  assert (0 < 2 ^ bias) as Hpos by done.
  assert (Z.abs (n * 2 ^ bias) = Z.abs n * 2 ^ bias) as Habs
    by (rewrite Z.abs_mul, (Z.abs_eq (2 ^ bias)); lia).
  assert (rne (Z.abs (n * 2 ^ bias)) = Z.abs n * 2 ^ bias) as Hexact
    by (rewrite Habs; apply rne_representable; [lia | done]).
  destruct (of_scaled_value (n * 2 ^ bias)) as [Hp Hs].
  - remember (2 ^ bias) as P. nia.
  - rewrite Hexact. apply whole_below_max. lia.
  - split; [done |]. rewrite Hs, Hexact, Z.sgn_mul, (Z.sgn_pos (2 ^ bias)) by done.
    rewrite Z.mul_1_r, Z.mul_assoc. f_equal. rewrite Z.mul_comm. apply Z.abs_sgn.
Qed.

(** X21: on whole degrees the floating-point normalisation is exact.
    For every integer [z] of magnitude at most [2 ^ 52], normalising the
    float of [z] gives the float of [(z + 180) mod 360 - 180], the
    representative of [z] modulo 360 in the interval from -180
    (included) to 180 (excluded). *)
Theorem normalize_longitude_whole_degrees (z : Z) :
  Z.abs z ≤ 2 ^ 52 →
  normalize_longitude (of_Z z) = of_Z ((z + 180) mod 360 - 180)
  ∧ -180 ≤ (z + 180) mod 360 - 180 < 180.
Proof.
  intros Hz. split; [| pose proof (Z.mod_pos_bound (z + 180) 360); lia].
  assert (0 < 2 ^ bias) as Hpos by done.
  unfold normalize_longitude. rewrite !of_Z_scaled.
  (* the addition *)
  assert (add (of_scaled (z * 2 ^ bias)) c180
          = of_scaled ((z + 180) * 2 ^ bias)) as ->.
  { destruct (Z.eq_dec z 0) as [-> | Hz0]; [by vm_compute |].
    destruct (of_scaled_whole z Hz0 ltac:(lia)) as [Hp Hs].
    rewrite add_proper by (done || apply proper_c180).
    rewrite Hs, scaled_c180. unfold Z180. f_equal. lia. }
  (* the remainder *)
  set (m := (z + 180) mod 360).
  assert (0 ≤ m < 360) as Hm by (subst m; apply Z.mod_pos_bound; lia).
  assert (rem (of_scaled ((z + 180) * 2 ^ bias)) c360
          = of_scaled (m * 2 ^ bias)) as ->.
  { destruct (Z.eq_dec (z + 180) 0) as [Hz0 | Hz0].
    - subst m. rewrite Hz0. by vm_compute.
    - destruct (of_scaled_whole (z + 180) Hz0 ltac:(lia)) as [Hp Hs].
      rewrite rem_c360_value by (by apply proper_good).
      rewrite Hs. unfold Z360. subst m.
      by rewrite Z.mul_mod_distr_r by lia. }
  (* the subtraction *)
  destruct (Z.eq_dec m 0) as [-> | Hm0]; [by vm_compute |].
  destruct (of_scaled_whole m Hm0 ltac:(lia)) as [Hp Hs].
  rewrite sub_proper by (done || apply proper_c180).
  rewrite Hs, scaled_c180. unfold Z180. f_equal. lia.
Qed.

Lemma normalize_longitude_whole_degrees_witness :
  normalize_longitude (of_Z 540) = of_Z ((540 + 180) mod 360 - 180)
  ∧ -180 ≤ (540 + 180) mod 360 - 180 < 180.
Proof.
  apply (normalize_longitude_whole_degrees 540). vm_compute. discriminate.
Defined.
